(** * AmyPET: acquisition classifier, frame alignment cache and VOI/SUVr sampling

    A shallow embedding of [amypet/preproc.py] ([explore_input],
    [align_suvr]) and [amypet/suvr_tools.py] ([preproc_suvr],
    [extract_vois], [voi_process] and its ratio), followed by the
    properties established about them.

    Conventions.
    - Python integers are [Z]; Python and NumPy floats are the kernel's
      binary64 numbers ([PrimFloat.float]), so that [w * (1 - margin)] and
      [x / 0] are computed exactly as the interpreter computes them.  The
      elements of a [float32] array are the binary64 numbers of the same
      value, and the sums of such arrays round to 24 bits.
    - A raised exception is a value of [Py.exn]; a function that can raise
      returns a [Py.result].
    - A [datetime] is a number of microseconds since a fixed epoch and a
      [timedelta] a (possibly negative) number of microseconds.
    - A NumPy volume is the list of its voxels in storage order; a 4D image
      is the list of its frames. *)

From Stdlib Require Import ZArith List String Ascii Bool Lia Floats Uint63 Permutation.
Import ListNotations.

Local Open Scope string_scope.
Local Open Scope list_scope.
Local Open Scope Z_scope.

(** ** Python values and exceptions *)

Module Py.

Inductive exn : Type :=
| ValueError (msg : string)
| TypeError (msg : string)
| IndexError (msg : string)
| KeyError (key : string)
| AttributeError (attr : string)
| UnboundLocalError (name : string)
| OverflowError (msg : string)
| StopIteration.

Inductive result (A : Type) : Type :=
| Ok (a : A)
| Raise (e : exn).

Arguments Ok {A} a.
Arguments Raise {A} e.

Definition bind {A B : Type} (c : result A) (k : A -> result B) : result B :=
  match c with
  | Ok a => k a
  | Raise e => Raise e
  end.

(** [min(l, key=key)]: the first element whose key is minimal. *)
Fixpoint min_from {A : Type} (key : A -> Z) (best : A) (l : list A) : A :=
  match l with
  | [] => best
  | x :: l' => if key x <? key best then min_from key x l' else min_from key best l'
  end.

Definition min_key {A : Type} (key : A -> Z) (l : list A) : result A :=
  match l with
  | [] => Raise (ValueError "min() arg is an empty sequence")
  | x :: l' => Ok (min_from key x l')
  end.

(** [l.index(x)] on a list of integers: the first position holding [x]. *)
Fixpoint index_from (x : Z) (l : list Z) (i : nat) : result nat :=
  match l with
  | [] => Raise (ValueError "x is not in list")
  | y :: l' => if y =? x then Ok i else index_from x l' (S i)
  end.

Definition index (x : Z) (l : list Z) : result nat := index_from x l 0.

(** [l[i]] with Python's negative indices. *)
Definition getitem {A : Type} (l : list A) (i : Z) : result A :=
  let n := Z.of_nat (List.length l) in
  let j := if i <? 0 then i + n else i in
  if (j <? 0) || (n <=? j) then Raise (IndexError "index out of range")
  else match nth_error l (Z.to_nat j) with
       | Some a => Ok a
       | None => Raise (IndexError "index out of range")
       end.

(** [n in s] on strings. *)
Fixpoint contains (n s : string) : bool :=
  if String.prefix n s then true
  else match s with
       | EmptyString => false
       | String _ s' => contains n s'
       end.

(** [s.lower()] on ASCII text. *)
Definition lower_ascii (c : ascii) : ascii :=
  let n := nat_of_ascii c in
  if (Nat.leb 65 n && Nat.leb n 90)%bool then ascii_of_nat (n + 32) else c.

Fixpoint lower (s : string) : string :=
  match s with
  | EmptyString => EmptyString
  | String c s' => String (lower_ascii c) (lower s')
  end.

(** The binary64 number nearest to the integer [z], ties to even; an
    infinity when that number is out of range. *)
Definition float_of_Z (z : Z) : float :=
  SF2Prim (binary_normalize prec emax z 0 false).

(** [float(z)], also the conversion of the integer operand of a mixed
    product [z * x]: an integer that rounds beyond the largest float
    raises. *)
Definition float_of_int (z : Z) : result float :=
  let x := float_of_Z z in
  if PrimFloat.is_infinity x
  then Raise (OverflowError "int too large to convert to float")
  else Ok x.

(** [z * x] for an integer [z] and a float [x]. *)
Definition int_times_float (z : Z) (x : float) : result float :=
  match float_of_int z with
  | Ok y => Ok (PrimFloat.mul y x)
  | Raise e => Raise e
  end.

(** An integer against a float: CPython compares the two exact values
    and converts neither.  [None] when the float is NaN. *)
Definition compare_int_float (z : Z) (x : float) : option comparison :=
  match Prim2SF x with
  | S754_nan => None
  | S754_infinity s => Some (if s then Gt else Lt)
  | S754_zero _ => Some (z ?= 0)
  | S754_finite s m e =>
      let v := if s then Z.neg m else Z.pos m in
      Some (if 0 <=? e then z ?= v * 2 ^ e else z * 2 ^ (- e) ?= v)
  end.

(** [z < x] *)
Definition int_lt_float (z : Z) (x : float) : bool :=
  match compare_int_float z x with Some Lt => true | _ => false end.

(** [z > x] *)
Definition int_gt_float (z : Z) (x : float) : bool :=
  match compare_int_float z x with Some Gt => true | _ => false end.

(** State and exceptions together: a computation takes the state it
    starts from and gives the state it leaves and what it returned or
    raised. *)
Definition M (St A : Type) : Type := St -> St * result A.

Definition ret {St A : Type} (a : A) : M St A := fun w => (w, Ok a).
Definition raise {St A : Type} (e : exn) : M St A := fun w => (w, Raise e).
Definition lift {St A : Type} (r : result A) : M St A := fun w => (w, r).
Definition mbind {St A B : Type} (c : M St A) (k : A -> M St B) : M St B :=
  fun w => match c w with
           | (w', Ok a) => k a w'
           | (w', Raise e) => (w', Raise e)
           end.

End Py.

Import Py.

Notation "x <- c ;; k" := (Py.bind c (fun x => k))
  (at level 61, c at next level, right associativity).

Notation "x <~ c ;; k" := (Py.mbind c (fun x => k))
  (at level 61, c at next level, right associativity).

(** ** NumPy arithmetic *)

Module Np.

(** A [float32] value is the binary64 number of the same value; the
    operations on [float32] arrays round to 24 bits. *)
Definition prec32 : Z := 24.
Definition emax32 : Z := 128.

(** [np.float32(x)] and the store of a float64 into a [float32] array. *)
Definition to_float32 (x : float) : float :=
  match Prim2SF x with
  | S754_finite s m e => SF2Prim (binary_round prec32 emax32 s m e)
  | _ => x
  end.

(** [x + y] on [float32] values. *)
Definition add32 (x y : float) : float :=
  SF2Prim (SFadd prec32 emax32 (Prim2SF x) (Prim2SF y)).

Section PairwiseSum.

Variable add : float -> float -> float.

Fixpoint zip_add (r a : list float) : list float :=
  match r, a with
  | x :: r', y :: a' => add x y :: zip_add r' a'
  | _, _ => []
  end.

(** The eight running sums of the unrolled loop, over [blocks] further
    blocks of eight values; what is left of the array comes back with
    them. *)
Fixpoint add_blocks (r a : list float) (blocks : nat) : list float * list float :=
  match blocks with
  | O => (r, a)
  | S b => add_blocks (zip_add r (firstn 8 a)) (skipn 8 a) b
  end.

(** An array of 8 to 128 values: eight running sums, combined two by
    two, then the values beyond the last full block of eight. *)
Definition block_sum (a : list float) : float :=
  let '(r, rest) := add_blocks (firstn 8 a) (skipn 8 a) (List.length a / 8 - 1)%nat in
  match r with
  | [r0; r1; r2; r3; r4; r5; r6; r7] =>
      fold_left add rest
        (add (add (add r0 r1) (add r2 r3)) (add (add r4 r5) (add r6 r7)))
  | _ => fold_left add a 0%float
  end.

(** The pairwise summation of a contiguous array: a plain loop below 8
    values, the unrolled loop up to 128, and above that the two halves,
    the first a multiple of eight long, summed separately.  [fuel] bounds
    the halvings; the length of the array is enough. *)
Fixpoint pairwise_sum (fuel : nat) (a : list float) : float :=
  let n := List.length a in
  if Nat.ltb n 8 then fold_left add a 0%float
  else if Nat.leb n 128 then block_sum a
  else match fuel with
       | O => block_sum a
       | S f =>
           let n2 := (n / 2 - (n / 2) mod 8)%nat in
           add (pairwise_sum f (firstn n2 a)) (pairwise_sum f (skipn n2 a))
       end.

(** [np.sum(a)] along the contiguous axis: the pairwise sum added to the
    zero the result starts from. *)
Definition sum (a : list float) : float :=
  add 0%float (pairwise_sum (List.length a) a).

End PairwiseSum.

(** [np.sum] of a [float64] and of a [float32] array. *)
Definition sum64 : list float -> float := sum PrimFloat.add.
Definition sum32 : list float -> float := sum add32.

End Np.

(** ** preproc.py *)

Module Preproc.

(** *** Module constants *)

(** [suvr_twindow]: tracer, SUVr window start and stop, and duration, in
    the dictionary's insertion order. *)
Definition suvr_twindow : list (string * (Z * Z * Z)) :=
  [ ("flute", (90 * 60, 110 * 60, 1200));
    ("fbb", (90 * 60, 110 * 60, 1200));
    ("fbp", (50 * 60, 60 * 60, 600)) ].

(** [margin = 0.1], the binary64 number nearest to one tenth. *)
Definition margin : float := 0x1.999999999999ap-4%float.

Definition tracer_names : list (string * list string) :=
  [ ("flute", ["flt"; "flut"; "flute"; "flutemetamol"]);
    ("fbb", ["fbb"; "florbetaben"]);
    ("fbp", ["fbp"; "florbetapir"]) ].

Definition break_time : Z := 1800.
Definition breakdyn_t : Z * Z := (1200, 2400).
Definition fulldyn_time : Z := 3600.

(** *** Frames and their timings *)

(** One DICOM series as [nimpa.dcmsort] describes it.  [acq_datetime] is
    [datetime.strptime(dstudy + tacq, '%Y%m%d%H%M%S')]; [tracer_tag] is
    the optional ['tracer'] entry. *)
Record frame : Type := {
  series_id : string;
  tacq : string;
  acq_datetime : Z;
  frm_dur : Z;
  radio_start_time : Z;
  tracer_tag : option string
}.

(** [timedelta.seconds]: a [timedelta] is normalised to days, seconds in
    [0, 86400) and microseconds in [0, 10^6); [.seconds] reads the middle
    field only. *)
Definition timedelta_seconds (us : Z) : Z := (us / 1000000) mod 86400.

Definition frame_timing (f : frame) : Z * Z :=
  (timedelta_seconds (acq_datetime f - radio_start_time f),
   timedelta_seconds (acq_datetime f + frm_dur f - radio_start_time f)).

Definition frame_timings (srs_t : list frame) : list (Z * Z) :=
  map frame_timing srs_t.

(** [sorted(m.items(), key=lambda item: item[1]['tacq'])]: a stable sort
    on the acquisition-time string. *)
Fixpoint insert_by_tacq (f : frame) (l : list frame) : list frame :=
  match l with
  | [] => [f]
  | g :: l' =>
      if String.ltb (tacq f) (tacq g) then f :: g :: l'
      else g :: insert_by_tacq f l'
  end.

Definition sort_by_tacq (m : list frame) : list frame :=
  fold_left (fun acc f => insert_by_tacq f acc) m [].

(** *** Acquisition kind *)

Inductive acq_kind : Type := static | breakdyn | fulldyn.

(** Lines 160-167: [acq_type] from the first start and the last stop. *)
Definition classify (t_start0 t_stop_last : Z) : option acq_kind :=
  if t_start0 <? 1 then
    if (fst breakdyn_t <? t_stop_last) && (t_stop_last <=? snd breakdyn_t)
    then Some breakdyn
    else if fulldyn_time <=? t_stop_last then Some fulldyn
    else None
  else if 1 <? t_start0 then Some static
  else None.

(** *** Comparisons against a margin-scaled bound *)

(** [1-margin] and [1+margin] *)
Definition lower_factor : float := PrimFloat.sub 1%float margin.
Definition upper_factor : float := PrimFloat.add 1%float margin.

(** [t > w*(1-margin)] for integers [t] and [w], [w] within the range of
    the floats. *)
Definition above_lower_margin (t w : Z) : bool :=
  int_gt_float t (PrimFloat.mul (float_of_Z w) lower_factor).

(** [t < w*(1+margin)] likewise. *)
Definition below_upper_margin (t w : Z) : bool :=
  int_lt_float t (PrimFloat.mul (float_of_Z w) upper_factor).

(** Line 200, the coverage test against a user-given window: the lower
    bound is scaled and compared first, the upper bound only when the
    first comparison holds; a bound too large for a float raises when it
    is scaled. *)
Definition covers (t_start0 t_stop_last w0 w1 : Z) : result bool :=
  lo <- int_times_float w0 lower_factor ;;
  if int_gt_float t_start0 lo then
    hi <- int_times_float w1 upper_factor ;;
    Ok (int_lt_float t_stop_last hi)
  else Ok false.

(** *** Tracer inference (lines 173-192) *)

(** The double loop over [tracer_names]: every synonym found in the
    lower-cased DICOM tracer string overwrites [tracer]. *)
Definition match_tracer (tracer_dcm : string) (tracer : option string) : option string :=
  fold_left
    (fun acc tn =>
       fold_left
         (fun acc' n => if contains n tracer_dcm then Some (fst tn) else acc')
         (snd tn) acc)
    tracer_names tracer.

(** The loop over [suvr_twindow] for a static acquisition. *)
Definition static_candidates (acq_dur t_start0 : Z) (tracer_ : list string) : list string :=
  fold_left
    (fun acc tw =>
       let '(t, (w0, _, dur)) := tw in
       if above_lower_margin acq_dur dur
          && below_upper_margin acq_dur dur
          && above_lower_margin t_start0 w0
       then acc ++ [t] else acc)
    suvr_twindow tracer_.

(** *** Nearest-match frame selection *)

(** [min(ts, key=lambda x: abs(x-target))] followed by [ts.index(...)]. *)
Definition nearest (ts : list Z) (target : Z) : result (Z * nat) :=
  t <- min_key (fun x => Z.abs (x - target)) ts ;;
  i <- index t ts ;;
  Ok (t, i).

(** [[s for i,s in enumerate(srs_t) if i in range(frm_0, frm_1+1)]] *)
Fixpoint frames_in_range (srs_t : list frame) (i frm_0 frm_1 : nat) : list string :=
  match srs_t with
  | [] => []
  | f :: l =>
      if (Nat.leb frm_0 i && Nat.leb i frm_1)%bool
      then series_id f :: frames_in_range l (S i) frm_0 frm_1
      else frames_in_range l (S i) frm_0 frm_1
  end.

(** *** Acquisition descriptors *)

Inductive acq_tag : Type := Kind (k : acq_kind) | Suvr.

(** One entry of [msrs_class]; [timings] is absent from the fallback
    entry of a static acquisition. *)
Record descriptor : Type := {
  acq : list acq_tag;
  time : Z * Z;
  timings : option (list (Z * Z));
  idxs : nat * nat;
  frms : list string
}.

(** The variables of [explore_input] that live across the iterations of
    its loop over series groups.  [tracer_ = None] is the unbound name. *)
Record loop_state : Type := {
  tracer : option string;
  tracer_ : option (list string);
  msrs_class : list descriptor;
  warnings : list string
}.

Definition coverage_warning : string :=
  "The acquisition does not cover the requested time frame!".

(** [suvr_twindow[tracer_[0]][:2]] *)
Definition default_window (tracer_ : option (list string)) : result (Z * Z) :=
  match tracer_ with
  | None => Raise (UnboundLocalError "tracer_")
  | Some [] => Raise (IndexError "list index out of range")
  | Some (t :: _) =>
      match find (fun tw => String.eqb (fst tw) t) suvr_twindow with
      | Some (_, (w0, w1, _)) => Ok (w0, w1)
      | None => Raise (KeyError t)
      end
  end.

(** Selection shared by the three kinds: nearest start, nearest stop,
    and the descriptor built from them. *)
Definition select (tags : list acq_tag) (srs_t : list frame)
           (t_frms : list (Z * Z)) (w0 w1 : Z) : result descriptor :=
  s <- nearest (map fst t_frms) w0 ;;
  e <- nearest (map snd t_frms) w1 ;;
  Ok {| acq := tags;
        time := (fst s, fst e);
        timings := Some t_frms;
        idxs := (snd s, snd e);
        frms := frames_in_range srs_t 0 (snd s) (snd e) |}.

Definition push (st : loop_state) (d : descriptor) : loop_state :=
  {| tracer := tracer st; tracer_ := tracer_ st;
     msrs_class := msrs_class st ++ [d]; warnings := warnings st |}.

(** The body of the loop [for m in msrs], lines 131-265, on the
    time-sorted series [srs_t]. *)
Definition explore_series (suvr_win_def : option (Z * Z))
           (st : loop_state) (srs_t : list frame) : result loop_state :=
  let t_frms := frame_timings srs_t in
  match srs_t, t_frms with
  | f0 :: _, tf0 :: _ =>
      let t_start0 := fst tf0 in
      let t_stop_last := snd (last t_frms tf0) in
      let acq_dur := t_stop_last - t_start0 in
      let acq_type := classify t_start0 t_stop_last in
      (* tracer classification, only when no tracer is known *)
      let st :=
        match tracer st with
        | Some _ => st
        | None =>
            let tr := match tracer_tag f0 with
                      | Some s => match_tracer (lower s) None
                      | None => None
                      end in
            let cands := match tr with Some t => [t] | None => [] end in
            let cands := match acq_type with
                         | Some static => static_candidates acq_dur t_start0 cands
                         | _ => cands
                         end in
            {| tracer := tr; tracer_ := Some cands;
               msrs_class := msrs_class st; warnings := warnings st |}
        end in
      match acq_type with
      | Some static =>
          covered <- match suvr_win_def with
                     | None => Raise (TypeError "'NoneType' object is not subscriptable")
                     | Some (w0, w1) => covers t_start0 t_stop_last w0 w1
                     end ;;
          if (covered : bool) then
            suvr_win <- match suvr_win_def with
                        | None => default_window (tracer_ st)
                        | Some w => Ok w
                        end ;;
            d <- select [Kind static; Suvr] srs_t t_frms (fst suvr_win) (snd suvr_win) ;;
            Ok (push st d)
          else
            let d := {| acq := [Kind static];
                        time := (t_start0, t_stop_last);
                        timings := None;
                        idxs := (0%nat, (List.length t_frms - 1)%nat);
                        frms := map series_id srs_t |} in
            Ok {| tracer := tracer st; tracer_ := tracer_ st;
                  msrs_class := msrs_class st ++ [d];
                  warnings := warnings st ++ [coverage_warning] |}
      | Some breakdyn =>
          d <- select [Kind breakdyn] srs_t t_frms 0 break_time ;;
          Ok (push st d)
      | Some fulldyn =>
          d <- select [Kind fulldyn] srs_t t_frms 0 fulldyn_time ;;
          Ok (push st d)
      | None => Ok st
      end
  | _, _ => Raise (IndexError "list index out of range")
  end.

(** [explore_input] after the DICOM sorter has produced [msrs]: sort each
    group by acquisition time and run the loop body, stopping at the
    first exception. *)
Fixpoint explore_loop (suvr_win_def : option (Z * Z))
         (st : loop_state) (msrs : list (list frame)) : result loop_state :=
  match msrs with
  | [] => Ok st
  | m :: rest =>
      st' <- explore_series suvr_win_def st (sort_by_tacq m) ;;
      explore_loop suvr_win_def st' rest
  end.

Definition explore_input (is_dir : bool) (msrs : list (list frame))
           (tracer : option string) (suvr_win_def : option (Z * Z))
  : result loop_state :=
  if is_dir then
    explore_loop suvr_win_def
      {| tracer := tracer; tracer_ := None; msrs_class := []; warnings := [] |}
      msrs
  else Raise (ValueError "Incorrect input - not a folder!").


(** *** Frame alignment: the output folder and the collaborators *)

Inductive entry_kind : Type := File | Dir.

(** A call made to an external collaborator. *)
Inductive call : Type :=
| Dcm2niix (dicom_dir : string)
| CoregSpm (ref flo : string)
| ResampleSpm (ref flo : string)
| GetNii (fnii : string)
| Array2Nii (fnii : string).

(** The folder [niidir = align_out/'NIfTI_SUVr'] that the call's
    [outpath] and series data designate (whether it exists and what it
    directly contains, by name) and the collaborator calls made so far,
    oldest first. *)
Record world : Type := {
  niidir_exists : bool;
  entries : list (string * entry_kind);
  calls : list call
}.

(** One value of [suvr_tdata]: the folder of the DICOM files
    ([files[0].parent]), the series description and the acquisition time
    string. *)
Record series_data : Type := {
  dicom_dir : string;
  series : string;
  series_tacq : string
}.

(** What the collaborators answer.  [dcm2niix_files] names the files a
    conversion writes into [niidir]; [coreg_spm] gives the affine file and
    the motion magnitude [rot_ss + trn_ss] (a float64) of one directed
    registration, and [coreg_spm_files] names the files that registration
    leaves in its [outpath], which is [niidir]; [resample_spm] gives the
    resampled file, written to the sub-folder [SPM-aligned]. *)
Record collaborators : Type := {
  rem_chars : string -> string;
  dcm2niix_files : string -> list string;
  coreg_spm : string -> string -> string * float;
  coreg_spm_files : string -> string -> list string;
  resample_spm : string -> string -> option string -> string
}.

(** [align_suvr] runs in the monad of worlds and exceptions. *)
Definition M (A : Type) : Type := Py.M world A.

Definition record_call (c : call) : M unit :=
  fun w => ({| niidir_exists := niidir_exists w; entries := entries w;
               calls := calls w ++ [c] |}, Ok tt).

Definition has_entry (name : string) (w : world) : bool :=
  existsb (fun e => String.eqb (fst e) name) (entries w).

Definition add_entry (name : string) (k : entry_kind) : M unit :=
  fun w => ({| niidir_exists := niidir_exists w;
               entries := if has_entry name w then entries w
                          else entries w ++ [(name, k)];
               calls := calls w |}, Ok tt).

(** [nimpa.create_dir(niidir)] *)
Definition create_niidir : M unit :=
  fun w => ({| niidir_exists := true; entries := entries w; calls := calls w |}, Ok tt).

(** [faligned.is_file()] *)
Definition is_file (name : string) : M bool :=
  fun w => (w, Ok (niidir_exists w
                   && existsb (fun e => match snd e with
                                        | File => String.eqb (fst e) name
                                        | Dir => false
                                        end) (entries w))).

(** Lines 317-322: every file and folder in [niidir] is removed. *)
Definition purge : M unit :=
  fun w => ({| niidir_exists := niidir_exists w; entries := []; calls := calls w |}, Ok tt).

(** [niidir.glob('{}*.nii*'.format(tacq))] *)
Definition glob_match (tacq name : string) : bool :=
  String.prefix tacq name
  && contains ".nii" (String.substring (String.length tacq) (String.length name) name).

Definition glob_nii (tacq : string) : M (list string) :=
  fun w => (w, Ok (map fst (filter (fun e => glob_match tacq (fst e)) (entries w)))).

(** [suvr_tdata[k]] *)
Definition lookup_series (suvr_tdata : list (string * series_data)) (k : string)
  : result series_data :=
  match find (fun kv => String.eqb (fst kv) k) suvr_tdata with
  | Some kv => Ok (snd kv)
  | None => Raise (KeyError k)
  end.

(** [suvr_tdata[next(iter(suvr_tdata))]] *)
Definition first_series (suvr_tdata : list (string * series_data)) : result series_data :=
  match suvr_tdata with
  | [] => Raise StopIteration
  | kv :: _ => Ok (snd kv)
  end.

Fixpoint add_entries (names : list string) : M unit :=
  match names with
  | [] => ret tt
  | n :: rest => _ <~ add_entry n File ;; add_entries rest
  end.

(** Lines 329-343: convert each frame and pick up its NIfTI file. *)
Fixpoint convert_frames (C : collaborators) (suvr_tdata : list (string * series_data))
         (frms : list string) : M (list string) :=
  match frms with
  | [] => ret []
  | k :: rest =>
      d <~ lift (lookup_series suvr_tdata k) ;;
      _ <~ record_call (Dcm2niix (dicom_dir d)) ;;
      _ <~ add_entries (dcm2niix_files C (dicom_dir d)) ;;
      fnii <~ glob_nii (series_tacq d) ;;
      match fnii with
      | [f] => (fs <~ convert_frames C suvr_tdata rest ;; ret (f :: fs))
      | _ => raise (ValueError "Unexpected number of converted NIfTI files")
      end
  end.

(** [itertools.combinations(l, 2)] *)
Fixpoint combinations2 {A : Type} (l : list A) : list (A * A) :=
  match l with
  | [] => []
  | x :: l' => map (pair x) l' ++ combinations2 l'
  end.

(** [frms.index(k)] on series names. *)
Fixpoint position_from (k : string) (l : list string) (i : nat) : result nat :=
  match l with
  | [] => Raise (ValueError "x is not in list")
  | y :: l' => if String.eqb y k then Ok i else position_from k l' (S i)
  end.

(** The matrices [R] (initialised to zero) and [S] (initialised to
    [None]), as the list of the cells written, newest first. *)
Definition cells (A : Type) : Type := list (nat * nat * A).

Definition cell {A : Type} (m : cells A) (i j : nat) : option A :=
  match find (fun c => (Nat.eqb (fst (fst c)) i && Nat.eqb (snd (fst c)) j)%bool) m with
  | Some c => Some (snd c)
  | None => None
  end.

Definition R_at (R : cells float) (i j : nat) : float :=
  match cell R i j with Some x => x | None => 0%float end.

(** Lines 357-404: both directed registrations of every pair.  Each one
    is given [outpath = fnii0.parent], the folder [niidir], and leaves its
    files there; [R] is a [float32] array, so the magnitude is rounded
    when it is stored. *)
Fixpoint register_pairs (C : collaborators) (frms nii_frms : list string)
         (pairs : list (string * string)) (R : cells float) (Sa : cells string)
  : M (cells float * cells string) :=
  match pairs with
  | [] => ret (R, Sa)
  | c :: rest =>
      frm0 <~ lift (position_from (fst c) frms 0) ;;
      frm1 <~ lift (position_from (snd c) frms 0) ;;
      fnii0 <~ lift (getitem nii_frms (Z.of_nat frm0)) ;;
      fnii1 <~ lift (getitem nii_frms (Z.of_nat frm1)) ;;
      _ <~ record_call (CoregSpm fnii0 fnii1) ;;
      _ <~ add_entries (coreg_spm_files C fnii0 fnii1) ;;
      let r01 := coreg_spm C fnii0 fnii1 in
      _ <~ record_call (CoregSpm fnii1 fnii0) ;;
      _ <~ add_entries (coreg_spm_files C fnii1 fnii0) ;;
      let r10 := coreg_spm C fnii1 fnii0 in
      register_pairs C frms nii_frms rest
        ((frm1, frm0, Np.to_float32 (snd r10))
           :: (frm0, frm1, Np.to_float32 (snd r01)) :: R)
        ((frm1, frm0, fst r10) :: (frm0, frm1, fst r01) :: Sa)
  end.

(** [np.sum(R,axis=0)[k]]: the rows are added to the running row one
    after the other. *)
Definition column_sum (n : nat) (R : cells float) (k : nat) : float :=
  fold_left Np.add32 (map (fun i => R_at R i k) (seq 0 n)) 0%float.

(** [np.sum(R,axis=1)[k]]: a sum along the contiguous axis. *)
Definition row_sum (n : nat) (R : cells float) (k : nat) : float :=
  Np.sum32 (map (fun j => R_at R k j) (seq 0 n)).

(** [np.sum(R,axis=0) + np.sum(R,axis=1)], in [float32]. *)
Definition motion_totals (n : nat) (R : cells float) : list float :=
  map (fun k => Np.add32 (column_sum n R k) (row_sum n R k)) (seq 0 n).

(** [np.argmin]: the scan keeps the first position of the least value
    and stops at the first NaN, which counts as the least. *)
Fixpoint argmin_from (best : float) (ibest i : nat) (l : list float) : nat :=
  match l with
  | [] => ibest
  | x :: l' =>
      if PrimFloat.leb best x then argmin_from best ibest (S i) l'
      else if PrimFloat.is_nan x then i
      else argmin_from x i (S i) l'
  end.

Definition argmin (l : list float) : result nat :=
  match l with
  | [] => Raise (ValueError "attempt to get argmin of an empty sequence")
  | x :: l' => Ok (if PrimFloat.is_nan x then 0%nat else argmin_from x 0 1 l')
  end.

(** Lines 424-440: resample every frame but the reference.  The output
    goes to [rsmpl_opth = niidir/'SPM-aligned'], a folder the purge has
    removed, which is there again once a resampled file has been written. *)
Fixpoint resample_frames (C : collaborators) (nii_frms : list string) (ref : string)
         (rfrm : nat) (Sa : cells string) (ifrms : list nat) : M unit :=
  match ifrms with
  | [] => ret tt
  | ifrm :: rest =>
      if Nat.eqb ifrm rfrm then resample_frames C nii_frms ref rfrm Sa rest
      else
        flo <~ lift (getitem nii_frms (Z.of_nat ifrm)) ;;
        _ <~ record_call (ResampleSpm ref flo) ;;
        _ <~ add_entry "SPM-aligned" Dir ;;
        _ <~ record_call (GetNii (resample_spm C ref flo (cell Sa rfrm ifrm))) ;;
        resample_frames C nii_frms ref rfrm Sa rest
  end.

(** The dictionary [align_suvr] returns. *)
Record aligned : Type := {
  fpet : string;
  Metric : cells float;
  faff : cells string
}.

(** Lines 309-311: the name of the aligned output inside [niidir]. *)
Definition aligned_name (C : collaborators) (d0 : series_data) : string :=
  ("SUVr_aligned_" ++ rem_chars C (series d0) ++ ".nii.gz")%string.

(** [align_suvr], lines 295-456.  [R] and [S] are bound only inside the
    recomputation branch; [None] below is the unbound pair
    (the affine table [S] is written [Sa]). *)
Definition align_suvr (C : collaborators) (suvr_tdata : list (string * series_data))
           (frms : list string) (outpath : option string) (reg_force : bool)
  : M aligned :=
  _ <~ match outpath with
       | None => (_ <~ lift (first_series suvr_tdata) ;; ret tt)
       | Some _ => ret tt
       end ;;
  _ <~ create_niidir ;;
  _ <~ add_entry "SPM-aligned" Dir ;;
  d0 <~ lift (first_series suvr_tdata) ;;
  let faligned := aligned_name C d0 in
  present <~ is_file faligned ;;
  RS <~ (if reg_force || negb present then
           _ <~ purge ;;
           nii_frms <~ convert_frames C suvr_tdata frms ;;
           RS <~ register_pairs C frms nii_frms (combinations2 frms) [] [] ;;
           rfrm <~ lift (argmin (motion_totals (List.length nii_frms) (fst RS))) ;;
           ref <~ lift (getitem nii_frms (Z.of_nat rfrm)) ;;
           _ <~ record_call (GetNii ref) ;;
           _ <~ resample_frames C nii_frms ref rfrm (snd RS)
                                (seq 0 (List.length nii_frms)) ;;
           _ <~ record_call (Array2Nii faligned) ;;
           _ <~ add_entry faligned File ;;
           ret (Some RS)
         else ret None) ;;
  match RS with
  | Some (R, Sa) => ret {| fpet := faligned; Metric := R; faff := Sa |}
  | None => raise (UnboundLocalError "R")
  end.

End Preproc.

(** ** suvr_tools.py *)

Module SuvrTools.

Definition nifti_ext : list string := [".nii"; ".nii.gz"].

(** [s.endswith(suffix)] *)
Definition endswith (suffix s : string) : bool :=
  let n := String.length s in
  let m := String.length suffix in
  (Nat.leb m n && String.eqb (String.substring (n - m) m s) suffix)%bool.

(** [s.split('.')[0]] *)
Fixpoint before_dot (s : string) : string :=
  match s with
  | EmptyString => EmptyString
  | String c s' => if Ascii.eqb c "." then EmptyString else String c (before_dot s')
  end.

(** *** preproc_suvr *)

(** Which branch of lines 73-98 the path takes: a NIfTI file, a folder
    holding DICOM files, or neither. *)
Inductive pet_kind : Type := NiftiFile | DicomDir | OtherPath.

(** What [preproc_suvr] finds on disk and in the image it reads. *)
Record pet_input : Type := {
  path_exists : bool;
  kind : pet_kind;
  pet_path : string;
  pet_name : string;
  found_before : list string;
  found_after : list string;
  found_spaces : list string;
  nfrm : Z;
  im : list (list float);
  fstat_is_file : bool;
  com_fim : string;
  com_abs : list float
}.

(** The steps that touch image data or call a collaborator. *)
Inductive step : Type :=
| RunDcm2niix
| ReadImage (fnii : string)
| SumFrames (frames : list Z)
| SqueezeImage
| WriteStatic (fstat : string) (imstat : list float)
| CentreOfMass (fstat : string).

Definition record_step (s : step) : M (list step) unit :=
  fun tr => (tr ++ [s], Ok tt).

(** The dictionary [preproc_suvr] returns. *)
Record suvr_files : Type := {
  fpet_nii : string;
  fsuvr : string;
  fcom : string;
  com : list float
}.

(** [d[k]] on that dictionary, for the keys holding a path. *)
Definition suvr_files_path (d : suvr_files) (k : string) : result string :=
  if String.eqb k "fpet_nii" then Ok (fpet_nii d)
  else if String.eqb k "fsuvr" then Ok (fsuvr d)
  else if String.eqb k "fcom" then Ok (fcom d)
  else Raise (KeyError k).

(** [np.arange(nfrm)] *)
Definition arange (n : Z) : list Z := map Z.of_nat (seq 0 (Z.to_nat n)).

(** [max(frames)] on a non-empty list. *)
Definition list_max (x : Z) (l : list Z) : Z := fold_left Z.max l x.

(** The sum of two frames, voxel by voxel.  The image that
    [nimpa.getnii] reads is a [float32] array. *)
Fixpoint vol_add (a b : list float) : list float :=
  match a, b with
  | x :: a', y :: b' => Np.add32 x y :: vol_add a' b'
  | _, _ => []
  end.

(** [im[frames, ...]]: integer-array indexing along the first axis. *)
Fixpoint take_frames (im : list (list float)) (frames : list Z)
  : result (list (list float)) :=
  match frames with
  | [] => Ok []
  | i :: rest =>
      v <- getitem im i ;;
      vs <- take_frames im rest ;;
      Ok (v :: vs)
  end.

(** [np.sum(..., axis=0)] of a non-empty selection, in [float32]: the
    frames are added to the running frame one after the other.  Only in an
    image of a single voxel do the frames lie along the contiguous axis,
    where eight values or more are summed pairwise. *)
Definition sum_axis0 (vs : list (list float)) : list float :=
  match vs with
  | [] => []
  | v :: rest =>
      if (Nat.eqb (List.length v) 1 && Nat.leb 8 (List.length vs))%bool
      then [Np.pairwise_sum Np.add32 (List.length vs) (List.concat vs)]
      else fold_left vol_add rest v
  end.

(** [np.squeeze(imdct['im'])] *)
Definition squeeze (im : list (list float)) : list float :=
  match im with
  | [v] => v
  | _ => List.concat im
  end.

(** Lines 51-110: the path check, the NIfTI file to read, the image read
    and the frame list checked against the frame count. *)
Definition resolve_image (p : pet_input) (frames : option (list Z))
  : M (list step) (string * list Z) :=
  if negb (path_exists p) then raise (ValueError "The provided path does not exist")
  else
    (* lines 72-98; [None] is the name [fpet_nii] left unbound *)
    found <~ match kind p with
             | NiftiFile => ret (Some (pet_path p))
             | DicomDir =>
                 l <~ match found_before p with
                      | [] => (_ <~ record_step RunDcm2niix ;; ret (found_after p))
                      | l => ret l
                      end ;;
                 let l := match l with [] => found_spaces p | _ => l end in
                 match l with
                 | [] => raise (ValueError "No SUVr NIfTI files found")
                 | [f] => ret (Some f)
                 | _ => raise (ValueError "Too many SUVr NIfTI files found")
                 end
             | OtherPath => ret None
             end ;;
    fpet <~ match found with
            | Some f => ret f
            | None => raise (UnboundLocalError "fpet_nii")
            end ;;
    _ <~ record_step (ReadImage fpet) ;;
    (* lines 106-110 *)
    frames <~ match frames with
              | Some (f :: fs) =>
                  if nfrm p <? list_max f fs
                  then raise (ValueError "The selected frames do not exist")
                  else ret (f :: fs)
              | _ => ret (arange (nfrm p))
              end ;;
    ret (fpet, frames).

(** Lines 119-135: the static image and the centre-of-mass correction;
    [None] is the name [fsuvr_com] left unbound. *)
Definition build_static (p : pet_input) (frames : list Z) (fstat : string)
           (com_correction force : bool) : M (list step) (option (string * list float)) :=
  if negb (fstat_is_file p) || force then
    imstat <~ (if 1 <? nfrm p then
                 sel <~ lift (take_frames (im p) frames) ;;
                 _ <~ record_step (SumFrames frames) ;;
                 ret (sum_axis0 sel)
               else
                 _ <~ record_step SqueezeImage ;;
                 ret (squeeze (im p))) ;;
    _ <~ record_step (WriteStatic fstat imstat) ;;
    if com_correction then
      _ <~ record_step (CentreOfMass fstat) ;;
      ret (Some (com_fim p, com_abs p))
    else ret None
  else ret None.

(** The name of the static file, lines 66-69 and 116. *)
Definition static_path (rem_chars : string -> string) (p : pet_input)
           (outpath : string) (fname : option string) : string :=
  let fname :=
    match fname with
    | None => (rem_chars (before_dot (pet_name p)) ++ "_static.nii.gz")%string
    | Some f => if endswith ".nii.gz" f then f else (f ++ ".nii.gz")%string
    end in
  (outpath ++ "/" ++ fname)%string.

Definition preproc_suvr (rem_chars : string -> string) (p : pet_input)
           (frames : option (list Z)) (outpath : string) (fname : option string)
           (com_correction force : bool) : M (list step) suvr_files :=
  ff <~ resolve_image p frames ;;
  let fstat := static_path rem_chars p outpath fname in
  fsuvr_com <~ build_static p (snd ff) fstat com_correction force ;;
  match fsuvr_com with
  | Some c => ret {| fpet_nii := fst ff; fsuvr := fstat; fcom := fst c; com := snd c |}
  | None => raise (UnboundLocalError "fsuvr_com")
  end.

(** *** extract_vois *)

(** The PET image, by number of dimensions. *)
Inductive ndarray : Type :=
| Array3 (vox : list float)
| Array4 (frames : list (list float))
| ArrayN (ndim : nat) (vox : list float).

(** The [atlas_mask] argument: absent, an array, or neither a file path
    nor an array. *)
Inductive atlas_mask_arg : Type :=
| NoMask
| MaskArray (amsk : list float)
| MaskOther.

(** A scalar or a per-frame vector, as [emsum] is. *)
Inductive np_value : Type :=
| Scalar (x : float)
| PerFrame (xs : list float).

Record voi_result : Type := {
  vox_no : Z;
  sum : np_value;
  avg : np_value;
  fvoi : option string;
  roimsk : option (list bool)
}.

(** [lbls[np.isnan(lbls)] = 0]; a label that is NaN is [None]. *)
Definition scrub_nan (lbls : list (option Z)) : list Z :=
  map (fun l => match l with Some z => z | None => 0 end) lbls.

(** [rmsk += np.equal(lbls, ri)] on a boolean array. *)
Definition mask_or_equal (rmsk : list bool) (lbls : list Z) (ri : Z) : list bool :=
  map (fun bl => fst bl || (snd bl =? ri)) (combine rmsk lbls).

(** Lines 238-246: the mask of one VOI. *)
Definition roi_mask (lbls : list Z) (labels : list Z) : list bool :=
  fold_left (fun rmsk ri => mask_or_equal rmsk lbls ri) labels
            (map (fun _ => false) lbls).

(** [rmsk * amsk]: the product array, or the broadcasting error.  The
    arrays are lists of voxels, so two shapes are told apart by their
    sizes: equal sizes multiply voxel by voxel, and an operand of one voxel
    is broadcast over the other. *)
Definition mask_times (rmsk : list bool) (amsk : option (list float))
  : result (list float) :=
  let b2f (b : bool) := if b then 1%float else 0%float in
  match amsk with
  | None => Ok (map b2f rmsk)
  | Some a =>
      if Nat.eqb (List.length a) (List.length rmsk)
      then Ok (map (fun ba => PrimFloat.mul (b2f (fst ba)) (snd ba)) (combine rmsk a))
      else match a, rmsk with
           | [x], _ => Ok (map (fun b => PrimFloat.mul (b2f b) x) rmsk)
           | _, [b] => Ok (map (fun x => PrimFloat.mul (b2f b) x) a)
           | _, _ => Raise (ValueError "operands could not be broadcast together")
           end
  end.

(** [np.sum(rmsk)] *)
Definition count_true (rmsk : list bool) : Z :=
  Z.of_nat (List.length (filter (fun b => b) rmsk)).

(** [np.sum(im[fi,rmsk].astype(np.float64))]: the selected voxels make a
    contiguous [float64] array, summed pairwise. *)
Definition masked_sum (rmsk : list bool) (vox : list float) : result float :=
  if Nat.eqb (List.length vox) (List.length rmsk)
  then Ok (Np.sum64 (map snd (filter (fun bv => fst bv) (combine rmsk vox))))
  else Raise (IndexError "boolean index did not match indexed array").

Fixpoint masked_sums (rmsk : list bool) (frames : list (list float))
  : result (list float) :=
  match frames with
  | [] => Ok []
  | v :: rest =>
      x <- masked_sum rmsk v ;;
      xs <- masked_sums rmsk rest ;;
      Ok (x :: xs)
  end.

(** [emsum / vxsum]: NumPy's true division by the voxel count. *)
Definition div_count (emsum : np_value) (vxsum : Z) : np_value :=
  match emsum with
  | Scalar x => Scalar (PrimFloat.div x (float_of_Z vxsum))
  | PerFrame xs => PerFrame (map (fun x => PrimFloat.div x (float_of_Z vxsum)) xs)
  end.

(** The body of the loop over [voi_dct], lines 235-275, with no output
    folder given ([fvoi = None]). *)
Definition extract_voi (im : ndarray) (lbls : list Z) (amsk : option (list float))
           (output_masks : bool) (labels : list Z) : result voi_result :=
  let rmsk := roi_mask lbls labels in
  _ <- mask_times rmsk amsk ;;
  let vxsum := 0 + count_true rmsk in
  emsum <- match im with
           | Array4 frames =>
               xs <- masked_sums rmsk frames ;;
               Ok (PerFrame xs)
           | _ => Raise (AttributeError "ndims")
           end ;;
  Ok {| vox_no := vxsum; sum := emsum; avg := div_count emsum vxsum;
        fvoi := None;
        roimsk := if output_masks then Some rmsk else None |}.

Fixpoint extract_loop (im : ndarray) (lbls : list Z) (amsk : option (list float))
         (output_masks : bool) (voi_dct : list (string * list Z))
  : result (list (string * voi_result)) :=
  match voi_dct with
  | [] => Ok []
  | (voi, labels) :: rest =>
      r <- extract_voi im lbls amsk output_masks labels ;;
      out <- extract_loop im lbls amsk output_masks rest ;;
      Ok ((voi, r) :: out)
  end.

Definition extract_vois (impet : ndarray) (atlas : list (option Z))
           (voi_dct : list (string * list Z)) (atlas_mask : atlas_mask_arg)
           (output_masks : bool) : result (list (string * voi_result)) :=
  let lbls := scrub_nan atlas in
  amsk <- match atlas_mask with
          | NoMask => Ok None
          | MaskArray a => Ok (Some a)
          | MaskOther => Raise (ValueError "Incorrectly provided atlas mask")
          end ;;
  extract_loop impet lbls amsk output_masks voi_dct.

(** *** The ratio of voi_process (lines 424 and 427) *)

(** [a / b] between two averages. *)
Definition np_div (a b : np_value) : result np_value :=
  match a, b with
  | Scalar x, Scalar y => Ok (Scalar (PrimFloat.div x y))
  | PerFrame xs, Scalar y => Ok (PerFrame (map (fun x => PrimFloat.div x y) xs))
  | Scalar x, PerFrame ys => Ok (PerFrame (map (fun y => PrimFloat.div x y) ys))
  | PerFrame xs, PerFrame ys =>
      if Nat.eqb (List.length xs) (List.length ys)
      then Ok (PerFrame (map (fun xy => PrimFloat.div (fst xy) (snd xy)) (combine xs ys)))
      else Raise (ValueError "operands could not be broadcast together")
  end.

(** [voival[k]['avg']] *)
Definition voi_avg (voival : list (string * voi_result)) (k : string) : result np_value :=
  match find (fun kv => String.eqb (fst kv) k) voival with
  | Some kv => Ok (avg (snd kv))
  | None => Raise (KeyError k)
  end.

(** *** axrange, the helper of the QC plot (lines 455-463) *)

(** [next(x for x, val in enumerate(prf) if val > thrshld)], counting
    positions from [i]. *)
Fixpoint first_above (prf : list Z) (thrshld : Z) (i : nat) : result nat :=
  match prf with
  | [] => Raise StopIteration
  | val :: rest => if thrshld <? val then Ok i else first_above rest thrshld (S i)
  end.

(** [axrange(prf, thrshld, parts)] for a profile of integer counts and a
    positive number of parts.  [int((ze-zs) / parts)] truncates the true
    quotient; it is the integer quotient for profiles shorter than 2^52. *)
Definition axrange (prf : list Z) (thrshld : Z) (parts : positive) : result (list Z) :=
  zs <- first_above prf thrshld 0 ;;
  back <- first_above (rev prf) thrshld 0 ;;
  let ze := Z.of_nat (List.length prf) - Z.of_nat back in
  let p := Z.quot (ze - Z.of_nat zs) (Z.pos parts) in
  Ok (map (fun k => Z.of_nat zs + Z.of_nat k * p)
          (seq 1 (Pos.to_nat parts - 1))).

(** *** voi_process up to the trimming step (lines 335-365)

    [rest] stands for everything after the first use of
    [suvr_preproc['fstat']]: bias-field correction, trimming,
    registration, [extract_vois] and the loop over the reference VOIs
    with the ratio above. *)
Definition voi_process {A : Type} (rem_chars : string -> string) (p : pet_input)
           (paths_ok : bool) (voi_dct : list (string * list Z))
           (ref_voi : option (list string)) (frames : option (list Z))
           (outpath : string) (fname : option string)
           (rest : suvr_files -> string -> M (list step) A) : M (list step) A :=
  if negb paths_ok
  then raise (ValueError "One of the three paths to PET, T1w or label image is incorrect.")
  else
    let listed (r : string) := existsb (fun kv => String.eqb (fst kv) r) voi_dct in
    _ <~ match ref_voi with
    | Some refs =>
        if negb (forallb listed refs)
        then raise (ValueError
               "Not all VOIs listed as reference are in the VOI definition dictionary.")
        else ret tt
    | None => ret tt
    end ;;
    suvr_preproc <~ preproc_suvr rem_chars p frames
                      (outpath ++ "/" ++ before_dot (pet_name p) ++ "_suvr")%string
                      fname true true ;;
    fstat <~ lift (suvr_files_path suvr_preproc "fstat") ;;
    rest suvr_preproc fstat.

End SuvrTools.

(** ** Vocabulary of the properties *)

Module Props.

Import Preproc SuvrTools.

(** [chain R l]: every element of [l] is related to its successor. *)
Fixpoint chain (R : Z -> Z -> bool) (l : list Z) : bool :=
  match l with
  | [] => true
  | x :: l' =>
      match l' with
      | [] => true
      | y :: _ => R x y && chain R l'
      end
  end.

Definition increasing (l : list Z) : bool := chain Z.ltb l.
Definition nondecreasing (l : list Z) : bool := chain Z.leb l.

(** [t], at position [i] of [ts], is the nearest match to [target]: no
    element is nearer, and every element before position [i] is strictly
    farther. *)
Definition first_nearest (ts : list Z) (target t : Z) (i : nat) : Prop :=
  nth_error ts i = Some t
  /\ (forall j x, nth_error ts j = Some x -> Z.abs (t - target) <= Z.abs (x - target))
  /\ (forall j x, (j < i)%nat -> nth_error ts j = Some x ->
                  Z.abs (t - target) < Z.abs (x - target)).

(** The targets of the selection for a dynamic acquisition: the start of
    the scan and the break time or the full dynamic time. *)
Definition dynamic_targets (k : acq_kind) : Z * Z :=
  match k with
  | fulldyn => (0, fulldyn_time)
  | _ => (0, break_time)
  end.

(** The integer is within the range of the floats: its conversion does
    not raise. *)
Definition converts (z : Z) : Prop := float_of_int z = Ok (float_of_Z z).

(** The two [timedelta] values whose [.seconds] make a frame's timing. *)
Definition start_offset (f : frame) : Z := acq_datetime f - radio_start_time f.
Definition stop_offset (f : frame) : Z := acq_datetime f + frm_dur f - radio_start_time f.

(** A [timedelta] of zero days: between 0 and 24 hours. *)
Definition within_day (us : Z) : Prop := 0 <= us < 86400 * 1000000.

(** The end of a frame's acquisition. *)
Definition end_datetime (f : frame) : Z := acq_datetime f + frm_dur f.

(** The sampling mask in the words of the specification: the union over
    the VOI's labels of the voxels carrying the label, intersected with the
    external mask (a voxel is kept where the mask is not zero). *)
Definition spec_sampling_mask (lbls : list Z) (labels : list Z) (amsk : list float)
  : list bool :=
  map (fun la => existsb (Z.eqb (fst la)) labels && negb (PrimFloat.eqb (snd la) 0%float))
      (combine lbls amsk).

(** Not a finite number: NaN or an infinity. *)
Definition not_finite (x : float) : Prop :=
  match Prim2SF x with
  | S754_nan | S754_infinity _ => True
  | _ => False
  end.

(** A zero of either sign. *)
Definition is_zero (x : float) : Prop :=
  match Prim2SF x with
  | S754_zero _ => True
  | _ => False
  end.

(** Adjacent frames are in the order of their acquisition-time strings. *)
Fixpoint tacq_ordered (l : list frame) : bool :=
  match l with
  | [] => true
  | f :: l' =>
      match l' with
      | [] => true
      | g :: _ => negb (String.ltb (tacq g) (tacq f)) && tacq_ordered l'
      end
  end.

(** The output folder as [align_suvr] leaves it before it looks for the
    aligned file: it exists and holds the [SPM-aligned] sub-folder. *)
Definition prepared (w : world) : world :=
  fst (add_entry "SPM-aligned" Dir (fst (create_niidir w))).

(** Kinds of collaborator calls. *)
Definition is_conversion (c : call) : bool :=
  match c with Dcm2niix _ => true | _ => false end.

Definition is_registration (c : call) : bool :=
  match c with CoregSpm _ _ => true | _ => false end.

(** Every entry of the output folder is a regular file, the sub-folder
    of the resampled images apart. *)
Definition all_files (w : world) : Prop :=
  Forall (fun e : string * entry_kind => snd e = File \/ e = ("SPM-aligned", Dir))
         (entries w).

(** The output folder after the purge of a recomputation. *)
Definition purged (w : world) : world := fst (purge (prepared w)).

(** A voxel of the atlas belongs to a VOI when its label, with NaN read as
    0, is one of the VOI's labels. *)
Definition in_voi (labels : list Z) (a : option Z) : bool :=
  existsb (Z.eqb (match a with Some z => z | None => 0 end)) labels.

(** A result of [extract_vois] on an image of [n] frames: per-frame sums
    and averages, and a voxel count no larger than the atlas. *)
Definition per_frame_result (n size : nat) (r : voi_result) : Prop :=
  (exists xs, sum r = PerFrame xs /\ List.length xs = n)
  /\ (exists ys, avg r = PerFrame ys /\ List.length ys = n)
  /\ 0 <= vox_no r <= Z.of_nat size.

End Props.

(** ** Inputs used in the examples *)

Module Examples.

Import Preproc SuvrTools.

Definition second : Z := 1000000.

(** A single static frame spanning [3000 s, 3600 s] after injection. *)
Definition fbp_single_frame : frame :=
  {| series_id := "fbp_static"; tacq := "105000";
     acq_datetime := 3000 * second; frm_dur := 600 * second;
     radio_start_time := 0; tracer_tag := None |}.

(** A single frame starting exactly one second after injection. *)
Definition frame_at_one_second : frame :=
  {| series_id := "late_start"; tacq := "100001";
     acq_datetime := 1 * second; frm_dur := 600 * second;
     radio_start_time := 0; tracer_tag := None |}.

(** Two frames with increasing start times, the second one ending before
    the first. *)
Definition overlapping_frames : list frame :=
  [ {| series_id := "long"; tacq := "105000";
       acq_datetime := 3000 * second; frm_dur := 600 * second;
       radio_start_time := 0; tracer_tag := None |};
    {| series_id := "short"; tacq := "105140";
       acq_datetime := 3100 * second; frm_dur := 100 * second;
       radio_start_time := 0; tracer_tag := None |} ].

(** Two frames, the first acquired ten seconds before the injection. *)
Definition frames_around_injection : list frame :=
  [ {| series_id := "before"; tacq := "095950";
       acq_datetime := -10 * second; frm_dur := 5 * second;
       radio_start_time := 0; tracer_tag := None |};
    {| series_id := "after"; tacq := "100050";
       acq_datetime := 50 * second; frm_dur := 5 * second;
       radio_start_time := 0; tracer_tag := None |} ].

(** Four ten-minute frames from the injection on: a coffee-break scan. *)
Definition coffee_break_frames : list frame :=
  map (fun k => {| series_id := String (ascii_of_nat (48 + k)) EmptyString;
                   tacq := String (ascii_of_nat (48 + k)) EmptyString;
                   acq_datetime := Z.of_nat k * 600 * second;
                   frm_dur := 600 * second;
                   radio_start_time := 0; tracer_tag := None |})
      [0; 1; 2; 3]%nat.

(** Two consecutive 100-second frames from 3000 s on. *)
Definition narrow_frames : list frame :=
  [ {| series_id := "first"; tacq := "105000";
       acq_datetime := 3000 * second; frm_dur := 100 * second;
       radio_start_time := 0; tracer_tag := None |};
    {| series_id := "second"; tacq := "105140";
       acq_datetime := 3100 * second; frm_dur := 100 * second;
       radio_start_time := 0; tracer_tag := None |} ].

(** Four ten-minute frames from 6000 s after the injection on: a late
    static scan. *)
Definition late_static_frames : list frame :=
  map (fun k => {| series_id := String (ascii_of_nat (48 + k)) EmptyString;
                   tacq := String (ascii_of_nat (48 + k)) EmptyString;
                   acq_datetime := (6000 + Z.of_nat k * 600) * second;
                   frm_dur := 600 * second;
                   radio_start_time := 0; tracer_tag := None |})
      [0; 1; 2; 3]%nat.

(** A single frame from 5 s to 10 s after the injection. *)
Definition short_early_frame : frame :=
  {| series_id := "early"; tacq := "100005";
     acq_datetime := 5 * second; frm_dur := 5 * second;
     radio_start_time := 0; tracer_tag := None |}.

(** Collaborators that convert the folder [d] into [d_s.nii.gz] and a
    side-car file, and whose registrations leave the affine file in the
    output folder. *)
Definition plain_collaborators : collaborators :=
  {| rem_chars := fun s => s;
     dcm2niix_files := fun d => [(d ++ "_s.nii.gz")%string; (d ++ "_s.json")%string];
     coreg_spm := fun a b => (("aff_" ++ a ++ "_" ++ b)%string, 1%float);
     coreg_spm_files := fun a b => [("aff_" ++ a ++ "_" ++ b)%string];
     resample_spm := fun _ flo _ => ("r_" ++ flo)%string |}.

Definition one_frame_tdata : list (string * series_data) :=
  [ ("k1", {| dicom_dir := "100000"; series := "PET"; series_tacq := "100000" |}) ].

Definition three_frame_tdata : list (string * series_data) :=
  [ ("k1", {| dicom_dir := "100000"; series := "PET"; series_tacq := "100000" |});
    ("k2", {| dicom_dir := "101000"; series := "PET"; series_tacq := "101000" |});
    ("k3", {| dicom_dir := "102000"; series := "PET"; series_tacq := "102000" |}) ].

Definition empty_world : world :=
  {| niidir_exists := false; entries := []; calls := [] |}.

(** The output folder after a first alignment run. *)
Definition world_after_first_run : world :=
  fst (align_suvr plain_collaborators one_frame_tdata ["k1"] None false empty_world).

(** A three-frame NIfTI image of two voxels; the static file does not
    exist yet. *)
Definition three_frame_pet : pet_input :=
  {| path_exists := true; kind := NiftiFile;
     pet_path := "/data/pet.nii.gz"; pet_name := "pet.nii.gz";
     found_before := []; found_after := []; found_spaces := [];
     nfrm := 3; im := [[1; 2]; [3; 4]; [5; 6]]%float;
     fstat_is_file := false;
     com_fim := "/out/pet_static_com.nii.gz"; com_abs := [0; 0; 0]%float |}.

(** The same image once its static file has been written. *)
Definition three_frame_pet_cached : pet_input :=
  {| path_exists := true; kind := NiftiFile;
     pet_path := "/data/pet.nii.gz"; pet_name := "pet.nii.gz";
     found_before := []; found_after := []; found_spaces := [];
     nfrm := 3; im := [[1; 2]; [3; 4]; [5; 6]]%float;
     fstat_is_file := true;
     com_fim := "/out/pet_static_com.nii.gz"; com_abs := [0; 0; 0]%float |}.

(** A three-frame image whose first voxel exhausts the 24 bits of a
    [float32]. *)
Definition large_count_pet : pet_input :=
  {| path_exists := true; kind := NiftiFile;
     pet_path := "/data/pet.nii.gz"; pet_name := "pet.nii.gz";
     found_before := []; found_after := []; found_spaces := [];
     nfrm := 3; im := [[16777216; 2]; [1; 4]; [1; 6]]%float;
     fstat_is_file := false;
     com_fim := "/out/pet_static_com.nii.gz"; com_abs := [0; 0; 0]%float |}.

Definition keep_chars (s : string) : string := s.

End Examples.

(** * Steps of a computation *)

Lemma mbind_ok {St A B : Type} (c : Py.M St A) (k : A -> Py.M St B) (w w' : St) (a : A) :
  c w = (w', Ok a) -> mbind c k w = k a w'.
Proof. unfold mbind. intros ->. reflexivity. Qed.

Lemma mbind_raise {St A B : Type} (c : Py.M St A) (k : A -> Py.M St B) (w w' : St) (e : exn) :
  c w = (w', Raise e) -> mbind c k w = (w', Raise e).
Proof. unfold mbind. intros ->. reflexivity. Qed.

(** * Properties of the acquisition classifier *)

Section Classifier.

Import Preproc Props.

(** ** Nearest-match selection *)

Section MinKey.

Variable A : Type.
Variable key : A -> Z.

(** [min_from] returns an element of the list that splits it: strictly
    larger keys before it, no smaller key anywhere. *)
Lemma min_from_split (l : list A) : forall b,
  exists pre post,
    b :: l = pre ++ min_from key b l :: post
    /\ (forall x, In x pre -> key (min_from key b l) < key x)
    /\ (forall x, In x (b :: l) -> key (min_from key b l) <= key x).
Proof.
  induction l as [|x l IH]; intros b; simpl min_from.
  - exists [], []. repeat split; simpl; intros y Hy; try tauto.
    destruct Hy as [<-|[]]; lia.
  - destruct (Z.ltb_spec (key x) (key b)) as [Hlt|Hge].
    + destruct (IH x) as (pre & post & Heq & Hpre & Hall).
      exists (b :: pre), post. split; [simpl; f_equal; exact Heq|].
      assert (Hx : key (min_from key x l) <= key x) by (apply Hall; now left).
      split; intros y Hy; simpl in Hy.
      * destruct Hy as [<-|Hy]; [lia | now apply Hpre].
      * destruct Hy as [<-|Hy]; [lia | now apply Hall].
    + destruct (IH b) as (pre & post & Heq & Hpre & Hall).
      assert (Hb : key (min_from key b l) <= key b) by (apply Hall; now left).
      destruct pre as [|b' pre].
      * simpl in Heq. injection Heq as Hm Hl.
        exists [], (x :: l). split; [simpl; congruence|].
        split; intros y Hy; simpl in Hy; [tauto|].
        destruct Hy as [<-|[<-|Hy]]; try lia.
        apply Hall; now right.
      * simpl in Heq. injection Heq as Hb' Hl. subst b'.
        exists (b :: x :: pre), post. split; [simpl; do 2 f_equal; exact Hl|].
        assert (Hbm : key (min_from key b l) < key b) by (apply Hpre; now left).
        split; intros y Hy; simpl in Hy.
        -- destruct Hy as [<-|[<-|Hy]]; try lia. apply Hpre; now right.
        -- destruct Hy as [<-|[<-|Hy]]; try lia. apply Hall; now right.
Qed.

End MinKey.

(** [index] finds the position right after a prefix that avoids [x]. *)
Lemma index_from_split (x : Z) (pre post : list Z) : forall k,
  ~ In x pre ->
  index_from x (pre ++ x :: post) k = Ok (k + List.length pre)%nat.
Proof.
  induction pre as [|y pre IH]; intros k Hnin; simpl.
  - rewrite Z.eqb_refl. f_equal. lia.
  - destruct (Z.eqb_spec y x) as [->|Hne]; [exfalso; apply Hnin; now left|].
    rewrite IH by (intros H; apply Hnin; now right). f_equal. lia.
Qed.

Lemma nearest_first_minimum (ts : list Z) (target : Z) :
  ts <> [] ->
  exists t i,
    nearest ts target = Ok (t, i)
    /\ nth_error ts i = Some t
    /\ (forall j x, nth_error ts j = Some x -> Z.abs (t - target) <= Z.abs (x - target))
    /\ (forall j x, (j < i)%nat -> nth_error ts j = Some x ->
                    Z.abs (t - target) < Z.abs (x - target)).
Proof.
  destruct ts as [|b l]; [congruence|]. intros _.
  destruct (min_from_split Z (fun x => Z.abs (x - target)) l b)
    as (pre & post & Heq & Hpre & Hall).
  set (m := min_from (fun x => Z.abs (x - target)) b l) in *.
  exists m, (List.length pre).
  assert (Hnin : ~ In m pre) by (intros H; apply Hpre in H; lia).
  repeat split.
  - unfold nearest, min_key. simpl bind. fold m.
    unfold index. rewrite Heq, index_from_split by assumption. reflexivity.
  - rewrite Heq, nth_error_app2, Nat.sub_diag by lia. reflexivity.
  - intros j x Hj. apply Hall. eapply nth_error_In; eassumption.
  - intros j x Hlt Hj. apply Hpre. rewrite Heq, nth_error_app1 in Hj by assumption.
    eapply nth_error_In; eassumption.
Qed.

Lemma nearest_ok_first_nearest (ts : list Z) (target t : Z) (i : nat) :
  nearest ts target = Ok (t, i) -> first_nearest ts target t i.
Proof.
  intros H. destruct ts as [|b l]; [discriminate|].
  destruct (nearest_first_minimum (b :: l) target ltac:(discriminate))
    as (t' & i' & Hn & Hp).
  rewrite Hn in H. injection H as <- <-. exact Hp.
Qed.

(** ** The threshold rule *)

Lemma classify_rule (t0 t1 : Z) :
  (classify t0 t1 = Some breakdyn <-> t0 < 1 /\ 1200 < t1 <= 2400)
  /\ (classify t0 t1 = Some fulldyn <-> t0 < 1 /\ 3600 <= t1)
  /\ (classify t0 t1 = Some static <-> 1 < t0)
  /\ (classify t0 t1 = None <->
      t0 = 1 \/ (t0 < 1 /\ (t1 <= 1200 \/ 2400 < t1 < 3600))).
Proof.
  unfold classify, breakdyn_t, fulldyn_time. cbn [fst snd].
  destruct (Z.ltb_spec t0 1); destruct (Z.ltb_spec 1200 t1);
    destruct (Z.leb_spec t1 2400); destruct (Z.leb_spec 3600 t1);
    destruct (Z.ltb_spec 1 t0); cbn [andb];
    repeat split; intros; try discriminate; try lia.
Qed.

(** An acquisition of undetermined kind adds no descriptor and no warning,
    and raises nothing. *)
Lemma explore_series_undetermined (win : option (Z * Z)) (st : loop_state)
      (srs_t : list frame) (tf0 : Z * Z) (rest : list (Z * Z)) :
  frame_timings srs_t = tf0 :: rest ->
  classify (fst tf0) (snd (last (tf0 :: rest) tf0)) = None ->
  exists st',
    explore_series win st srs_t = Ok st'
    /\ msrs_class st' = msrs_class st
    /\ warnings st' = warnings st.
Proof.
  intros Ht Hc. destruct srs_t as [|f0 srs]; [discriminate|].
  unfold explore_series. rewrite Ht. cbv zeta. rewrite Hc.
  destruct (tracer st); eexists; repeat split.
Qed.

(** ** Conversion of the window bounds *)

Lemma float_of_int_cases (z : Z) :
  converts z
  \/ float_of_int z = Raise (OverflowError "int too large to convert to float").
Proof.
  unfold converts, float_of_int. destruct (PrimFloat.is_infinity _); auto.
Qed.

Lemma covers_converts (t0 t1 w0 w1 : Z) :
  converts w0 -> converts w1 ->
  covers t0 t1 w0 w1 = Ok (above_lower_margin t0 w0 && below_upper_margin t1 w1).
Proof.
  unfold converts, covers, int_times_float, above_lower_margin, below_upper_margin.
  intros -> ->. cbn [bind]. destruct (int_gt_float _ _); reflexivity.
Qed.

Lemma covers_lower_fails (t0 t1 w0 w1 : Z) :
  converts w0 -> above_lower_margin t0 w0 = false ->
  covers t0 t1 w0 w1 = Ok false.
Proof.
  unfold converts, covers, int_times_float, above_lower_margin.
  intros -> H. cbn [bind]. rewrite H. reflexivity.
Qed.

Lemma covers_overflow (t0 t1 w0 w1 : Z) :
  ~ converts w0 \/ (converts w0 /\ above_lower_margin t0 w0 = true /\ ~ converts w1) ->
  covers t0 t1 w0 w1 = Raise (OverflowError "int too large to convert to float").
Proof.
  unfold covers, int_times_float, above_lower_margin.
  intros [H0|(H0 & Hlo & H1)].
  - destruct (float_of_int_cases w0) as [Hc| ->]; [contradiction|reflexivity].
  - rewrite H0. cbn [bind]. rewrite Hlo.
    destruct (float_of_int_cases w1) as [Hc| ->]; [contradiction|reflexivity].
Qed.

(** ** The three branches of the loop body *)

(** A static acquisition against a window whose coverage test returns. *)
Lemma explore_series_static (w0 w1 : Z) (st : loop_state) (srs_t : list frame)
      (tf0 : Z * Z) (rest : list (Z * Z)) (covered : bool) :
  frame_timings srs_t = tf0 :: rest ->
  classify (fst tf0) (snd (last (tf0 :: rest) tf0)) = Some static ->
  covers (fst tf0) (snd (last (tf0 :: rest) tf0)) w0 w1 = Ok covered ->
  exists st' d,
    explore_series (Some (w0, w1)) st srs_t = Ok st'
    /\ msrs_class st' = msrs_class st ++ [d]
    /\ (forall t, tracer st = Some t -> tracer st' = Some t)
    /\ if covered
       then warnings st' = warnings st
            /\ acq d = [Kind static; Suvr]
            /\ timings d = Some (tf0 :: rest)
            /\ nearest (map fst (tf0 :: rest)) w0 = Ok (fst (time d), fst (idxs d))
            /\ nearest (map snd (tf0 :: rest)) w1 = Ok (snd (time d), snd (idxs d))
       else warnings st' = warnings st ++ [coverage_warning]
            /\ acq d = [Kind static]
            /\ timings d = None
            /\ time d = (fst tf0, snd (last (tf0 :: rest) tf0))
            /\ idxs d = (0%nat, (List.length srs_t - 1)%nat)
            /\ frms d = map series_id srs_t.
Proof.
  intros Ht Hc Hcov. destruct srs_t as [|f0 srs]; [discriminate|].
  assert (Hlen : List.length (tf0 :: rest) = List.length (f0 :: srs)).
  { rewrite <- Ht. unfold frame_timings. now rewrite length_map. }
  unfold explore_series. rewrite Ht. cbv zeta. rewrite Hc, Hcov.
  cbn [bind]. destruct covered.
  - destruct (nearest_first_minimum (map fst (tf0 :: rest)) w0 ltac:(discriminate))
      as (t0 & i0 & Hn0 & _).
    destruct (nearest_first_minimum (map snd (tf0 :: rest)) w1 ltac:(discriminate))
      as (t1 & i1 & Hn1 & _).
    cbn [bind fst snd]. unfold select. rewrite Hn0, Hn1. cbn [bind fst snd].
    destruct (tracer st) eqn:Etr; eexists; eexists; cbn [msrs_class warnings push tracer];
      (split; [reflexivity|]);
      cbn [msrs_class warnings push tracer acq time idxs timings fst snd];
      (split; [reflexivity|]); (split; [intros; congruence|]); repeat split.
  - destruct (tracer st) eqn:Etr; eexists; eexists; cbn [msrs_class warnings tracer];
      (split; [reflexivity|]);
      cbn [msrs_class warnings tracer acq time idxs timings frms fst snd];
      (split; [reflexivity|]); (split; [intros; congruence|]);
      rewrite Hlen; repeat split.
Qed.

(** A coffee-break or full dynamic acquisition. *)
Lemma explore_series_dynamic (win : option (Z * Z)) (st : loop_state)
      (srs_t : list frame) (tf0 : Z * Z) (rest : list (Z * Z)) (k : acq_kind) :
  frame_timings srs_t = tf0 :: rest ->
  classify (fst tf0) (snd (last (tf0 :: rest) tf0)) = Some k ->
  k <> static ->
  exists st' d,
    explore_series win st srs_t = Ok st'
    /\ msrs_class st' = msrs_class st ++ [d]
    /\ (forall t, tracer st = Some t -> tracer st' = Some t)
    /\ warnings st' = warnings st
    /\ acq d = [Kind k]
    /\ timings d = Some (tf0 :: rest)
    /\ nearest (map fst (tf0 :: rest)) (fst (dynamic_targets k))
       = Ok (fst (time d), fst (idxs d))
    /\ nearest (map snd (tf0 :: rest)) (snd (dynamic_targets k))
       = Ok (snd (time d), snd (idxs d)).
Proof.
  intros Ht Hc Hk. destruct srs_t as [|f0 srs]; [discriminate|].
  destruct (nearest_first_minimum (map fst (tf0 :: rest)) 0 ltac:(discriminate))
    as (t0 & i0 & Hn0 & _).
  unfold explore_series. rewrite Ht. cbv zeta. rewrite Hc.
  destruct k; [congruence | |].
  - destruct (nearest_first_minimum (map snd (tf0 :: rest)) break_time ltac:(discriminate))
      as (t1 & i1 & Hn1 & _).
    unfold select. rewrite Hn0, Hn1. cbn [bind fst snd].
    destruct (tracer st) eqn:Etr; eexists; eexists; cbn [msrs_class warnings push tracer];
      (split; [reflexivity|]);
      cbn [msrs_class warnings push tracer acq time idxs timings fst snd dynamic_targets];
      (split; [reflexivity|]); (split; [intros; congruence|]); repeat split;
      assumption.
  - destruct (nearest_first_minimum (map snd (tf0 :: rest)) fulldyn_time ltac:(discriminate))
      as (t1 & i1 & Hn1 & _).
    unfold select. rewrite Hn0, Hn1. cbn [bind fst snd].
    destruct (tracer st) eqn:Etr; eexists; eexists; cbn [msrs_class warnings push tracer];
      (split; [reflexivity|]);
      cbn [msrs_class warnings push tracer acq time idxs timings fst snd dynamic_targets];
      (split; [reflexivity|]); (split; [intros; congruence|]); repeat split;
      assumption.
Qed.

(** C7. In every acquisition for which [explore_input] selects frames by
    nearest match (a static acquisition that passes the coverage test of
    its window, a coffee-break or a full dynamic acquisition), the loop
    body returns one new descriptor and, for each of the two bounds, the
    selected time is at minimal absolute distance from the target and the
    selected index is the first position of the time-sorted frame set that
    reaches that minimum.  The selection [min(ts, key=...)] then
    [ts.index(...)] on [t_starts = [0, 600, 1200, 1800]] with target 650
    gives index 1 (600), not 2; for the same frames starting 6000 s later
    [explore_input] with the window [6650, 8400] selects the indices 1 and
    3, and with the lower bound 6300, halfway between the first two starts,
    the index 0. *)
Theorem nearest_match_first_index :
  (forall w0 w1 st srs_t tf0 rest,
      frame_timings srs_t = tf0 :: rest ->
      classify (fst tf0) (snd (last (tf0 :: rest) tf0)) = Some static ->
      covers (fst tf0) (snd (last (tf0 :: rest) tf0)) w0 w1 = Ok true ->
      exists st' d,
        explore_series (Some (w0, w1)) st srs_t = Ok st'
        /\ msrs_class st' = msrs_class st ++ [d]
        /\ first_nearest (map fst (tf0 :: rest)) w0 (fst (time d)) (fst (idxs d))
        /\ first_nearest (map snd (tf0 :: rest)) w1 (snd (time d)) (snd (idxs d)))
  /\ (forall win st srs_t tf0 rest k,
         frame_timings srs_t = tf0 :: rest ->
         classify (fst tf0) (snd (last (tf0 :: rest) tf0)) = Some k ->
         k <> static ->
         exists st' d,
           explore_series win st srs_t = Ok st'
           /\ msrs_class st' = msrs_class st ++ [d]
           /\ first_nearest (map fst (tf0 :: rest)) (fst (dynamic_targets k))
                            (fst (time d)) (fst (idxs d))
           /\ first_nearest (map snd (tf0 :: rest)) (snd (dynamic_targets k))
                            (snd (time d)) (snd (idxs d)))
  /\ nearest [0; 600; 1200; 1800] 650 = Ok (600, 1%nat)
  /\ (exists st',
         explore_input true [Examples.late_static_frames] None (Some (6650, 8400)) = Ok st'
         /\ map (fun d => map fst (match timings d with Some l => l | None => [] end))
                (msrs_class st')
            = [[6000; 6600; 7200; 7800]]
         /\ map time (msrs_class st') = [(6600, 8400)]
         /\ map idxs (msrs_class st') = [(1%nat, 3%nat)])
  /\ (exists st',
         explore_input true [Examples.late_static_frames] None (Some (6300, 8400)) = Ok st'
         /\ map time (msrs_class st') = [(6000, 8400)]
         /\ map idxs (msrs_class st') = [(0%nat, 3%nat)]).
Proof.
  split; [|split; [|split; [reflexivity|split]]].
  - intros w0 w1 st srs_t tf0 rest Ht Hc Hcov.
    destruct (explore_series_static w0 w1 st srs_t tf0 rest true Ht Hc Hcov)
      as (st' & d & Hr & Hm & _ & _ & _ & _ & Hn0 & Hn1).
    exists st', d. split; [exact Hr|]. split; [exact Hm|].
    split; apply nearest_ok_first_nearest; assumption.
  - intros win st srs_t tf0 rest k Ht Hc Hk.
    destruct (explore_series_dynamic win st srs_t tf0 rest k Ht Hc Hk)
      as (st' & d & Hr & Hm & _ & _ & _ & _ & Hn0 & Hn1).
    exists st', d. split; [exact Hr|]. split; [exact Hm|].
    split; apply nearest_ok_first_nearest; assumption.
  - eexists. split; [vm_compute; reflexivity|]. repeat split.
  - eexists. split; [vm_compute; reflexivity|]. repeat split.
Qed.

Lemma nearest_match_first_index_witness :
  exists st' d,
    explore_series (Some (6650, 8400))
      {| tracer := None; tracer_ := None; msrs_class := []; warnings := [] |}
      Examples.late_static_frames = Ok st'
    /\ msrs_class st' = [] ++ [d]
    /\ first_nearest [6000; 6600; 7200; 7800] 6650 (fst (time d)) (fst (idxs d))
    /\ first_nearest [6600; 7200; 7800; 8400] 8400 (snd (time d)) (snd (idxs d)).
Proof.
  apply (proj1 nearest_match_first_index 6650 8400
           {| tracer := None; tracer_ := None; msrs_class := []; warnings := [] |}
           Examples.late_static_frames (6000, 6600)
           [(6600, 7200); (7200, 7800); (7800, 8400)]);
    vm_compute; reflexivity.
Defined.

(** C6 (as amended). The kind is [breakdyn] exactly when [t_start0 < 1]
    and [t_stop_last] lies in (1200, 2400], [fulldyn] exactly when
    [t_start0 < 1] and [t_stop_last >= 3600], [static] exactly when
    [t_start0 > 1], and undetermined in every remaining case; an
    acquisition of undetermined kind is skipped by [explore_input]: no
    descriptor and no warning is added and no error is raised. *)
Theorem temporal_classification_rule :
  (forall t0 t1,
      (classify t0 t1 = Some breakdyn <-> t0 < 1 /\ 1200 < t1 <= 2400)
      /\ (classify t0 t1 = Some fulldyn <-> t0 < 1 /\ 3600 <= t1)
      /\ (classify t0 t1 = Some static <-> 1 < t0)
      /\ (classify t0 t1 = None <->
          t0 = 1 \/ (t0 < 1 /\ (t1 <= 1200 \/ 2400 < t1 < 3600))))
  /\ (forall win st srs_t tf0 rest,
         frame_timings srs_t = tf0 :: rest ->
         classify (fst tf0) (snd (last (tf0 :: rest) tf0)) = None ->
         exists st',
           explore_series win st srs_t = Ok st'
           /\ msrs_class st' = msrs_class st
           /\ warnings st' = warnings st).
Proof.
  split; [exact classify_rule | exact explore_series_undetermined].
Qed.

Lemma temporal_classification_rule_witness :
  exists st',
    explore_series (Some (3000, 3600))
      {| tracer := None; tracer_ := None; msrs_class := []; warnings := [] |}
      [Examples.frame_at_one_second] = Ok st'
    /\ msrs_class st' = []
    /\ warnings st' = [].
Proof.
  apply (proj2 temporal_classification_rule (Some (3000, 3600))
           {| tracer := None; tracer_ := None; msrs_class := []; warnings := [] |}
           [Examples.frame_at_one_second] (1, 601) []); reflexivity.
Defined.

(** C6, counterexample. A frame that starts exactly one second after the
    injection has no kind, and [explore_input] returns normally with an
    empty list of descriptors instead of rejecting the input. *)
Lemma undetermined_kind_is_not_rejected :
  classify 1 601 = None
  /\ explore_input true [[Examples.frame_at_one_second]] None (Some (3000, 3600))
     = Ok {| tracer := None; tracer_ := Some []; msrs_class := []; warnings := [] |}.
Proof. split; reflexivity. Qed.

(** ** Frame timings *)

Lemma chain_map (R1 R2 : Z -> Z -> bool) (f g : frame -> Z) (l : list frame) :
  (forall a b, In a l -> In b l -> R1 (f a) (f b) = true -> R2 (g a) (g b) = true) ->
  chain R1 (map f l) = true -> chain R2 (map g l) = true.
Proof.
  induction l as [|a l IH]; intros Hmono; [reflexivity|].
  destruct l as [|b l]; [reflexivity|].
  change (R1 (f a) (f b) && chain R1 (map f (b :: l)) = true ->
          R2 (g a) (g b) && chain R2 (map g (b :: l)) = true).
  rewrite !andb_true_iff. intros [Hab Hl]. split.
  - apply Hmono; simpl; auto.
  - apply IH; [|exact Hl]. intros x y Hx Hy. apply Hmono; now right.
Qed.

Lemma timedelta_seconds_mono (a b : Z) :
  within_day a -> within_day b -> a <= b ->
  timedelta_seconds a <= timedelta_seconds b.
Proof.
  unfold within_day, timedelta_seconds. intros Ha Hb Hab.
  assert (Hq : forall x, 0 <= x < 86400 * 1000000 -> 0 <= x / 1000000 < 86400).
  { intros x Hx. split; [apply Z.div_pos; lia|apply Z.div_lt_upper_bound; lia]. }
  rewrite !Z.mod_small by (apply Hq; assumption).
  apply Z.div_le_mono; lia.
Qed.

Lemma frame_timings_starts (l : list frame) :
  map fst (frame_timings l) = map (fun f => timedelta_seconds (start_offset f)) l.
Proof. unfold frame_timings. rewrite map_map. reflexivity. Qed.

Lemma frame_timings_stops (l : list frame) :
  map snd (frame_timings l) = map (fun f => timedelta_seconds (stop_offset f)) l.
Proof. unfold frame_timings. rewrite map_map. reflexivity. Qed.

(** C8 (as amended). For frames of one session (a common administration
    start) whose acquisition start times increase and whose start offsets
    from the administration lie between 0 and 24 hours, the start
    components of the timings are non-decreasing; when moreover the frames'
    end times are non-decreasing and the stop offsets lie between 0 and 24
    hours, so are the stop components. *)
Theorem frame_timings_monotone_within_day (srs_t : list frame) :
  increasing (map acq_datetime srs_t) = true ->
  (forall f g, In f srs_t -> In g srs_t -> radio_start_time f = radio_start_time g) ->
  Forall (fun f => within_day (start_offset f)) srs_t ->
  nondecreasing (map fst (frame_timings srs_t)) = true
  /\ (nondecreasing (map end_datetime srs_t) = true ->
      Forall (fun f => within_day (stop_offset f)) srs_t ->
      nondecreasing (map snd (frame_timings srs_t)) = true).
Proof.
  intros Hinc Hadmin Hstart. rewrite Forall_forall in Hstart. split.
  - rewrite frame_timings_starts. unfold nondecreasing.
    apply (chain_map Z.ltb Z.leb acq_datetime); [|exact Hinc].
    intros a b Ha Hb Hlt. apply Z.ltb_lt in Hlt. apply Z.leb_le.
    apply timedelta_seconds_mono; auto.
    unfold start_offset. rewrite (Hadmin a b Ha Hb). lia.
  - intros Hend Hstop. rewrite Forall_forall in Hstop.
    rewrite frame_timings_stops. unfold nondecreasing.
    apply (chain_map Z.leb Z.leb end_datetime); [|exact Hend].
    intros a b Ha Hb Hle. apply Z.leb_le in Hle. apply Z.leb_le.
    apply timedelta_seconds_mono; auto.
    unfold stop_offset, end_datetime in *. rewrite (Hadmin a b Ha Hb). lia.
Qed.

Lemma frame_timings_monotone_within_day_witness :
  nondecreasing (map fst (frame_timings Examples.overlapping_frames)) = true.
Proof.
  apply (frame_timings_monotone_within_day Examples.overlapping_frames).
  - reflexivity.
  - intros f g [<-|[<-|[]]] [<-|[<-|[]]]; reflexivity.
  - repeat constructor; vm_compute; congruence.
Defined.

(** C8, counterexample. Frames in increasing order of acquisition start
    whose timings are not monotone: a long frame followed by a shorter one
    that ends earlier has stop components 3600 then 3200; and for a frame
    acquired before the administration, [.seconds] of the negative
    [timedelta] is counted from a day earlier, so the start components are
    86390 then 50. *)
Lemma frame_timings_not_monotone :
  (increasing (map acq_datetime Examples.overlapping_frames) = true
   /\ frame_timings Examples.overlapping_frames = [(3000, 3600); (3100, 3200)]
   /\ nondecreasing (map snd (frame_timings Examples.overlapping_frames)) = false)
  /\ (increasing (map acq_datetime Examples.frames_around_injection) = true
      /\ frame_timings Examples.frames_around_injection = [(86390, 86395); (50, 55)]
      /\ nondecreasing (map fst (frame_timings Examples.frames_around_injection)) = false).
Proof. repeat split. Qed.

(** ** The static branch *)

(** Without a user-given window the coverage check subscripts [None]. *)
Lemma explore_series_static_no_window (st : loop_state) (srs_t : list frame)
      (tf0 : Z * Z) (rest : list (Z * Z)) :
  frame_timings srs_t = tf0 :: rest ->
  classify (fst tf0) (snd (last (tf0 :: rest) tf0)) = Some static ->
  explore_series None st srs_t
  = Raise (TypeError "'NoneType' object is not subscriptable").
Proof.
  intros Ht Hc. destruct srs_t as [|f0 srs]; [discriminate|].
  unfold explore_series. rewrite Ht. cbv zeta. rewrite Hc. reflexivity.
Qed.

(** The coverage check only asks that the acquisition starts after 90%
    of the window start and stops before 110% of the window stop: a short
    acquisition inside the window [3000, 3600] passes it, one from 10 s to
    9010 s that contains the window does not. *)
Lemma coverage_check_is_one_sided :
  above_lower_margin 3500 3000 && below_upper_margin 3550 3600 = true
  /\ above_lower_margin 10 3000 && below_upper_margin 9010 3600 = false.
Proof. split; reflexivity. Qed.

(** C1. Without a user-given window every static acquisition makes
    [explore_input] raise a [TypeError] at the coverage check, before the
    tracer's default window is looked up.  In particular the single-frame
    static acquisition spanning [3000 s, 3600 s] with tracer fbp raises;
    with the window [3000, 3600] given explicitly it yields kind static,
    no warning, and the full range. *)
Theorem static_without_window_raises_type_error :
  (forall st srs_t tf0 rest,
      frame_timings srs_t = tf0 :: rest ->
      classify (fst tf0) (snd (last (tf0 :: rest) tf0)) = Some static ->
      explore_series None st srs_t
      = Raise (TypeError "'NoneType' object is not subscriptable"))
  /\ explore_input true [[Examples.fbp_single_frame]] (Some "fbp") None
     = Raise (TypeError "'NoneType' object is not subscriptable")
  /\ explore_input true [[Examples.fbp_single_frame]] (Some "fbp") (Some (3000, 3600))
     = Ok {| tracer := Some "fbp"; tracer_ := None;
             msrs_class :=
               [ {| acq := [Kind static; Suvr];
                    time := (3000, 3600);
                    timings := Some [(3000, 3600)];
                    idxs := (0%nat, 0%nat);
                    frms := ["fbp_static"] |} ];
             warnings := [] |}.
Proof.
  split; [exact explore_series_static_no_window | split; reflexivity].
Qed.

Lemma static_without_window_raises_type_error_witness :
  explore_series None
    {| tracer := Some "fbp"; tracer_ := None; msrs_class := []; warnings := [] |}
    [Examples.fbp_single_frame]
  = Raise (TypeError "'NoneType' object is not subscriptable").
Proof.
  apply (proj1 static_without_window_raises_type_error
           {| tracer := Some "fbp"; tracer_ := None; msrs_class := []; warnings := [] |}
           [Examples.fbp_single_frame] (3000, 3600) []); reflexivity.
Defined.

End Classifier.

(** * Properties of the frame alignment cache *)

Section Alignment.

Import Preproc Props.

Lemma prepared_calls (w : world) : calls (prepared w) = calls w.
Proof. reflexivity. Qed.

Lemma prepared_entries (w : world) (e : string * entry_kind) :
  In e (entries w) -> In e (entries (prepared w)).
Proof.
  unfold prepared, add_entry, create_niidir. cbn [fst entries].
  destruct (has_entry _ _); [tauto|]. intros H. apply in_or_app. now left.
Qed.

Lemma is_file_prepared (name : string) (w : world) :
  is_file name w = (w, Ok true) ->
  is_file name (prepared w) = (prepared w, Ok true).
Proof.
  unfold is_file. intros H. injection H as H.
  apply andb_true_iff in H. destruct H as [_ H].
  f_equal. f_equal.
  unfold prepared, add_entry, create_niidir. cbn [fst entries niidir_exists andb].
  destruct (has_entry _ _); [exact H|].
  rewrite existsb_app, H. reflexivity.
Qed.

(** C5. With the aligned file present and [reg_force] not set,
    [align_suvr] calls no collaborator and removes nothing from the output
    folder, and then raises [UnboundLocalError] for [R] at its [return]
    instead of returning the handle to the existing file. *)
Theorem align_suvr_cache_hit_raises (C : collaborators)
        (suvr_tdata : list (string * series_data)) (frms : list string)
        (outpath : option string) (w : world) (d0 : series_data) :
  first_series suvr_tdata = Ok d0 ->
  is_file (aligned_name C d0) w = (w, Ok true) ->
  exists w',
    align_suvr C suvr_tdata frms outpath false w = (w', Raise (UnboundLocalError "R"))
    /\ calls w' = calls w
    /\ (forall e, In e (entries w) -> In e (entries w')).
Proof.
  intros Hfirst Hfile. exists (prepared w).
  split; [|split; [apply prepared_calls | apply prepared_entries]].
  apply is_file_prepared in Hfile.
  unfold align_suvr.
  rewrite (mbind_ok _ _ w w tt)
    by (destruct outpath; unfold mbind, lift, ret; rewrite ?Hfirst; reflexivity).
  rewrite (mbind_ok create_niidir _ w (fst (create_niidir w)) tt) by reflexivity.
  rewrite (mbind_ok (add_entry "SPM-aligned" Dir) _ _ (prepared w) tt) by reflexivity.
  rewrite (mbind_ok (lift (first_series suvr_tdata)) _ _ (prepared w) d0)
    by (unfold lift; now rewrite Hfirst).
  cbv zeta. rewrite (mbind_ok _ _ _ _ _ Hfile).
  reflexivity.
Qed.

Lemma align_suvr_cache_hit_raises_witness :
  snd (align_suvr Examples.plain_collaborators Examples.one_frame_tdata ["k1"] None false
         Examples.empty_world)
  = Ok {| fpet := "SUVr_aligned_PET.nii.gz"; Metric := []; faff := [] |}
  /\ exists w',
      align_suvr Examples.plain_collaborators Examples.one_frame_tdata ["k1"] None false
        Examples.world_after_first_run
      = (w', Raise (UnboundLocalError "R"))
      /\ calls w' = calls Examples.world_after_first_run
      /\ (forall e, In e (entries Examples.world_after_first_run) -> In e (entries w')).
Proof.
  split; [reflexivity|].
  apply (align_suvr_cache_hit_raises Examples.plain_collaborators Examples.one_frame_tdata
           ["k1"] None Examples.world_after_first_run
           {| dicom_dir := "100000"; series := "PET"; series_tacq := "100000" |});
    reflexivity.
Defined.

End Alignment.

(** * Properties of the static image builder *)

Section StaticImage.

Import SuvrTools Props.

Lemma getitem_cases {A : Type} (l : list A) (i : Z) :
  getitem l i = Raise (IndexError "index out of range")
  \/ (exists a, getitem l i = Ok a
                /\ - Z.of_nat (List.length l) <= i < Z.of_nat (List.length l)).
Proof.
  unfold getitem.
  destruct (Z.ltb_spec i 0) as [Hneg|Hpos].
  - destruct (Z.ltb_spec (i + Z.of_nat (List.length l)) 0); [now left|].
    destruct (Z.leb_spec (Z.of_nat (List.length l)) (i + Z.of_nat (List.length l)));
      [now left|]. cbn [orb].
    destruct (nth_error l _) as [a|]; [right; exists a; split; [reflexivity|lia] | now left].
  - destruct (Z.ltb_spec i 0); [lia|].
    destruct (Z.leb_spec (Z.of_nat (List.length l)) i); [now left|]. cbn [orb].
    destruct (nth_error l _) as [a|]; [right; exists a; split; [reflexivity|lia] | now left].
Qed.

(** One index outside the image makes the whole selection fail. *)
Lemma take_frames_out_of_range (im : list (list float)) (frames : list Z) (i : Z) :
  In i frames ->
  Z.of_nat (List.length im) <= i ->
  take_frames im frames = Raise (IndexError "index out of range").
Proof.
  intros Hin Hi. induction frames as [|j rest IH]; [destruct Hin|].
  simpl. destruct (getitem_cases im j) as [->|(a & -> & Hj)]; [reflexivity|].
  simpl. destruct Hin as [->|Hin]; [lia|].
  rewrite (IH Hin). reflexivity.
Qed.

Lemma list_max_in (fs : list Z) : forall f, In (list_max f fs) (f :: fs).
Proof.
  unfold list_max. induction fs as [|x fs IH]; intros f; [now left|].
  simpl fold_left. destruct (IH (Z.max f x)) as [H|H].
  - rewrite <- H. destruct (Z.max_spec f x) as [[_ ->]|[_ ->]]; simpl; auto.
  - right. now right.
Qed.

Lemma resolve_image_nifti (p : pet_input) (f : Z) (fs : list Z) (tr : list step) :
  path_exists p = true -> kind p = NiftiFile ->
  list_max f fs <= nfrm p ->
  resolve_image p (Some (f :: fs)) tr
  = (tr ++ [ReadImage (pet_path p)], Ok (pet_path p, f :: fs)).
Proof.
  intros Hp Hk Hmax. unfold resolve_image. rewrite Hp, Hk. cbn [negb].
  unfold mbind, ret, record_step.
  destruct (Z.ltb_spec (nfrm p) (list_max f fs)); [lia|reflexivity].
Qed.

(** C9. A frame list whose largest index equals the frame count passes
    the check of [preproc_suvr] although the index is not one of
    [0 .. nfrm-1]; it reaches the frame summation, which raises
    [IndexError] after the image has been read. *)
Theorem preproc_suvr_frame_count_index_reaches_sum
        (rem_chars : string -> string) (p : pet_input) (f : Z) (fs : list Z)
        (outpath : string) (fname : option string) (com_correction force : bool)
        (tr : list step) :
  path_exists p = true -> kind p = NiftiFile ->
  list_max f fs = nfrm p -> 1 < nfrm p ->
  nfrm p = Z.of_nat (List.length (im p)) ->
  negb (fstat_is_file p) || force = true ->
  preproc_suvr rem_chars p (Some (f :: fs)) outpath fname com_correction force tr
  = (tr ++ [ReadImage (pet_path p)], Raise (IndexError "index out of range")).
Proof.
  intros Hp Hk Hmax Hn Hlen Hrun. unfold preproc_suvr.
  rewrite (mbind_ok _ _ _ _ _ (resolve_image_nifti p f fs tr Hp Hk ltac:(lia))).
  cbn [snd fst]. apply mbind_raise.
  unfold build_static. rewrite Hrun.
  destruct (Z.ltb_spec 1 (nfrm p)); [|lia].
  apply mbind_raise. apply mbind_raise. unfold lift. f_equal.
  apply take_frames_out_of_range with (i := list_max f fs); [apply list_max_in|lia].
Qed.

Lemma preproc_suvr_frame_count_index_reaches_sum_witness :
  preproc_suvr Examples.keep_chars Examples.three_frame_pet (Some [3]) "/out" None true true []
  = ([ReadImage "/data/pet.nii.gz"], Raise (IndexError "index out of range")).
Proof.
  apply (preproc_suvr_frame_count_index_reaches_sum Examples.keep_chars
           Examples.three_frame_pet 3 [] "/out" None true true []);
    reflexivity || (vm_compute; reflexivity).
Defined.

(** When the centre-of-mass branch is not taken, [fsuvr_com] stays
    unbound. *)
Lemma build_static_unbound (p : pet_input) (frames : list Z) (fstat : string)
      (com_correction force : bool) (tr tr' : list step)
      (o : option (string * list float)) :
  com_correction = false \/ (fstat_is_file p = true /\ force = false) ->
  build_static p frames fstat com_correction force tr = (tr', Ok o) ->
  o = None.
Proof.
  intros Hskip. unfold build_static.
  destruct (negb (fstat_is_file p) || force) eqn:Hrun.
  - destruct Hskip as [->|[Hf ->]]; [|rewrite Hf in Hrun; discriminate].
    unfold mbind, ret, lift, record_step.
    destruct (1 <? nfrm p).
    + destruct (take_frames (im p) frames); intros H; now inversion H.
    + intros H; now inversion H.
  - unfold ret. intros H; now inversion H.
Qed.

(** C10. Whenever the centre-of-mass branch of [preproc_suvr] is not
    executed (because [com_correction] is false, or because the static file
    exists and [force] is false) the call never returns a result; if no
    earlier statement raises, the [return] statement raises
    [UnboundLocalError] for [fsuvr_com]. *)
Theorem preproc_suvr_without_com_never_returns
        (rem_chars : string -> string) (p : pet_input) (frames : option (list Z))
        (outpath : string) (fname : option string) (com_correction force : bool)
        (tr : list step) :
  com_correction = false \/ (fstat_is_file p = true /\ force = false) ->
  (forall r,
      snd (preproc_suvr rem_chars p frames outpath fname com_correction force tr) <> Ok r)
  /\ (forall tr1 ff tr2 o,
         resolve_image p frames tr = (tr1, Ok ff) ->
         build_static p (snd ff) (static_path rem_chars p outpath fname)
                      com_correction force tr1 = (tr2, Ok o) ->
         preproc_suvr rem_chars p frames outpath fname com_correction force tr
         = (tr2, Raise (UnboundLocalError "fsuvr_com"))).
Proof.
  intros Hskip. unfold preproc_suvr. split.
  - intros r. unfold mbind at 1.
    destruct (resolve_image p frames tr) as [tr1 [ff|e]]; [|discriminate].
    unfold mbind.
    destruct (build_static p (snd ff) (static_path rem_chars p outpath fname)
                           com_correction force tr1) as [tr2 [o|e]] eqn:Hb;
      [|discriminate].
    rewrite (build_static_unbound _ _ _ _ _ _ _ _ Hskip Hb). discriminate.
  - intros tr1 ff tr2 o Hr Hb.
    rewrite (mbind_ok _ _ _ _ _ Hr). cbv zeta.
    rewrite (mbind_ok _ _ _ _ _ Hb).
    rewrite (build_static_unbound _ _ _ _ _ _ _ _ Hskip Hb). reflexivity.
Qed.

Lemma preproc_suvr_without_com_never_returns_witness :
  preproc_suvr Examples.keep_chars Examples.three_frame_pet_cached None "/out" None true
               false []
  = ([ReadImage "/data/pet.nii.gz"], Raise (UnboundLocalError "fsuvr_com")).
Proof.
  apply (proj2 (preproc_suvr_without_com_never_returns Examples.keep_chars
                  Examples.three_frame_pet_cached None "/out" None true false []
                  (or_intror (conj eq_refl eq_refl)))
               [ReadImage "/data/pet.nii.gz"] ("/data/pet.nii.gz", [0; 1; 2])
               [ReadImage "/data/pet.nii.gz"] None);
    reflexivity.
Defined.

(** [voi_process] reads [suvr_preproc['fstat']], a key [preproc_suvr] does
    not set: whatever follows is never reached. *)
Lemma voi_process_never_returns {A : Type} (rem_chars : string -> string)
      (p : pet_input) (paths_ok : bool) (voi_dct : list (string * list Z))
      (ref_voi : option (list string)) (frames : option (list Z))
      (outpath : string) (fname : option string)
      (rest : suvr_files -> string -> Py.M (list step) A) (tr : list step) (a : A) :
  snd (voi_process rem_chars p paths_ok voi_dct ref_voi frames outpath fname rest tr)
  <> Ok a.
Proof.
  unfold voi_process. destruct paths_ok; [|discriminate]. cbn [negb].
  unfold mbind at 1.
  destruct ref_voi as [refs|];
    [destruct (negb (forallb _ refs)); [discriminate|]|]; unfold ret at 1;
    unfold mbind at 1;
    destruct (preproc_suvr _ _ _ _ _ _ _ _) as [tr1 [d|e]]; try discriminate;
    unfold mbind, lift; discriminate.
Qed.

End StaticImage.

(** * Properties of the VOI sampling and of the SUVr ratios *)

Section Sampling.

Import SuvrTools Props.

(** ** The test on the number of dimensions *)

(** Any image that is not four-dimensional reaches the test
    [im.ndims==3], and an array has no attribute [ndims]. *)
Lemma extract_voi_not_4d (im : ndarray) (lbls : list Z) (output_masks : bool)
      (labels : list Z) :
  (forall frames, im <> Array4 frames) ->
  extract_voi im lbls None output_masks labels = Raise (AttributeError "ndims").
Proof.
  intros H. unfold extract_voi, mask_times. cbn [bind].
  destruct im as [vox|frames|n vox]; try reflexivity.
  exfalso. now apply (H frames).
Qed.

(** ** The external mask *)

Lemma mask_times_defined (rmsk : list bool) (a : list float) :
  List.length a = List.length rmsk -> exists r, mask_times rmsk (Some a) = Ok r.
Proof.
  intros H. unfold mask_times. rewrite H, Nat.eqb_refl. eauto.
Qed.

Lemma mask_or_equal_length (rmsk : list bool) (lbls : list Z) (ri : Z) :
  List.length rmsk = List.length lbls ->
  List.length (mask_or_equal rmsk lbls ri) = List.length lbls.
Proof.
  intros H. unfold mask_or_equal. rewrite length_map, length_combine, H.
  apply Nat.min_id.
Qed.

Lemma roi_mask_length (lbls labels : list Z) :
  List.length (roi_mask lbls labels) = List.length lbls.
Proof.
  unfold roi_mask.
  assert (H : forall init, List.length init = List.length lbls ->
            List.length (fold_left (fun rmsk ri => mask_or_equal rmsk lbls ri) labels init)
            = List.length lbls).
  { induction labels as [|ri labels IH]; intros init Hinit; [exact Hinit|].
    simpl. apply IH. now apply mask_or_equal_length. }
  apply H. apply length_map.
Qed.

Lemma extract_voi_ignores_mask (im : ndarray) (lbls : list Z) (a : list float)
      (output_masks : bool) (labels : list Z) :
  List.length a = List.length lbls ->
  extract_voi im lbls (Some a) output_masks labels
  = extract_voi im lbls None output_masks labels.
Proof.
  intros H. unfold extract_voi.
  destruct (mask_times_defined (roi_mask lbls labels) a) as [r ->];
    [now rewrite roi_mask_length|].
  reflexivity.
Qed.

(** C3. For a 3D image and any non-empty VOI dictionary [extract_vois]
    raises [AttributeError] (the array attribute is [ndim], the 3D test
    reads [ndims]) and returns no sum or average, with no atlas mask or
    with one of the atlas's shape; the same voxels given as a one-frame 4D
    image, under a mask covering the values 1, 2, 3, 4, give voxel count 4,
    sum 10 and average 2.5. *)
Theorem extract_vois_3d_raises_attribute_error :
  (forall (vox : list float) (atlas : list (option Z)) (voi : string) (labels : list Z)
          (rest : list (string * list Z)) (output_masks : bool),
      extract_vois (Array3 vox) atlas ((voi, labels) :: rest) NoMask output_masks
      = Raise (AttributeError "ndims"))
  /\ (forall (vox : list float) (atlas : list (option Z)) (voi : string) (labels : list Z)
             (rest : list (string * list Z)) (amsk : list float) (output_masks : bool),
         List.length amsk = List.length atlas ->
         extract_vois (Array3 vox) atlas ((voi, labels) :: rest) (MaskArray amsk)
                      output_masks
         = Raise (AttributeError "ndims"))
  /\ extract_vois (Array3 [1; 2; 3; 4; 9]%float)
       [Some 7; Some 7; Some 7; Some 7; Some 0] [("voi", [7])] NoMask false
     = Raise (AttributeError "ndims")
  /\ extract_vois (Array4 [[1; 2; 3; 4; 9]%float])
       [Some 7; Some 7; Some 7; Some 7; Some 0] [("voi", [7])] NoMask false
     = Ok [("voi", {| vox_no := 4; sum := PerFrame [10%float];
                      avg := PerFrame [2.5%float]; fvoi := None; roimsk := None |})].
Proof.
  split; [|split; [|split; reflexivity]].
  - intros vox atlas voi labels rest om. unfold extract_vois. cbn [bind extract_loop].
    rewrite extract_voi_not_4d by discriminate. reflexivity.
  - intros vox atlas voi labels rest amsk om H. unfold extract_vois.
    cbn [bind extract_loop].
    rewrite extract_voi_ignores_mask
      by (unfold scrub_nan; now rewrite length_map).
    rewrite extract_voi_not_4d by discriminate. reflexivity.
Qed.

Lemma extract_vois_3d_raises_attribute_error_witness :
  extract_vois (Array3 [1; 2; 3; 4; 9]%float)
    [Some 7; Some 7; Some 7; Some 7; Some 0] [("voi", [7])]
    (MaskArray [1; 1; 1; 1; 1]%float) false
  = Raise (AttributeError "ndims").
Proof.
  apply (proj1 (proj2 extract_vois_3d_raises_attribute_error)). reflexivity.
Defined.

(** C4. An external atlas mask of the atlas's shape has no effect on
    [extract_vois]: the product [rmsk * amsk] is computed and dropped, so
    the voxels the mask excludes are still counted and summed. *)
Theorem extract_vois_ignores_atlas_mask (impet : ndarray) (atlas : list (option Z))
        (voi_dct : list (string * list Z)) (amsk : list float) (output_masks : bool) :
  List.length amsk = List.length atlas ->
  extract_vois impet atlas voi_dct (MaskArray amsk) output_masks
  = extract_vois impet atlas voi_dct NoMask output_masks.
Proof.
  intros H. unfold extract_vois. cbn [bind].
  assert (Hl : List.length amsk = List.length (scrub_nan atlas))
    by (unfold scrub_nan; now rewrite length_map).
  induction voi_dct as [|[voi labels] rest IH]; [reflexivity|].
  cbn [extract_loop]. rewrite extract_voi_ignores_mask by exact Hl.
  rewrite IH. reflexivity.
Qed.

Lemma extract_vois_ignores_atlas_mask_witness :
  spec_sampling_mask [1; 1] [1] [1; 0]%float = [true; false]
  /\ extract_vois (Array4 [[5; 7]%float]) [Some 1; Some 1] [("voi", [1])]
       (MaskArray [1; 0]%float) true
     = Ok [("voi", {| vox_no := 2; sum := PerFrame [12%float];
                      avg := PerFrame [6%float]; fvoi := None;
                      roimsk := Some [true; true] |})].
Proof.
  split; [reflexivity|].
  rewrite (extract_vois_ignores_atlas_mask (Array4 [[5; 7]%float]) [Some 1; Some 1]
             [("voi", [1])] [1; 0]%float true eq_refl).
  reflexivity.
Defined.

(** ** Shapes of the results *)

Lemma extract_loop_lookup (im : ndarray) (lbls : list Z) (amsk : option (list float))
      (om : bool) : forall voi_dct out,
  extract_loop im lbls amsk om voi_dct = Ok out ->
  map fst out = map fst voi_dct
  /\ Forall2 (fun kv kr => extract_voi im lbls amsk om (snd kv) = Ok (snd kr)) voi_dct out.
Proof.
  induction voi_dct as [|[voi labels] rest IH]; intros out H.
  - injection H as <-. split; constructor.
  - cbn [extract_loop] in H.
    destruct (extract_voi im lbls amsk om labels) as [r|e] eqn:Hr; [|discriminate].
    cbn [bind] in H.
    destruct (extract_loop im lbls amsk om rest) as [out'|e] eqn:Ho; [|discriminate].
    cbn [bind] in H. injection H as <-.
    destruct (IH out' eq_refl) as [Hk Hf].
    split; [simpl; now rewrite Hk|]. constructor; [exact Hr|exact Hf].
Qed.

Lemma count_true_bounds (rmsk : list bool) :
  0 <= count_true rmsk <= Z.of_nat (List.length rmsk).
Proof.
  unfold count_true. split; [lia|]. apply inj_le. apply filter_length_le.
Qed.

Lemma masked_sums_length (rmsk : list bool) (frames : list (list float))
      (xs : list float) :
  masked_sums rmsk frames = Ok xs -> List.length xs = List.length frames.
Proof.
  revert xs. induction frames as [|v frames IH]; intros xs H.
  - injection H as <-. reflexivity.
  - cbn [masked_sums] in H. destruct (masked_sum rmsk v); [|discriminate].
    cbn [bind] in H. destruct (masked_sums rmsk frames) as [xs'|e]; [|discriminate].
    cbn [bind] in H. injection H as <-. simpl. now rewrite (IH xs' eq_refl).
Qed.

Lemma extract_voi_4d_shape (frames : list (list float)) (lbls : list Z)
      (amsk : option (list float)) (om : bool) (labels : list Z) (r : voi_result) :
  extract_voi (Array4 frames) lbls amsk om labels = Ok r ->
  per_frame_result (List.length frames) (List.length lbls) r.
Proof.
  unfold extract_voi. destruct (mask_times _ _); [|discriminate]. cbn [bind].
  destruct (masked_sums _ frames) as [xs|e] eqn:E; [|discriminate]. cbn [bind].
  intros H. injection H as <-. unfold per_frame_result. cbn [sum avg vox_no div_count].
  apply masked_sums_length in E. split; [eauto|]. split.
  - eexists. split; [reflexivity|]. now rewrite length_map.
  - rewrite ?Z.add_0_l, <- (roi_mask_length lbls labels). apply count_true_bounds.
Qed.

Lemma extract_loop_shapes (frames : list (list float)) (lbls : list Z)
      (amsk : option (list float)) (om : bool) (voi_dct : list (string * list Z))
      (out : list (string * voi_result)) :
  extract_loop (Array4 frames) lbls amsk om voi_dct = Ok out ->
  map fst out = map fst voi_dct
  /\ Forall (fun kr => per_frame_result (List.length frames) (List.length lbls) (snd kr)) out.
Proof.
  intros H. destruct (extract_loop_lookup _ _ _ _ _ _ H) as [Hk Hf]. split; [exact Hk|].
  clear H Hk. induction Hf as [|kv kr l l' Hr _ IH]; constructor; [|exact IH].
  now apply extract_voi_4d_shape in Hr.
Qed.

Lemma voi_avg_defined (n size : nat) (voival : list (string * voi_result)) (k : string) :
  Forall (fun kr => per_frame_result n size (snd kr)) voival ->
  In k (map fst voival) ->
  exists ys, voi_avg voival k = Ok (PerFrame ys) /\ List.length ys = n.
Proof.
  intros Hf Hin. unfold voi_avg.
  destruct (find (fun kv => String.eqb (fst kv) k) voival) as [kv|] eqn:E.
  - apply find_some in E. destruct E as [Hkv _].
    rewrite Forall_forall in Hf. destruct (Hf _ Hkv) as (_ & (ys & Hy & Hl) & _).
    exists ys. now rewrite Hy.
  - exfalso. apply in_map_iff in Hin. destruct Hin as (kv & Hk & Hkv).
    apply (find_none _ _ E) in Hkv. rewrite Hk, String.eqb_refl in Hkv. discriminate.
Qed.

(** ** Division by zero *)

Lemma div_by_zero_not_finite (x ref : float) :
  is_zero ref -> not_finite (PrimFloat.div x ref).
Proof.
  unfold is_zero, not_finite. rewrite FloatAxioms.div_spec. unfold SF64div.
  destruct (Prim2SF ref); try tauto. intros _.
  destruct (Prim2SF x); exact I.
Qed.

Lemma count_true_zero (rmsk : list bool) :
  count_true rmsk = 0 -> forall vox, filter (fun bv : bool * float => fst bv) (combine rmsk vox) = [].
Proof.
  unfold count_true. induction rmsk as [|b rmsk IH]; intros H vox; [reflexivity|].
  destruct vox as [|v vox]; [reflexivity|]. destruct b; simpl in *.
  - lia.
  - now apply IH.
Qed.

Lemma masked_sums_empty (rmsk : list bool) (frames : list (list float)) :
  count_true rmsk = 0 ->
  Forall (fun v => List.length v = List.length rmsk) frames ->
  masked_sums rmsk frames = Ok (map (fun _ => 0%float) frames).
Proof.
  intros Hz Hlen. induction Hlen as [|v frames Hv _ IH]; [reflexivity|].
  simpl. unfold masked_sum. rewrite Hv, Nat.eqb_refl, (count_true_zero _ Hz).
  simpl. rewrite IH. reflexivity.
Qed.

Lemma np_div_per_frame (xs refs : list float) :
  List.length xs = List.length refs ->
  np_div (PerFrame xs) (PerFrame refs)
  = Ok (PerFrame (map (fun xr => PrimFloat.div (fst xr) (snd xr)) (combine xs refs))).
Proof. intros H. unfold np_div. rewrite H, Nat.eqb_refl. reflexivity. Qed.

Lemma nth_error_quotients (xs refs : list float) : forall i x r,
  nth_error xs i = Some x -> nth_error refs i = Some r ->
  nth_error (map (fun xr => PrimFloat.div (fst xr) (snd xr)) (combine xs refs)) i
  = Some (PrimFloat.div x r).
Proof.
  revert refs. induction xs as [|x0 xs IH]; intros refs i x r Hx Hr.
  - destruct i; discriminate.
  - destruct refs as [|r0 refs]; [destruct i; discriminate|].
    destruct i as [|i]; cbn in *.
    + injection Hx as ->. injection Hr as ->. reflexivity.
    + now apply IH.
Qed.

(** C2 (as amended). Neither division is guarded and none is reported as
    an error.  For a 4D image and a VOI whose mask matches no voxel,
    [extract_vois] computes voxel count 0, per-frame sums 0 and per-frame
    averages NaN and raises nothing.  The ratio of line 427, taken between
    the per-frame averages that [extract_vois] returned for two VOIs of
    the dictionary, raises nothing either: it is the vector of the
    quotients frame by frame, and the quotient is NaN or an infinity in
    every frame in which the reference average is zero.  [voi_process]
    itself never reaches that ratio nor returns anything, whatever follows
    its first use of [suvr_preproc['fstat']]. *)
Theorem division_by_zero_is_silent :
  (forall (frames : list (list float)) (lbls : list Z) (amsk : option (list float))
          (output_masks : bool) (labels : list Z),
      count_true (roi_mask lbls labels) = 0 ->
      Forall (fun v => List.length v = List.length lbls) frames ->
      (forall a, amsk = Some a -> List.length a = List.length lbls) ->
      extract_voi (Array4 frames) lbls amsk output_masks labels
      = Ok {| vox_no := 0;
              sum := PerFrame (map (fun _ => 0%float) frames);
              avg := PerFrame (map (fun _ => nan) frames);
              fvoi := None;
              roimsk := if output_masks then Some (roi_mask lbls labels) else None |})
  /\ (forall (frames : list (list float)) (atlas : list (option Z))
             (voi_dct : list (string * list Z)) (atlas_mask : atlas_mask_arg)
             (output_masks : bool) (voival : list (string * voi_result))
             (voi rvoi : string),
         extract_vois (Array4 frames) atlas voi_dct atlas_mask output_masks = Ok voival ->
         In voi (map fst voi_dct) -> In rvoi (map fst voi_dct) ->
         exists xs refs qs,
           voi_avg voival voi = Ok (PerFrame xs)
           /\ voi_avg voival rvoi = Ok (PerFrame refs)
           /\ np_div (PerFrame xs) (PerFrame refs) = Ok (PerFrame qs)
           /\ List.length xs = List.length frames
           /\ List.length refs = List.length frames
           /\ List.length qs = List.length frames
           /\ (forall i x r, nth_error xs i = Some x -> nth_error refs i = Some r ->
                             nth_error qs i = Some (PrimFloat.div x r))
           /\ (forall i r, nth_error refs i = Some r -> is_zero r ->
                           exists q, nth_error qs i = Some q /\ not_finite q))
  /\ (forall (A : Type) (rem_chars : string -> string) (p : pet_input) (paths_ok : bool)
             (voi_dct : list (string * list Z)) (ref_voi : option (list string))
             (frames : option (list Z)) (outpath : string) (fname : option string)
             (rest : suvr_files -> string -> Py.M (list step) A) (tr : list step) (a : A),
         snd (voi_process rem_chars p paths_ok voi_dct ref_voi frames outpath fname rest tr)
         <> Ok a).
Proof.
  split; [|split].
  - intros frames lbls amsk om labels Hz Hlen Hmask. unfold extract_voi.
    assert (Hm : exists r, mask_times (roi_mask lbls labels) amsk = Ok r).
    { destruct amsk as [a|]; [|unfold mask_times; eauto].
      apply mask_times_defined. rewrite roi_mask_length. now apply Hmask. }
    destruct Hm as [r ->]. cbn [bind].
    rewrite masked_sums_empty; [| exact Hz |].
    + cbn [bind]. rewrite Hz. unfold div_count. rewrite map_map. reflexivity.
    + eapply Forall_impl; [|exact Hlen]. intros v Hv. now rewrite roi_mask_length.
  - intros frames atlas voi_dct atlas_mask om voival voi rvoi Hex Hvoi Hrvoi.
    assert (Hshape : map fst voival = map fst voi_dct
                     /\ Forall (fun kr => per_frame_result (List.length frames)
                                            (List.length (scrub_nan atlas)) (snd kr))
                               voival).
    { unfold extract_vois in Hex. destruct atlas_mask; cbn [bind] in Hex;
        try discriminate; now apply extract_loop_shapes in Hex. }
    destruct Hshape as [Hk Hf]. rewrite <- Hk in Hvoi, Hrvoi.
    destruct (voi_avg_defined _ _ voival voi Hf Hvoi) as (xs & Hxs & Hlx).
    destruct (voi_avg_defined _ _ voival rvoi Hf Hrvoi) as (refs & Hrefs & Hlr).
    exists xs, refs,
      (map (fun xr => PrimFloat.div (fst xr) (snd xr)) (combine xs refs)).
    split; [exact Hxs|]. split; [exact Hrefs|].
    split; [apply np_div_per_frame; congruence|].
    split; [exact Hlx|]. split; [exact Hlr|].
    split; [rewrite length_map, length_combine, Hlx, Hlr; apply Nat.min_id|].
    split; [apply nth_error_quotients|].
    intros i r Hr Hz.
    destruct (nth_error xs i) as [x|] eqn:Hx.
    + exists (PrimFloat.div x r). split; [now apply nth_error_quotients|].
      now apply div_by_zero_not_finite.
    + exfalso. apply nth_error_None in Hx.
      assert (i < List.length refs)%nat by (apply nth_error_Some; congruence). lia.
  - intros A. apply voi_process_never_returns.
Qed.

Lemma division_by_zero_is_silent_witness :
  extract_voi (Array4 [[5; 7]; [1; 1]]%float) [1; 0] None false [2; 3]
  = Ok {| vox_no := 0; sum := PerFrame [0; 0]%float; avg := PerFrame [nan; nan];
          fvoi := None; roimsk := None |}.
Proof.
  apply (proj1 division_by_zero_is_silent [[5; 7]; [1; 1]]%float [1; 0] None false [2; 3]).
  - reflexivity.
  - repeat constructor.
  - discriminate.
Defined.

(** C2, counterexample. A VOI that matches no voxel of a two-frame image
    comes back from [extract_vois] with averages NaN, not with an error.
    For a two-frame image in which the reference VOI averages 0 in both
    frames, [extract_vois] returns the averages and the ratio of line 427
    between them evaluates to infinity in the first frame and to NaN in
    the second; no division error is raised in either case. *)
Lemma empty_voi_and_zero_reference_return :
  extract_vois (Array4 [[5; 7]; [1; 1]]%float) [Some 1; None] [("empty", [2; 3])]
     NoMask false
  = Ok [("empty", {| vox_no := 0; sum := PerFrame [0; 0]%float;
                     avg := PerFrame [nan; nan]; fvoi := None; roimsk := None |})]
  /\ (voival <- extract_vois (Array4 [[5; 0]; [0; 0]]%float) [Some 1; Some 2]
                   [("voi", [1]); ("ref", [2])] NoMask false ;;
      a <- voi_avg voival "voi" ;;
      ref <- voi_avg voival "ref" ;;
      q <- np_div a ref ;;
      Ok (a, ref, q))
     = Ok (PerFrame [5; 0]%float, PerFrame [0; 0]%float, PerFrame [infinity; nan]).
Proof. split; reflexivity. Qed.

End Sampling.

(** * Further properties of the acquisition classifier *)

Section ClassifierCoverage.

Import Preproc Props.

(** ** Sorting by acquisition time *)

Lemma ltb_asym (a b : string) : String.ltb a b = true -> String.ltb b a = false.
Proof.
  unfold String.ltb. intros H. rewrite (String.compare_antisym b a).
  destruct (String.compare a b); simpl; congruence.
Qed.

Lemma insert_by_tacq_perm (f : frame) (l : list frame) :
  Permutation (insert_by_tacq f l) (f :: l).
Proof.
  induction l as [|g l IH]; simpl; [reflexivity|].
  destruct (String.ltb (tacq f) (tacq g)); [reflexivity|].
  rewrite IH. apply perm_swap.
Qed.

Lemma insert_by_tacq_ordered (f : frame) (l : list frame) :
  tacq_ordered l = true -> tacq_ordered (insert_by_tacq f l) = true.
Proof.
  induction l as [|g l IH]; intros Hl; [reflexivity|].
  simpl insert_by_tacq. destruct (String.ltb (tacq f) (tacq g)) eqn:Hfg.
  - change (negb (String.ltb (tacq g) (tacq f)) && tacq_ordered (g :: l) = true).
    rewrite (ltb_asym _ _ Hfg), Hl. reflexivity.
  - destruct l as [|h l].
    + simpl. rewrite Hfg. reflexivity.
    + change (negb (String.ltb (tacq h) (tacq g)) && tacq_ordered (h :: l) = true) in Hl.
      apply andb_true_iff in Hl. destruct Hl as [Hgh Hl].
      specialize (IH Hl). simpl insert_by_tacq in *.
      destruct (String.ltb (tacq f) (tacq h)) eqn:Hfh.
      * change (negb (String.ltb (tacq f) (tacq g))
                && (negb (String.ltb (tacq h) (tacq f)) && tacq_ordered (h :: l)) = true).
        rewrite Hfg, (ltb_asym _ _ Hfh), Hl. reflexivity.
      * change (negb (String.ltb (tacq h) (tacq g))
                && tacq_ordered (h :: insert_by_tacq f l) = true).
        rewrite Hgh. exact IH.
Qed.

Lemma sort_by_tacq_fold (m : list frame) : forall acc,
  tacq_ordered acc = true ->
  Permutation (fold_left (fun acc f => insert_by_tacq f acc) m acc) (acc ++ m)
  /\ tacq_ordered (fold_left (fun acc f => insert_by_tacq f acc) m acc) = true.
Proof.
  induction m as [|f m IH]; intros acc Hacc; simpl.
  - rewrite app_nil_r. split; [reflexivity|exact Hacc].
  - destruct (IH (insert_by_tacq f acc) (insert_by_tacq_ordered f acc Hacc)) as [Hp Ho].
    split; [|exact Ho]. rewrite Hp, insert_by_tacq_perm.
    apply Permutation_middle.
Qed.

Lemma sort_by_tacq_nonempty (m : list frame) : m <> [] -> sort_by_tacq m <> [].
Proof.
  intros Hm Hs. destruct (sort_by_tacq_fold m [] eq_refl) as [Hp _].
  unfold sort_by_tacq in Hs. rewrite Hs in Hp. simpl in Hp.
  apply Permutation_nil in Hp. contradiction.
Qed.

(** X1. [sort_by_tacq] rearranges the frames of a group without losing or
    duplicating any, and in its output no frame is followed by one with a
    smaller acquisition-time string. *)
Theorem sort_by_tacq_sorted_permutation (m : list frame) :
  Permutation (sort_by_tacq m) m /\ tacq_ordered (sort_by_tacq m) = true.
Proof.
  exact (sort_by_tacq_fold m [] eq_refl).
Qed.

(** ** Timings read through [.seconds] *)

Lemma timedelta_seconds_range (us : Z) : 0 <= timedelta_seconds us < 86400.
Proof. unfold timedelta_seconds. apply Z.mod_pos_bound. lia. Qed.

(** X2. Both components of every frame timing lie in [0, 86400); a series
    whose first frame starts before the administration (by up to 86398 s)
    is therefore classified static, whatever its last stop. *)
Theorem early_start_is_static :
  (forall f, 0 <= fst (frame_timing f) < 86400 /\ 0 <= snd (frame_timing f) < 86400)
  /\ (forall f t_stop_last,
         - 86398 * 1000000 <= start_offset f < 0 ->
         classify (fst (frame_timing f)) t_stop_last = Some static).
Proof.
  split.
  - intros f. split; apply timedelta_seconds_range.
  - intros f t1 H. unfold frame_timing, start_offset in *. cbn [fst].
    apply (proj1 (proj2 (proj2 (classify_rule _ t1)))).
    unfold timedelta_seconds.
    set (x := acq_datetime f - radio_start_time f) in *.
    assert (Hq : -86398 <= x / 1000000 <= -1).
    { split; [apply Z.div_le_lower_bound; lia | ].
      assert (x / 1000000 < 0) by (apply Z.div_lt_upper_bound; lia). lia. }
    replace (x / 1000000) with ((x / 1000000 + 86400) + (-1) * 86400) by lia.
    rewrite Z.mod_add by lia. rewrite Z.mod_small by lia. lia.
Qed.

Lemma early_start_is_static_witness :
  classify (fst (frame_timing
                   {| series_id := "before"; tacq := "095950";
                      acq_datetime := -10 * 1000000; frm_dur := 5 * 1000000;
                      radio_start_time := 0; tracer_tag := None |})) 2000
  = Some static.
Proof.
  apply (proj2 early_start_is_static). vm_compute. split; congruence.
Defined.

(** ** Selection for dynamic acquisitions *)

Lemma min_from_least {A : Type} (key : A -> Z) (l : list A) (b : A) :
  (forall x, In x l -> key b <= key x) -> min_from key b l = b.
Proof.
  revert b. induction l as [|x l IH]; intros b H; [reflexivity|].
  simpl. destruct (Z.ltb_spec (key x) (key b)) as [Hlt|_].
  - specialize (H x (or_introl eq_refl)). lia.
  - apply IH. intros y Hy. apply H. now right.
Qed.

Lemma nearest_zero_head (l : list Z) :
  nearest (0 :: l) 0 = Ok (0, 0%nat).
Proof.
  unfold nearest, min_key. cbn [bind].
  rewrite min_from_least by (intros x _; simpl; lia).
  reflexivity.
Qed.

Lemma nearest_in_range (ts : list Z) (target : Z) :
  ts <> [] ->
  exists t i, nearest ts target = Ok (t, i) /\ (i < List.length ts)%nat
              /\ nth_error ts i = Some t.
Proof.
  intros H. destruct (nearest_first_minimum ts target H) as (t & i & Hn & Hi & _).
  exists t, i. split; [exact Hn|]. split; [|exact Hi].
  apply nth_error_Some. congruence.
Qed.

(** X3. For a coffee-break or full dynamic acquisition [explore_series]
    never raises, with or without a SUVr window: it adds exactly one
    descriptor of that kind and no warning, and the selection starts at the
    first frame, at time 0; the stop index is a valid frame position. *)
Theorem dynamic_selection_starts_at_first_frame
        (win : option (Z * Z)) (st : loop_state) (srs_t : list frame)
        (tf0 : Z * Z) (rest : list (Z * Z)) (k : acq_kind) :
  frame_timings srs_t = tf0 :: rest ->
  classify (fst tf0) (snd (last (tf0 :: rest) tf0)) = Some k ->
  k <> static ->
  exists st' d,
    explore_series win st srs_t = Ok st'
    /\ msrs_class st' = msrs_class st ++ [d]
    /\ warnings st' = warnings st
    /\ acq d = [Kind k]
    /\ fst (time d) = 0 /\ fst (idxs d) = 0%nat
    /\ (snd (idxs d) < List.length srs_t)%nat.
Proof.
  intros Ht Hc Hk. destruct srs_t as [|f0 srs]; [discriminate|].
  assert (Hlen : List.length (map snd (tf0 :: rest)) = List.length (f0 :: srs)).
  { rewrite <- Ht. unfold frame_timings. now rewrite !length_map. }
  assert (H0 : fst tf0 = 0).
  { assert (Hr : 0 <= fst tf0 < 86400).
    { unfold frame_timings in Ht. simpl in Ht. injection Ht as <- _.
      apply timedelta_seconds_range. }
    destruct (classify_rule (fst tf0) (snd (last (tf0 :: rest) tf0)))
      as (Hb & Hf & _).
    destruct k; [congruence | apply Hb in Hc | apply Hf in Hc]; lia. }
  assert (Hstart : nearest (map fst (tf0 :: rest)) 0 = Ok (0, 0%nat))
    by (simpl map; rewrite H0; apply nearest_zero_head).
  unfold explore_series. rewrite Ht. cbv zeta. rewrite Hc.
  destruct k; [congruence | |].
  - destruct (nearest_in_range (map snd (tf0 :: rest)) break_time ltac:(discriminate))
      as (t1 & i1 & Hn1 & Hi1 & _).
    unfold select. rewrite Hstart, Hn1. cbn [bind fst snd].
    destruct (tracer st); eexists; eexists; cbn [msrs_class warnings push];
      (split; [reflexivity|]); cbn [msrs_class warnings push acq time idxs fst snd];
      repeat split; rewrite <- Hlen; exact Hi1.
  - destruct (nearest_in_range (map snd (tf0 :: rest)) fulldyn_time ltac:(discriminate))
      as (t1 & i1 & Hn1 & Hi1 & _).
    unfold select. rewrite Hstart, Hn1. cbn [bind fst snd].
    destruct (tracer st); eexists; eexists; cbn [msrs_class warnings push];
      (split; [reflexivity|]); cbn [msrs_class warnings push acq time idxs fst snd];
      repeat split; rewrite <- Hlen; exact Hi1.
Qed.

Lemma dynamic_selection_starts_at_first_frame_witness :
  exists st' d,
    explore_series None
      {| tracer := None; tracer_ := None; msrs_class := []; warnings := [] |}
      Examples.coffee_break_frames = Ok st'
    /\ msrs_class st' = [] ++ [d]
    /\ warnings st' = []
    /\ acq d = [Kind breakdyn]
    /\ fst (time d) = 0 /\ fst (idxs d) = 0%nat
    /\ (snd (idxs d) < List.length Examples.coffee_break_frames)%nat.
Proof.
  apply (dynamic_selection_starts_at_first_frame None
           {| tracer := None; tracer_ := None; msrs_class := []; warnings := [] |}
           Examples.coffee_break_frames (0, 600) [(600, 1200); (1200, 1800); (1800, 2400)]
           breakdyn); [reflexivity | reflexivity | discriminate].
Defined.

(** ** Selection for static acquisitions *)

(** X4. With a SUVr window whose bounds are within the range of the
    floats, a static acquisition always yields exactly one descriptor and
    no exception.  When the coverage test passes the descriptor is tagged
    static and suvr, carries the timings, and its bounds are the nearest
    matches to the window; otherwise one coverage warning is logged and the
    descriptor spans the first start to the last stop with every frame of
    the series.  A lower bound too large for a float, or such an upper
    bound when the test on the lower bound holds, makes the call raise
    [OverflowError]; an upper bound is not looked at when the test on the
    lower bound fails. *)
Theorem static_selection_or_fallback
        (w0 w1 : Z) (st : loop_state) (srs_t : list frame)
        (tf0 : Z * Z) (rest : list (Z * Z)) :
  frame_timings srs_t = tf0 :: rest ->
  classify (fst tf0) (snd (last (tf0 :: rest) tf0)) = Some static ->
  (converts w0 ->
   converts w1 \/ above_lower_margin (fst tf0) w0 = false ->
   exists st' d,
     explore_series (Some (w0, w1)) st srs_t = Ok st'
     /\ msrs_class st' = msrs_class st ++ [d]
     /\ if above_lower_margin (fst tf0) w0
           && below_upper_margin (snd (last (tf0 :: rest) tf0)) w1
        then warnings st' = warnings st
             /\ acq d = [Kind static; Suvr]
             /\ timings d = Some (tf0 :: rest)
             /\ nearest (map fst (tf0 :: rest)) w0 = Ok (fst (time d), fst (idxs d))
             /\ nearest (map snd (tf0 :: rest)) w1 = Ok (snd (time d), snd (idxs d))
        else warnings st' = warnings st ++ [coverage_warning]
             /\ acq d = [Kind static]
             /\ timings d = None
             /\ time d = (fst tf0, snd (last (tf0 :: rest) tf0))
             /\ idxs d = (0%nat, (List.length srs_t - 1)%nat)
             /\ frms d = map series_id srs_t)
  /\ (~ converts w0
      \/ (converts w0 /\ above_lower_margin (fst tf0) w0 = true /\ ~ converts w1) ->
      explore_series (Some (w0, w1)) st srs_t
      = Raise (OverflowError "int too large to convert to float")).
Proof.
  intros Ht Hc. split.
  - intros H0 H1.
    assert (Hcov : covers (fst tf0) (snd (last (tf0 :: rest) tf0)) w0 w1
                   = Ok (above_lower_margin (fst tf0) w0
                         && below_upper_margin (snd (last (tf0 :: rest) tf0)) w1)).
    { destruct H1 as [H1|H1]; [now apply covers_converts|].
      rewrite H1. now apply covers_lower_fails. }
    destruct (explore_series_static w0 w1 st srs_t tf0 rest _ Ht Hc Hcov)
      as (st' & d & Hr & Hm & _ & Hd).
    exists st', d. split; [exact Hr|]. split; [exact Hm|exact Hd].
  - intros Hov. destruct srs_t as [|f0 srs]; [discriminate|].
    unfold explore_series. rewrite Ht. cbv zeta. rewrite Hc.
    rewrite (covers_overflow _ _ _ _ Hov). reflexivity.
Qed.

Lemma static_selection_or_fallback_witness :
  (exists st' d,
      explore_series (Some (3000, 3600))
        {| tracer := None; tracer_ := None; msrs_class := []; warnings := [] |}
        Examples.overlapping_frames = Ok st'
      /\ msrs_class st' = [] ++ [d]
      /\ warnings st' = []
      /\ acq d = [Kind static; Suvr]
      /\ timings d = Some [(3000, 3600); (3100, 3200)]
      /\ nearest [3000; 3100] 3000 = Ok (fst (time d), fst (idxs d))
      /\ nearest [3600; 3200] 3600 = Ok (snd (time d), snd (idxs d)))
  /\ (exists st' d,
         explore_series (Some (2 ^ 63, 2 ^ 1024))
           {| tracer := None; tracer_ := None; msrs_class := []; warnings := [] |}
           [Examples.short_early_frame] = Ok st'
         /\ msrs_class st' = [] ++ [d]
         /\ warnings st' = [] ++ [coverage_warning]
         /\ acq d = [Kind static]
         /\ timings d = None
         /\ time d = (5, 10)
         /\ idxs d = (0%nat, 0%nat)
         /\ frms d = ["early"])
  /\ explore_series (Some (2 ^ 1024, 3600))
       {| tracer := None; tracer_ := None; msrs_class := []; warnings := [] |}
       Examples.overlapping_frames
     = Raise (OverflowError "int too large to convert to float").
Proof.
  split; [|split].
  - apply (proj1 (static_selection_or_fallback 3000 3600
             {| tracer := None; tracer_ := None; msrs_class := []; warnings := [] |}
             Examples.overlapping_frames (3000, 3600) [(3100, 3200)] eq_refl eq_refl)).
    + vm_compute; reflexivity.
    + left. vm_compute; reflexivity.
  - apply (proj1 (static_selection_or_fallback (2 ^ 63) (2 ^ 1024)
             {| tracer := None; tracer_ := None; msrs_class := []; warnings := [] |}
             [Examples.short_early_frame] (5, 10) [] eq_refl eq_refl)).
    + vm_compute; reflexivity.
    + right. vm_compute; reflexivity.
  - apply (proj2 (static_selection_or_fallback (2 ^ 1024) 3600
             {| tracer := None; tracer_ := None; msrs_class := []; warnings := [] |}
             Examples.overlapping_frames (3000, 3600) [(3100, 3200)] eq_refl eq_refl)).
    left. vm_compute. discriminate.
Defined.

Lemma frames_in_range_slice (srs : list frame) : forall k i j : nat,
  frames_in_range srs k i j
  = map series_id (firstn (j + 1 - Nat.max i k) (skipn (i - k) srs)).
Proof.
  induction srs as [|f srs IH]; intros k i j.
  - simpl. now rewrite skipn_nil, firstn_nil.
  - simpl frames_in_range. rewrite IH.
    destruct (Nat.leb_spec i k) as [Hik|Hik]; cbn [andb].
    + replace (i - k)%nat with 0%nat by lia.
      replace (i - S k)%nat with 0%nat by lia. cbn [skipn].
      destruct (Nat.leb_spec k j) as [Hkj|Hkj].
      * replace (j + 1 - Nat.max i k)%nat with (S (j + 1 - Nat.max i (S k))) by lia.
        reflexivity.
      * replace (j + 1 - Nat.max i k)%nat with 0%nat by lia.
        replace (j + 1 - Nat.max i (S k))%nat with 0%nat by lia. reflexivity.
    + replace (i - k)%nat with (S (i - S k)) by lia. cbn [skipn].
      replace (Nat.max i (S k)) with (Nat.max i k) by lia. reflexivity.
Qed.

(** X5. The frames of a descriptor built by nearest-match selection are
    the contiguous run of the time-sorted series from the start index to
    the stop index, both valid positions; there are [stop + 1 - start] of
    them, none when the stop index lies before the start index. *)
Theorem selected_frames_are_contiguous
        (tags : list acq_tag) (srs_t : list frame) (w0 w1 : Z) (d : descriptor) :
  select tags srs_t (frame_timings srs_t) w0 w1 = Ok d ->
  (fst (idxs d) < List.length srs_t)%nat
  /\ (snd (idxs d) < List.length srs_t)%nat
  /\ frms d = map series_id
                  (firstn (snd (idxs d) + 1 - fst (idxs d)) (skipn (fst (idxs d)) srs_t))
  /\ List.length (frms d) = (snd (idxs d) + 1 - fst (idxs d))%nat.
Proof.
  unfold select.
  destruct (nearest (map fst (frame_timings srs_t)) w0) as [[t0 i0]|e] eqn:Hn0;
    [|discriminate].
  destruct (nearest (map snd (frame_timings srs_t)) w1) as [[t1 i1]|e] eqn:Hn1;
    [|discriminate].
  cbn [bind fst snd]. intros H. injection H as <-. cbn [idxs frms fst snd].
  assert (Hne : srs_t <> []).
  { intros ->. discriminate Hn0. }
  assert (Hi0 : (i0 < List.length srs_t)%nat).
  { destruct (nearest_in_range (map fst (frame_timings srs_t)) w0) as (t & i & Hn & Hi & _).
    - destruct srs_t; [congruence|discriminate].
    - rewrite Hn in Hn0. injection Hn0 as _ <-.
      unfold frame_timings in Hi. now rewrite !length_map in Hi. }
  assert (Hi1 : (i1 < List.length srs_t)%nat).
  { destruct (nearest_in_range (map snd (frame_timings srs_t)) w1) as (t & i & Hn & Hi & _).
    - destruct srs_t; [congruence|discriminate].
    - rewrite Hn in Hn1. injection Hn1 as _ <-.
      unfold frame_timings in Hi. now rewrite !length_map in Hi. }
  rewrite frames_in_range_slice. rewrite Nat.sub_0_r, Nat.max_0_r.
  repeat split; try assumption.
  rewrite length_map, length_firstn, length_skipn. lia.
Qed.

Lemma selected_frames_are_contiguous_witness :
  select [Kind static; Suvr] Examples.narrow_frames
         (frame_timings Examples.narrow_frames) 3060 3140
  = Ok {| acq := [Kind static; Suvr]; time := (3100, 3100);
          timings := Some [(3000, 3100); (3100, 3200)];
          idxs := (1%nat, 0%nat); frms := [] |}
  /\ (1 < 2)%nat /\ (0 < 2)%nat
  /\ [] = map series_id (firstn (0 + 1 - 1) (skipn 1 Examples.narrow_frames))
  /\ List.length (@nil string) = (0 + 1 - 1)%nat.
Proof.
  split; [reflexivity|].
  apply (selected_frames_are_contiguous [Kind static; Suvr] Examples.narrow_frames
           3060 3140
           {| acq := [Kind static; Suvr]; time := (3100, 3100);
              timings := Some [(3000, 3100); (3100, 3200)];
              idxs := (1%nat, 0%nat); frms := [] |}).
  reflexivity.
Defined.

(** ** Tracer inference *)

(** X6. The tracer read from a DICOM tracer string is decided by priority:
    fbp if the string contains one of its synonyms, else fbb, else flute,
    and none when no synonym of the table occurs. *)
Theorem match_tracer_priority (tracer_dcm : string) :
  match_tracer tracer_dcm None
  = if existsb (fun n => contains n tracer_dcm) ["fbp"; "florbetapir"] then Some "fbp"
    else if existsb (fun n => contains n tracer_dcm) ["fbb"; "florbetaben"] then Some "fbb"
    else if existsb (fun n => contains n tracer_dcm)
                    ["flt"; "flut"; "flute"; "flutemetamol"] then Some "flute"
    else None.
Proof.
  unfold match_tracer, tracer_names. cbn [fold_left fst snd existsb].
  destruct (contains "flt" tracer_dcm), (contains "flut" tracer_dcm),
    (contains "flute" tracer_dcm), (contains "flutemetamol" tracer_dcm),
    (contains "fbb" tracer_dcm), (contains "florbetaben" tracer_dcm),
    (contains "fbp" tracer_dcm), (contains "florbetapir" tracer_dcm); reflexivity.
Qed.

(** X7. The duration test for a static acquisition cannot tell flute from
    fbb: their windows are the same, so the candidate list gains both, in
    that order, or neither, followed by fbp when its own test passes. *)
Theorem static_candidates_flute_fbb_together (acq_dur t_start0 : Z) (tracer_ : list string) :
  static_candidates acq_dur t_start0 tracer_
  = tracer_
    ++ (if above_lower_margin acq_dur 1200 && below_upper_margin acq_dur 1200
           && above_lower_margin t_start0 5400
        then ["flute"; "fbb"] else [])
    ++ (if above_lower_margin acq_dur 600 && below_upper_margin acq_dur 600
           && above_lower_margin t_start0 3000
        then ["fbp"] else []).
Proof.
  unfold static_candidates, suvr_twindow. cbn [fold_left].
  change (90 * 60) with 5400. change (50 * 60) with 3000.
  destruct (above_lower_margin acq_dur 1200 && below_upper_margin acq_dur 1200
            && above_lower_margin t_start0 5400);
    destruct (above_lower_margin acq_dur 600 && below_upper_margin acq_dur 600
              && above_lower_margin t_start0 3000);
    rewrite <- ?app_assoc, ?app_nil_r; reflexivity.
Qed.

(** ** The loop over series groups *)

Lemma explore_series_with_window_total (w : Z * Z) (st : loop_state) (srs_t : list frame) :
  converts (fst w) -> converts (snd w) ->
  srs_t <> [] ->
  exists st',
    explore_series (Some w) st srs_t = Ok st'
    /\ (List.length (msrs_class st') <= List.length (msrs_class st) + 1)%nat
    /\ (forall t, tracer st = Some t -> tracer st' = Some t).
Proof.
  intros H0 H1 Hne. destruct w as [w0 w1]. cbn [fst snd] in H0, H1.
  destruct (frame_timings srs_t) as [|tf0 rest] eqn:Ht.
  { destruct srs_t; [congruence|discriminate]. }
  destruct (classify (fst tf0) (snd (last (tf0 :: rest) tf0))) as [k|] eqn:Hc.
  - destruct k.
    + destruct (explore_series_static w0 w1 st srs_t tf0 rest _ Ht Hc
                  (covers_converts _ _ _ _ H0 H1)) as (st' & d & Hr & Hm & Htr & _).
      exists st'. split; [exact Hr|]. split; [|exact Htr].
      rewrite Hm, length_app. cbn [List.length]. lia.
    + destruct (explore_series_dynamic (Some (w0, w1)) st srs_t tf0 rest breakdyn Ht Hc
                  ltac:(discriminate)) as (st' & d & Hr & Hm & Htr & _).
      exists st'. split; [exact Hr|]. split; [|exact Htr].
      rewrite Hm, length_app. cbn [List.length]. lia.
    + destruct (explore_series_dynamic (Some (w0, w1)) st srs_t tf0 rest fulldyn Ht Hc
                  ltac:(discriminate)) as (st' & d & Hr & Hm & Htr & _).
      exists st'. split; [exact Hr|]. split; [|exact Htr].
      rewrite Hm, length_app. cbn [List.length]. lia.
  - destruct srs_t as [|f0 srs]; [congruence|].
    unfold explore_series. rewrite Ht. cbv zeta. rewrite Hc.
    destruct (tracer st) eqn:Etr; eexists; (split; [reflexivity|]);
      cbn [msrs_class tracer]; (split; [lia|]); intros t Hsome; congruence.
Qed.

Lemma explore_loop_with_window_total (w : Z * Z) (msrs : list (list frame)) :
  converts (fst w) -> converts (snd w) ->
  Forall (fun m => m <> []) msrs ->
  forall st,
  exists st',
    explore_loop (Some w) st msrs = Ok st'
    /\ (List.length (msrs_class st') <= List.length (msrs_class st) + List.length msrs)%nat
    /\ (forall t, tracer st = Some t -> tracer st' = Some t).
Proof.
  intros H0 H1. induction 1 as [|m msrs Hm _ IH]; intros st.
  - exists st. simpl. split; [reflexivity|]. split; [lia|auto].
  - destruct (explore_series_with_window_total w st (sort_by_tacq m) H0 H1
                (sort_by_tacq_nonempty m Hm)) as (st1 & Hs1 & Hl1 & Ht1).
    destruct (IH st1) as (st2 & Hs2 & Hl2 & Ht2).
    exists st2. simpl. rewrite Hs1. cbn [bind]. split; [exact Hs2|].
    split; [lia|]. intros t Ht. apply Ht2, Ht1, Ht.
Qed.

(** X8. On a folder whose series groups are all non-empty, [explore_input]
    called with a SUVr window whose bounds are within the range of the
    floats never raises: it returns at most one descriptor per group, and a
    tracer given by the caller is returned unchanged.  With a lower bound
    of [2^1024] a static group makes it raise [OverflowError]. *)
Theorem explore_input_with_window_never_raises :
  (forall (msrs : list (list frame)) (tracer0 : option string) (w : Z * Z),
      converts (fst w) -> converts (snd w) ->
      Forall (fun m => m <> []) msrs ->
      exists st,
        explore_input true msrs tracer0 (Some w) = Ok st
        /\ (List.length (msrs_class st) <= List.length msrs)%nat
        /\ (forall t, tracer0 = Some t -> tracer st = Some t))
  /\ ~ converts (2 ^ 1024)
  /\ explore_input true [Examples.coffee_break_frames; Examples.narrow_frames]
                    (Some "fbb") (Some (2 ^ 1024, 3600))
     = Raise (OverflowError "int too large to convert to float").
Proof.
  split; [|split; [vm_compute; discriminate | vm_compute; reflexivity]].
  intros msrs tracer0 w H0 H1 H. unfold explore_input.
  destruct (explore_loop_with_window_total w msrs H0 H1 H
              {| tracer := tracer0; tracer_ := None; msrs_class := []; warnings := [] |})
    as (st & Hr & Hl & Ht).
  exists st. split; [exact Hr|]. split; [exact Hl|exact Ht].
Qed.

Lemma explore_input_with_window_never_raises_witness :
  exists st,
    explore_input true [Examples.coffee_break_frames; Examples.narrow_frames]
                  (Some "fbb") (Some (3000, 3600)) = Ok st
    /\ (List.length (msrs_class st) <= 2)%nat
    /\ (forall t, Some "fbb" = Some t -> tracer st = Some t).
Proof.
  apply (proj1 explore_input_with_window_never_raises
           [Examples.coffee_break_frames; Examples.narrow_frames] (Some "fbb") (3000, 3600)).
  - vm_compute; reflexivity.
  - vm_compute; reflexivity.
  - repeat constructor; discriminate.
Defined.

End ClassifierCoverage.

(** * Further properties of the frame alignment *)

Section AlignmentCoverage.

Import Preproc Props.

(** ** Conversion of the frames *)

Lemma add_entries_effect (names : list string) : forall w,
  exists w', add_entries names w = (w', Ok tt)
             /\ calls w' = calls w
             /\ niidir_exists w' = niidir_exists w
             /\ (all_files w -> all_files w').
Proof.
  induction names as [|n names IH]; intros w.
  - exists w. repeat split; auto.
  - cbn [add_entries]. unfold mbind at 1.
    unfold add_entry at 1.
    set (w1 := {| niidir_exists := niidir_exists w;
                  entries := if has_entry n w then entries w else entries w ++ [(n, File)];
                  calls := calls w |}).
    destruct (IH w1) as (w' & Hr & Hc & Hn & Hf).
    exists w'. split; [exact Hr|]. split; [exact Hc|]. split; [exact Hn|].
    intros Hw. apply Hf. unfold all_files, w1. cbn [entries].
    destruct (has_entry n w); [exact Hw|].
    apply Forall_app. split; [exact Hw|]. constructor; [now left|constructor].
Qed.

Lemma convert_frames_spec (C : collaborators) (suvr_tdata : list (string * series_data))
      (frms : list string) : forall w w' r,
  convert_frames C suvr_tdata frms w = (w', r) ->
  niidir_exists w' = niidir_exists w
  /\ (all_files w -> all_files w')
  /\ exists added,
      calls w' = calls w ++ added
      /\ forallb is_conversion added = true
      /\ match r with
         | Ok nii_frms => List.length nii_frms = List.length frms
                          /\ List.length added = List.length frms
         | Raise e => (exists k, e = KeyError k)
                      \/ e = ValueError "Unexpected number of converted NIfTI files"
         end.
Proof.
  induction frms as [|k frms IH]; intros w w' r H.
  - cbn in H. injection H as <- <-. repeat split; auto.
    exists []. rewrite app_nil_r. repeat split.
  - cbn [convert_frames] in H. unfold mbind at 1, lift at 1 in H.
    destruct (lookup_series suvr_tdata k) as [d|e] eqn:Hl.
    + unfold mbind at 1, record_call at 1 in H.
      unfold mbind at 1 in H.
      match type of H with context [add_entries ?ns ?w0] =>
        destruct (add_entries_effect ns w0) as (w2 & Ha & Hc2 & Hn2 & Hf2) end.
      rewrite Ha in H. cbn [calls niidir_exists] in Hc2, Hn2.
      unfold mbind at 1, glob_nii at 1 in H.
      destruct (map fst (filter _ (entries w2))) as [|f [|f' fs]].
      * unfold raise in H. injection H as <- <-.
        split; [exact Hn2|]. split; [intros Hw; apply Hf2; exact Hw|].
        exists [Dcm2niix (dicom_dir d)]. split; [exact Hc2|]. split; [reflexivity|].
        now right.
      * unfold mbind at 1 in H.
        destruct (convert_frames C suvr_tdata frms w2) as [w3 [fs|e]] eqn:Hrec.
        -- unfold ret in H. injection H as <- <-.
           destruct (IH _ _ _ Hrec) as (Hn3 & Hf3 & added & Hc3 & Hall & Hlen & Hladd).
           split; [congruence|]. split; [intros Hw; apply Hf3, Hf2, Hw|].
           exists (Dcm2niix (dicom_dir d) :: added).
           split; [rewrite Hc3, Hc2, <- app_assoc; reflexivity|].
           split; [exact Hall|]. cbn [List.length]. split; lia.
        -- injection H as <- <-.
           destruct (IH _ _ _ Hrec) as (Hn3 & Hf3 & added & Hc3 & Hall & Herr).
           split; [congruence|]. split; [intros Hw; apply Hf3, Hf2, Hw|].
           exists (Dcm2niix (dicom_dir d) :: added).
           split; [rewrite Hc3, Hc2, <- app_assoc; reflexivity|].
           split; [exact Hall|exact Herr].
      * unfold raise in H. injection H as <- <-.
        split; [exact Hn2|]. split; [intros Hw; apply Hf2; exact Hw|].
        exists [Dcm2niix (dicom_dir d)]. split; [exact Hc2|]. split; [reflexivity|].
        now right.
    + injection H as <- <-. repeat split; auto.
      exists []. rewrite app_nil_r. repeat split. left. 
      unfold lookup_series in Hl. destruct (find _ _); [discriminate|].
      injection Hl as <-. eauto.
Qed.

(** X9. Whatever its outcome, the conversion loop of [align_suvr] calls
    only the DICOM converter; when it succeeds it has made one call and
    found one NIfTI file per selected frame, and when it fails the
    exception is the [KeyError] of a frame missing from [suvr_tdata] or the
    [ValueError] of a conversion that did not leave exactly one file. *)
Theorem convert_frames_outcomes (C : collaborators)
        (suvr_tdata : list (string * series_data)) (frms : list string) (w : world) :
  exists added,
    calls (fst (convert_frames C suvr_tdata frms w)) = calls w ++ added
    /\ forallb is_conversion added = true
    /\ match snd (convert_frames C suvr_tdata frms w) with
       | Ok nii_frms => List.length nii_frms = List.length frms
                        /\ List.length added = List.length frms
       | Raise e => (exists k, e = KeyError k)
                    \/ e = ValueError "Unexpected number of converted NIfTI files"
       end.
Proof.
  destruct (convert_frames C suvr_tdata frms w) as [w' r] eqn:H.
  destruct (convert_frames_spec _ _ _ _ _ _ H) as (_ & _ & added & Hadd).
  exists added. exact Hadd.
Qed.

(** ** Pairwise registration *)

Lemma position_from_in (k : string) (l : list string) : forall a,
  In k l -> exists i, position_from k l a = Ok (a + i)%nat /\ (i < List.length l)%nat.
Proof.
  induction l as [|y l IH]; intros a Hin; [destruct Hin|].
  simpl. destruct (String.eqb_spec y k) as [->|Hne].
  - exists 0%nat. split; [f_equal; lia | simpl; lia].
  - destruct Hin as [->|Hin]; [congruence|].
    destruct (IH (S a) Hin) as (i & Hp & Hi).
    exists (S i). split; [rewrite Hp; f_equal; lia | simpl; lia].
Qed.

Lemma getitem_nat {A : Type} (l : list A) (i : nat) :
  (i < List.length l)%nat -> exists x, getitem l (Z.of_nat i) = Ok x.
Proof.
  intros Hi. unfold getitem.
  destruct (Z.ltb_spec (Z.of_nat i) 0); [lia|].
  destruct (Z.ltb_spec (Z.of_nat i) 0); [lia|].
  destruct (Z.leb_spec (Z.of_nat (List.length l)) (Z.of_nat i)); [lia|]. cbn [orb].
  rewrite Nat2Z.id.
  destruct (nth_error l i) eqn:E; [eauto|].
  apply nth_error_None in E. lia.
Qed.

Lemma combinations2_in {A : Type} (l : list A) (c : A * A) :
  In c (combinations2 l) -> In (fst c) l /\ In (snd c) l.
Proof.
  induction l as [|x l IH]; [intros []|].
  simpl. intros H. apply in_app_or in H. destruct H as [H|H].
  - apply in_map_iff in H. destruct H as (y & <- & Hy). simpl. auto.
  - destruct (IH H). auto.
Qed.

Lemma combinations2_length {A : Type} (l : list A) :
  (2 * List.length (combinations2 l) = List.length l * (List.length l - 1))%nat.
Proof.
  induction l as [|x l IH]; [reflexivity|].
  simpl combinations2. rewrite length_app, length_map. cbn [List.length].
  destruct (List.length l); nia.
Qed.

Lemma register_pairs_ok (C : collaborators) (frms nii_frms : list string) :
  List.length nii_frms = List.length frms ->
  forall pairs R Sa w,
    (forall c, In c pairs -> In (fst c) frms /\ In (snd c) frms) ->
    exists w' R' Sa' added,
      register_pairs C frms nii_frms pairs R Sa w = (w', Ok (R', Sa'))
      /\ niidir_exists w' = niidir_exists w
      /\ (all_files w -> all_files w')
      /\ calls w' = calls w ++ added
      /\ List.length added = (2 * List.length pairs)%nat
      /\ forallb is_registration added = true
      /\ (forall a b, In (CoregSpm a b) added -> In (CoregSpm b a) added)
      /\ List.length R' = (List.length R + 2 * List.length pairs)%nat
      /\ List.length Sa' = (List.length Sa + 2 * List.length pairs)%nat.
Proof.
  intros Hlen. induction pairs as [|c pairs IH]; intros R Sa w Hin.
  - exists w, R, Sa, []. cbn. rewrite app_nil_r.
    repeat split; auto; try lia; try tauto.
  - destruct (Hin c (or_introl eq_refl)) as [H0 H1].
    destruct (position_from_in _ _ 0%nat H0) as (i0 & Hp0 & Hi0).
    destruct (position_from_in _ _ 0%nat H1) as (i1 & Hp1 & Hi1).
    cbn [Nat.add] in Hp0, Hp1.
    destruct (getitem_nat nii_frms i0 ltac:(lia)) as (f0 & Hg0).
    destruct (getitem_nat nii_frms i1 ltac:(lia)) as (f1 & Hg1).
    cbn [register_pairs].
    rewrite (mbind_ok (lift _) _ w w i0) by (unfold lift; now rewrite Hp0).
    rewrite (mbind_ok (lift _) _ w w i1) by (unfold lift; now rewrite Hp1).
    rewrite (mbind_ok (lift _) _ w w f0) by (unfold lift; now rewrite Hg0).
    rewrite (mbind_ok (lift _) _ w w f1) by (unfold lift; now rewrite Hg1).
    rewrite (mbind_ok (record_call _) _ w (fst (record_call (CoregSpm f0 f1) w)) tt)
      by reflexivity.
    destruct (add_entries_effect (coreg_spm_files C f0 f1)
                (fst (record_call (CoregSpm f0 f1) w)))
      as (w2 & Ha2 & Hc2 & Hn2 & Hf2).
    rewrite (mbind_ok _ _ _ _ _ Ha2). cbv zeta.
    rewrite (mbind_ok (record_call _) _ w2 (fst (record_call (CoregSpm f1 f0) w2)) tt)
      by reflexivity.
    destruct (add_entries_effect (coreg_spm_files C f1 f0)
                (fst (record_call (CoregSpm f1 f0) w2)))
      as (w4 & Ha4 & Hc4 & Hn4 & Hf4).
    rewrite (mbind_ok _ _ _ _ _ Ha4).
    match goal with |- context [register_pairs C frms nii_frms pairs ?R1 ?S1 w4] =>
      destruct (IH R1 S1 w4 (fun c' Hc' => Hin c' (or_intror Hc')))
        as (w' & R' & Sa' & added & Hr & Hn & Hf & Hc & Hl & Hall & Hsym & HR & HS) end.
    exists w', R', Sa', (CoregSpm f0 f1 :: CoregSpm f1 f0 :: added).
    cbn [record_call fst calls entries niidir_exists List.length] in *.
    split; [exact Hr|].
    split; [congruence|].
    split; [intros Hw; apply Hf, Hf4, Hf2, Hw|].
    split; [rewrite Hc, Hc4, Hc2, <- !app_assoc; reflexivity|].
    split; [lia|]. split; [exact Hall|].
    split; [|split; lia].
    intros a b [Hab|[Hab|Hab]].
    + injection Hab as <- <-. right. now left.
    + injection Hab as <- <-. now left.
    + right. right. now apply Hsym.
Qed.

(** X10. When every selected frame has its NIfTI file, the registration
    loop of [align_suvr] cannot fail: for [n] frames it runs the
    registration [n * (n - 1)] times, a registration of two files always
    together with the registration in the other direction, and writes as
    many cells of the motion matrix and of the affine table. *)
Theorem register_all_pairs (C : collaborators) (frms nii_frms : list string) (w : world) :
  List.length nii_frms = List.length frms ->
  exists w' R Sa added,
    register_pairs C frms nii_frms (combinations2 frms) [] [] w = (w', Ok (R, Sa))
    /\ calls w' = calls w ++ added
    /\ forallb is_registration added = true
    /\ (forall a b, In (CoregSpm a b) added -> In (CoregSpm b a) added)
    /\ List.length added = (List.length frms * (List.length frms - 1))%nat
    /\ List.length R = (List.length frms * (List.length frms - 1))%nat
    /\ List.length Sa = (List.length frms * (List.length frms - 1))%nat.
Proof.
  intros Hlen.
  destruct (register_pairs_ok C frms nii_frms Hlen (combinations2 frms) [] [] w
              (combinations2_in frms))
    as (w' & R & Sa & added & Hr & _ & _ & Hc & Hl & Hall & Hsym & HR & HS).
  exists w', R, Sa, added. rewrite <- combinations2_length.
  cbn [List.length] in HR, HS. repeat split; assumption || lia.
Qed.

Lemma register_all_pairs_witness :
  exists w' R Sa added,
    register_pairs Examples.plain_collaborators ["k1"; "k2"; "k3"]
      ["a.nii"; "b.nii"; "c.nii"] (combinations2 ["k1"; "k2"; "k3"]) [] []
      Examples.empty_world = (w', Ok (R, Sa))
    /\ calls w' = calls Examples.empty_world ++ added
    /\ forallb is_registration added = true
    /\ (forall a b, In (CoregSpm a b) added -> In (CoregSpm b a) added)
    /\ List.length added = (3 * (3 - 1))%nat
    /\ List.length R = (3 * (3 - 1))%nat
    /\ List.length Sa = (3 * (3 - 1))%nat.
Proof.
  apply (register_all_pairs Examples.plain_collaborators ["k1"; "k2"; "k3"]
           ["a.nii"; "b.nii"; "c.nii"] Examples.empty_world).
  reflexivity.
Defined.

(** ** A whole recomputation *)

Lemma resample_frames_pres (C : collaborators) (nii_frms : list string) (ref : string)
      (rfrm : nat) (Sa : cells string) :
  forall ifrms w w' r,
    resample_frames C nii_frms ref rfrm Sa ifrms w = (w', r) ->
    niidir_exists w' = niidir_exists w /\ (all_files w -> all_files w').
Proof.
  induction ifrms as [|i ifrms IH]; intros w w' r H.
  - cbn in H. injection H as <- _. auto.
  - cbn [resample_frames] in H. destruct (Nat.eqb i rfrm); [now apply IH in H|].
    unfold mbind, lift, record_call, add_entry in H.
    destruct (getitem nii_frms _); [|injection H as <- _; auto].
    apply IH in H. cbn [entries niidir_exists] in H. destruct H as [Hn Hf].
    split; [exact Hn|]. intros Hw. apply Hf. unfold all_files. cbn [entries].
    destruct (has_entry _ _); [exact Hw|].
    apply Forall_app. split; [exact Hw|]. constructor; [now right|constructor].
Qed.

Lemma is_file_after_add (name : string) (w : world) :
  niidir_exists w = true -> all_files w -> name <> "SPM-aligned" ->
  is_file name (fst (add_entry name File w)) = (fst (add_entry name File w), Ok true).
Proof.
  intros Hn Hf Hname. unfold is_file, add_entry. cbn [fst niidir_exists entries].
  rewrite Hn. cbn [andb]. f_equal. f_equal.
  unfold has_entry. destruct (existsb _ (entries w)) eqn:E.
  - apply existsb_exists in E. destruct E as ([n k] & Hin & Heq).
    apply existsb_exists. exists (n, k). split; [exact Hin|].
    unfold all_files in Hf. rewrite Forall_forall in Hf.
    specialize (Hf _ Hin). cbn [fst snd] in *.
    destruct Hf as [->|Hf]; [exact Heq|].
    injection Hf as -> _. apply String.eqb_eq in Heq. congruence.
  - rewrite existsb_app. cbn. rewrite String.eqb_refl. apply orb_true_r.
Qed.

Lemma aligned_name_not_resampled (C : collaborators) (d0 : series_data) :
  aligned_name C d0 <> "SPM-aligned".
Proof. unfold aligned_name. cbn. discriminate. Qed.

Lemma prepared_exists (w : world) : niidir_exists (prepared w) = true.
Proof. reflexivity. Qed.

(** The cache branch, step by step. *)
Lemma align_suvr_on_cache_hit (C : collaborators)
      (suvr_tdata : list (string * series_data)) (frms : list string)
      (outpath : option string) (w : world) (d0 : series_data) :
  first_series suvr_tdata = Ok d0 ->
  is_file (aligned_name C d0) w = (w, Ok true) ->
  align_suvr C suvr_tdata frms outpath false w
  = (prepared w, Raise (UnboundLocalError "R")).
Proof.
  intros Hfirst Hfile. apply is_file_prepared in Hfile.
  unfold align_suvr.
  rewrite (mbind_ok _ _ w w tt)
    by (destruct outpath; unfold mbind, lift, ret; rewrite ?Hfirst; reflexivity).
  rewrite (mbind_ok create_niidir _ w (fst (create_niidir w)) tt) by reflexivity.
  rewrite (mbind_ok (add_entry "SPM-aligned" Dir) _ _ (prepared w) tt) by reflexivity.
  rewrite (mbind_ok (lift (first_series suvr_tdata)) _ _ (prepared w) d0)
    by (unfold lift; now rewrite Hfirst).
  cbv zeta. rewrite (mbind_ok _ _ _ _ _ Hfile).
  reflexivity.
Qed.

(** Whatever [align_suvr] returns normally, it has written the aligned
    file it names. *)
Lemma align_suvr_success_leaves_file (C : collaborators)
      (suvr_tdata : list (string * series_data)) (frms : list string)
      (outpath : option string) (reg_force : bool) (w w1 : world) (r : aligned) :
  align_suvr C suvr_tdata frms outpath reg_force w = (w1, Ok r) ->
  exists d0,
    first_series suvr_tdata = Ok d0
    /\ fpet r = aligned_name C d0
    /\ is_file (aligned_name C d0) w1 = (w1, Ok true).
Proof.
  unfold align_suvr. intros H.
  destruct (first_series suvr_tdata) as [d0|e] eqn:Hfirst.
  2:{ destruct outpath; unfold mbind, lift, ret, create_niidir, add_entry in H;
        discriminate. }
  exists d0. split; [reflexivity|].
  rewrite (mbind_ok _ _ w w tt) in H
    by (destruct outpath; unfold mbind, lift, ret; reflexivity).
  rewrite (mbind_ok create_niidir _ w (fst (create_niidir w)) tt) in H by reflexivity.
  rewrite (mbind_ok (add_entry "SPM-aligned" Dir) _ _ (prepared w) tt) in H by reflexivity.
  rewrite (mbind_ok (lift (Ok d0)) _ _ (prepared w) d0) in H by reflexivity.
  cbv zeta in H.
  unfold mbind at 1 in H. unfold is_file at 1 in H.
  destruct (reg_force || negb _) eqn:Hrun.
  2:{ unfold mbind, ret, raise in H. discriminate. }
  unfold mbind at 1 in H.
  unfold mbind at 1, purge at 1 in H.
  unfold mbind at 1 in H.
  match type of H with context [convert_frames ?C0 ?t ?f ?w0] =>
    set (wp := w0) in * end.
  destruct (convert_frames C suvr_tdata frms wp) as [wc [nii|e]] eqn:Hconv;
    [|discriminate].
  destruct (convert_frames_spec _ _ _ _ _ _ Hconv)
    as (Hnc & Hfc & _ & _ & _ & Hlen & _).
  unfold mbind at 1 in H.
  destruct (register_pairs_ok C frms nii Hlen (combinations2 frms) [] [] wc
              (combinations2_in frms))
    as (wr & R & Sa & regs & Hreg & Hnr & Hfr & _).
  rewrite Hreg in H.
  unfold mbind at 1, lift at 1 in H.
  destruct (argmin _) as [rfrm|e]; [|discriminate].
  unfold mbind at 1, lift at 1 in H.
  destruct (getitem nii (Z.of_nat rfrm)) as [ref|e]; [|discriminate].
  unfold mbind at 1, record_call at 1 in H.
  unfold mbind at 1 in H.
  match type of H with context [resample_frames ?a ?b ?c ?d ?e ?f ?w0] =>
    destruct (resample_frames a b c d e f w0) as [ws [[]|e']] eqn:Hres;
      [|discriminate] end.
  destruct (resample_frames_pres _ _ _ _ _ _ _ _ _ Hres) as (Hns & Hfs).
  cbn [niidir_exists] in Hns.
  unfold mbind at 1, record_call at 1 in H.
  unfold mbind at 1 in H.
  match type of H with context [add_entry ?n File ?w0] =>
    pose proof (is_file_after_add n w0) as Hfin;
    destruct (add_entry n File w0) as [wf [[]|e']] eqn:Hadd
  end; [|discriminate].
  unfold ret in H. injection H as <- <-. cbn [fpet].
  split; [reflexivity|]. cbn [fst] in Hfin. apply Hfin.
  - cbn [niidir_exists]. rewrite Hns, Hnr, Hnc. reflexivity.
  - change (all_files ws). apply Hfs. change (all_files wr).
    apply Hfr, Hfc. unfold all_files, wp. cbn. constructor.
  - apply aligned_name_not_resampled.
Qed.

Lemma argmin_from_bound (l : list float) : forall best ib i,
  (ib < i)%nat -> (argmin_from best ib i l < i + List.length l)%nat.
Proof.
  induction l as [|x l IH]; intros best ib i H; simpl; [lia|].
  destruct (PrimFloat.leb best x).
  - specialize (IH best ib (S i) ltac:(lia)). lia.
  - destruct (PrimFloat.is_nan x); [lia|].
    specialize (IH x i (S i) ltac:(lia)). lia.
Qed.

Lemma argmin_ok (l : list float) :
  l <> [] -> exists i, argmin l = Ok i /\ (i < List.length l)%nat.
Proof.
  destruct l as [|x l]; [congruence|]. intros _. eexists. split; [reflexivity|].
  pose proof (argmin_from_bound l x 0 1 ltac:(lia)).
  destruct (PrimFloat.is_nan x); simpl; lia.
Qed.

Lemma others_count (r : nat) : forall n a,
  List.length (filter (fun i => negb (Nat.eqb i r)) (seq a n))
  = (n - (if (Nat.leb a r && Nat.ltb r (a + n))%bool then 1 else 0))%nat.
Proof.
  induction n as [|n IH]; intros a.
  - simpl. destruct (Nat.leb a r && Nat.ltb r (a + 0))%bool; reflexivity.
  - cbn [seq filter].
    destruct (Nat.eqb_spec a r) as [Heq|Hne]; cbn [negb List.length]; rewrite IH;
      destruct (Nat.leb_spec (S a) r); destruct (Nat.leb_spec a r);
      destruct (Nat.ltb_spec r (S a + n)); destruct (Nat.ltb_spec r (a + S n));
      cbn [andb]; lia.
Qed.

Lemma resample_frames_ok (C : collaborators) (nii_frms : list string) (ref : string)
      (rfrm : nat) (Sa : cells string) :
  forall ifrms w,
    (forall i, In i ifrms -> (i < List.length nii_frms)%nat) ->
    exists w' added,
      resample_frames C nii_frms ref rfrm Sa ifrms w = (w', Ok tt)
      /\ calls w' = calls w ++ added
      /\ forallb (fun c => negb (is_registration c || is_conversion c)) added = true
      /\ List.length added
         = (2 * List.length (filter (fun i => negb (Nat.eqb i rfrm)) ifrms))%nat.
Proof.
  induction ifrms as [|i ifrms IH]; intros w Hin.
  - exists w, []. cbn. rewrite app_nil_r. auto.
  - cbn [resample_frames filter].
    destruct (Nat.eqb i rfrm); cbn [negb].
    + apply IH. intros j Hj. apply Hin. now right.
    + destruct (getitem_nat nii_frms i (Hin i (or_introl eq_refl))) as (flo & Hg).
      unfold mbind, lift, record_call, add_entry. rewrite Hg.
      match goal with |- context [resample_frames C nii_frms ref rfrm Sa ifrms ?w1] =>
        destruct (IH w1 (fun j Hj => Hin j (or_intror Hj)))
          as (w' & added & Hr & Hc & Hall & Hl) end.
      cbn [calls] in Hc.
      exists w', (ResampleSpm ref flo
                  :: GetNii (resample_spm C ref flo (cell Sa rfrm i)) :: added).
      split; [exact Hr|]. split; [rewrite Hc, <- !app_assoc; reflexivity|].
      split; [exact Hall|]. cbn [List.length]. lia.
Qed.

(** X11. A recomputation succeeds whenever the conversions do and at least
    one frame is selected: [align_suvr] then returns the aligned file's
    name, having made, after the conversions, [n * (n - 1)] registration
    calls, then [2 * n - 1] reading and resampling calls, and last the call
    that writes the aligned file. *)
Theorem align_suvr_recompute_succeeds (C : collaborators)
        (suvr_tdata : list (string * series_data)) (frms : list string)
        (outpath : option string) (reg_force : bool) (w wc : world)
        (d0 : series_data) (nii_frms : list string) :
  first_series suvr_tdata = Ok d0 ->
  reg_force = true \/ is_file (aligned_name C d0) (prepared w) = (prepared w, Ok false) ->
  convert_frames C suvr_tdata frms (purged w) = (wc, Ok nii_frms) ->
  frms <> [] ->
  exists w' R Sa regs mid,
    align_suvr C suvr_tdata frms outpath reg_force w
    = (w', Ok {| fpet := aligned_name C d0; Metric := R; faff := Sa |})
    /\ calls w' = calls wc ++ regs ++ mid ++ [Array2Nii (aligned_name C d0)]
    /\ forallb is_registration regs = true
    /\ List.length regs = (List.length frms * (List.length frms - 1))%nat
    /\ forallb (fun c => negb (is_registration c || is_conversion c)) mid = true
    /\ List.length mid = (2 * List.length frms - 1)%nat.
Proof.
  intros Hfirst Hrun Hconv Hne.
  destruct (convert_frames_spec _ _ _ _ _ _ Hconv) as (_ & _ & _ & _ & _ & Hlen & _).
  destruct (register_pairs_ok C frms nii_frms Hlen (combinations2 frms) [] [] wc
              (combinations2_in frms))
    as (wr & R & Sa & regs & Hreg & _ & _ & Hcr & Hlr & Hallr & _ & _ & _).
  assert (Hn : (0 < List.length nii_frms)%nat)
    by (rewrite Hlen; destruct frms; [congruence|simpl; lia]).
  destruct (argmin_ok (motion_totals (List.length nii_frms) R)) as (rfrm & Harg & Hrf).
  { unfold motion_totals. destruct (List.length nii_frms); [lia|discriminate]. }
  unfold motion_totals in Hrf. rewrite length_map, length_seq in Hrf.
  destruct (getitem_nat nii_frms rfrm Hrf) as (ref & Href).
  set (wg := {| niidir_exists := niidir_exists wr; entries := entries wr;
                calls := calls wr ++ [GetNii ref] |}).
  destruct (resample_frames_ok C nii_frms ref rfrm Sa (seq 0 (List.length nii_frms)) wg)
    as (ws & adds & Hres & Hcs & Halls & Hls).
  { intros i Hi. apply in_seq in Hi. lia. }
  rewrite others_count in Hls.
  set (ww := {| niidir_exists := niidir_exists ws; entries := entries ws;
                calls := calls ws ++ [Array2Nii (aligned_name C d0)] |}).
  exists (fst (add_entry (aligned_name C d0) File ww)), R, Sa, regs, (GetNii ref :: adds).
  split.
  - unfold align_suvr.
    rewrite (mbind_ok _ _ w w tt)
      by (destruct outpath; unfold mbind, lift, ret; rewrite ?Hfirst; reflexivity).
    rewrite (mbind_ok create_niidir _ w (fst (create_niidir w)) tt) by reflexivity.
    rewrite (mbind_ok (add_entry "SPM-aligned" Dir) _ _ (prepared w) tt) by reflexivity.
    rewrite (mbind_ok (lift (first_series suvr_tdata)) _ _ (prepared w) d0)
      by (unfold lift; now rewrite Hfirst).
    cbv zeta.
    assert (Hbranch : exists b, is_file (aligned_name C d0) (prepared w) = (prepared w, Ok b)
                                /\ reg_force || negb b = true).
    { destruct Hrun as [->|Hf]; [eexists; split; reflexivity|].
      exists false. split; [exact Hf|apply orb_true_r]. }
    destruct Hbranch as (b & Hb & Hcond).
    rewrite (mbind_ok _ _ _ _ _ Hb). rewrite Hcond.
    rewrite (mbind_ok _ _ (prepared w) (fst (add_entry (aligned_name C d0) File ww))
                      (Some (R, Sa))); [reflexivity|].
    rewrite (mbind_ok purge _ (prepared w) (purged w) tt) by reflexivity.
    rewrite (mbind_ok _ _ _ _ _ Hconv).
    rewrite (mbind_ok _ _ _ _ _ Hreg). cbn [fst snd].
    rewrite (mbind_ok (lift (argmin _)) _ wr wr rfrm) by (unfold lift; now rewrite Harg).
    rewrite (mbind_ok (lift (getitem _ _)) _ wr wr ref) by (unfold lift; now rewrite Href).
    rewrite (mbind_ok (record_call (GetNii ref)) _ wr wg tt) by reflexivity.
    rewrite (mbind_ok _ _ _ _ _ Hres).
    rewrite (mbind_ok (record_call _) _ ws ww tt) by reflexivity.
    unfold mbind, ret. destruct (add_entry (aligned_name C d0) File ww) as [wf [[]|e]] eqn:Ha;
      [reflexivity | discriminate Ha].
  - split.
    + unfold add_entry. cbn [fst calls]. unfold ww. cbn [calls].
      rewrite Hcs. unfold wg. cbn [calls]. rewrite Hcr.
      rewrite <- !app_assoc. reflexivity.
    + split; [exact Hallr|]. split; [rewrite Hlr, combinations2_length; reflexivity|].
      split; [exact Halls|]. cbn [List.length]. rewrite Hls.
      destruct (Nat.leb_spec 0 rfrm); [|lia].
      destruct (Nat.ltb_spec rfrm (0 + List.length nii_frms)); [|lia].
      cbn [andb]. lia.
Qed.

Lemma align_suvr_recompute_succeeds_witness :
  exists w' R Sa regs mid,
    align_suvr Examples.plain_collaborators Examples.three_frame_tdata
               ["k1"; "k2"; "k3"] None true Examples.world_after_first_run
    = (w', Ok {| fpet := "SUVr_aligned_PET.nii.gz"; Metric := R; faff := Sa |})
    /\ calls w'
       = (calls Examples.world_after_first_run
          ++ [Dcm2niix "100000"; Dcm2niix "101000"; Dcm2niix "102000"])
         ++ regs ++ mid ++ [Array2Nii "SUVr_aligned_PET.nii.gz"]
    /\ forallb is_registration regs = true
    /\ List.length regs = (3 * (3 - 1))%nat
    /\ forallb (fun c => negb (is_registration c || is_conversion c)) mid = true
    /\ List.length mid = (2 * 3 - 1)%nat.
Proof.
  apply (align_suvr_recompute_succeeds Examples.plain_collaborators
           Examples.three_frame_tdata ["k1"; "k2"; "k3"] None true
           Examples.world_after_first_run
           (fst (convert_frames Examples.plain_collaborators Examples.three_frame_tdata
                   ["k1"; "k2"; "k3"] (purged Examples.world_after_first_run)))
           {| dicom_dir := "100000"; series := "PET"; series_tacq := "100000" |}
           ["100000_s.nii.gz"; "101000_s.nii.gz"; "102000_s.nii.gz"]).
  - reflexivity.
  - left. reflexivity.
  - reflexivity.
  - discriminate.
Defined.

(** X12. [align_suvr] never succeeds twice in a row for the same series
    and the same output path unless forced: a call that returns has written
    the aligned file it names into the output folder, so the next call
    without [reg_force] with the same [suvr_tdata] and [outpath], whatever
    its frame selection, takes the cache branch, makes no collaborator
    call, and raises [UnboundLocalError]. *)
Theorem align_suvr_never_succeeds_twice (C : collaborators)
        (suvr_tdata : list (string * series_data)) (frms frms' : list string)
        (outpath : option string) (reg_force : bool) (w w1 : world)
        (r : aligned) :
  align_suvr C suvr_tdata frms outpath reg_force w = (w1, Ok r) ->
  is_file (fpet r) w1 = (w1, Ok true)
  /\ align_suvr C suvr_tdata frms' outpath false w1
     = (prepared w1, Raise (UnboundLocalError "R"))
  /\ calls (prepared w1) = calls w1.
Proof.
  intros H. destruct (align_suvr_success_leaves_file _ _ _ _ _ _ _ _ H)
    as (d0 & Hfirst & Hname & Hfile).
  rewrite Hname. split; [exact Hfile|]. split; [|reflexivity].
  now apply align_suvr_on_cache_hit with (d0 := d0).
Qed.

Lemma align_suvr_never_succeeds_twice_witness :
  align_suvr Examples.plain_collaborators Examples.three_frame_tdata ["k1"; "k2"] None
             false
             (fst (align_suvr Examples.plain_collaborators Examples.three_frame_tdata
                     ["k1"; "k2"; "k3"] None false Examples.empty_world))
  = (prepared (fst (align_suvr Examples.plain_collaborators Examples.three_frame_tdata
                      ["k1"; "k2"; "k3"] None false Examples.empty_world)),
     Raise (UnboundLocalError "R")).
Proof.
  apply (align_suvr_never_succeeds_twice Examples.plain_collaborators
           Examples.three_frame_tdata ["k1"; "k2"; "k3"] ["k1"; "k2"] None false
           Examples.empty_world
           (fst (align_suvr Examples.plain_collaborators Examples.three_frame_tdata
                   ["k1"; "k2"; "k3"] None false Examples.empty_world))
           (match snd (align_suvr Examples.plain_collaborators Examples.three_frame_tdata
                         ["k1"; "k2"; "k3"] None false Examples.empty_world) with
            | Ok r => r
            | Raise _ => {| fpet := ""; Metric := []; faff := [] |}
            end)).
  vm_compute. reflexivity.
Defined.

(** X13. With an empty frame selection a recomputation purges the output
    folder, makes no collaborator call, and raises the [ValueError] of
    [np.argmin] on an empty array. *)
Theorem align_suvr_empty_selection (C : collaborators)
        (suvr_tdata : list (string * series_data)) (outpath : option string)
        (reg_force : bool) (w : world) (d0 : series_data) :
  first_series suvr_tdata = Ok d0 ->
  reg_force = true \/ is_file (aligned_name C d0) (prepared w) = (prepared w, Ok false) ->
  align_suvr C suvr_tdata [] outpath reg_force w
  = (purged w, Raise (ValueError "attempt to get argmin of an empty sequence"))
  /\ entries (purged w) = []
  /\ calls (purged w) = calls w.
Proof.
  intros Hfirst Hrun. split; [|split; reflexivity].
  unfold align_suvr.
  rewrite (mbind_ok _ _ w w tt)
    by (destruct outpath; unfold mbind, lift, ret; rewrite ?Hfirst; reflexivity).
  rewrite (mbind_ok create_niidir _ w (fst (create_niidir w)) tt) by reflexivity.
  rewrite (mbind_ok (add_entry "SPM-aligned" Dir) _ _ (prepared w) tt) by reflexivity.
  rewrite (mbind_ok (lift (first_series suvr_tdata)) _ _ (prepared w) d0)
    by (unfold lift; now rewrite Hfirst).
  cbv zeta.
  assert (Hbranch : exists b, is_file (aligned_name C d0) (prepared w) = (prepared w, Ok b)
                              /\ reg_force || negb b = true).
  { destruct Hrun as [->|Hf]; [eexists; split; reflexivity|].
    exists false. split; [exact Hf|apply orb_true_r]. }
  destruct Hbranch as (b & Hb & Hcond).
  rewrite (mbind_ok _ _ _ _ _ Hb). rewrite Hcond.
  apply mbind_raise. reflexivity.
Qed.

Lemma align_suvr_empty_selection_witness :
  align_suvr Examples.plain_collaborators Examples.one_frame_tdata [] None true
             Examples.world_after_first_run
  = (purged Examples.world_after_first_run,
     Raise (ValueError "attempt to get argmin of an empty sequence"))
  /\ entries (purged Examples.world_after_first_run) = []
  /\ calls (purged Examples.world_after_first_run) = calls Examples.world_after_first_run.
Proof.
  apply (align_suvr_empty_selection Examples.plain_collaborators Examples.one_frame_tdata
           None true Examples.world_after_first_run
           {| dicom_dir := "100000"; series := "PET"; series_tacq := "100000" |}).
  - reflexivity.
  - left. reflexivity.
Defined.

End AlignmentCoverage.

(** * Further properties of the static image builder *)

Section StaticImageCoverage.

Import SuvrTools Props.

(** ** What a returned result implies *)

Lemma build_static_some (p : pet_input) (frames : list Z) (fstat : string)
      (com_correction force : bool) (tr tr' : list step) (c : string * list float) :
  build_static p frames fstat com_correction force tr = (tr', Ok (Some c)) ->
  com_correction = true
  /\ negb (fstat_is_file p) || force = true
  /\ c = (com_fim p, com_abs p)
  /\ exists pre imstat, tr' = pre ++ [WriteStatic fstat imstat; CentreOfMass fstat].
Proof.
  unfold build_static. destruct (negb (fstat_is_file p) || force); [|discriminate].
  unfold mbind, ret, lift, record_step.
  destruct (1 <? nfrm p).
  - destruct (take_frames (im p) frames) as [sel|e]; [|discriminate].
    destruct com_correction; [|discriminate]. intros H. injection H as <- <-.
    split; [reflexivity|]. split; [reflexivity|]. split; [reflexivity|].
    exists (tr ++ [SumFrames frames]), (sum_axis0 sel).
    rewrite <- (app_assoc _ [WriteStatic fstat (sum_axis0 sel)]). reflexivity.
  - destruct com_correction; [|discriminate]. intros H. injection H as <- <-.
    split; [reflexivity|]. split; [reflexivity|]. split; [reflexivity|].
    exists (tr ++ [SqueezeImage]), (squeeze (im p)).
    rewrite <- (app_assoc _ [WriteStatic fstat (squeeze (im p))]). reflexivity.
Qed.

Lemma resolve_image_reads (p : pet_input) (frames : option (list Z)) (tr tr' : list step)
      (ff : string * list Z) :
  resolve_image p frames tr = (tr', Ok ff) ->
  path_exists p = true /\ kind p <> OtherPath
  /\ exists pre, tr' = pre ++ [ReadImage (fst ff)].
Proof.
  unfold resolve_image. destruct (path_exists p); [|discriminate]. cbn [negb].
  unfold mbind, ret, raise, record_step.
  assert (Hfr : forall (t : list step) (f : string),
             (let (w', r) :=
                match frames with
                | Some (f0 :: fs) =>
                    if nfrm p <? list_max f0 fs
                    then fun w => (w, Raise (ValueError "The selected frames do not exist"))
                    else fun w => (w, Ok (f0 :: fs))
                | _ => fun w => (w, Ok (arange (nfrm p)))
                end (t ++ [ReadImage f]) in
              match r with
              | Ok a => (w', Ok (f, a))
              | Raise e => (w', Raise e)
              end) = (tr', Ok ff) ->
             exists pre, tr' = pre ++ [ReadImage (fst ff)]).
  { intros t f. destruct frames as [[|f0 fs]|];
      try (intros H; injection H as <- <-; eauto).
    destruct (nfrm p <? list_max f0 fs); [discriminate|].
    intros H; injection H as <- <-; eauto. }
  destruct (kind p).
  - intros H. split; [reflexivity|]. split; [discriminate|]. eapply Hfr, H.
  - intros H. split; [reflexivity|]. split; [discriminate|].
    destruct (found_before p) as [|b bs].
    + destruct (found_after p) as [|a [|a' as']].
      * destruct (found_spaces p) as [|s [|s' ss]]; try discriminate. eapply Hfr, H.
      * eapply Hfr, H.
      * discriminate.
    + destruct bs; [eapply Hfr, H | discriminate].
  - discriminate.
Qed.

(** X14. [preproc_suvr] returns a result only when the centre-of-mass
    correction ran: [com_correction] is true and the static file was absent
    or [force] set; the path exists and is a NIfTI file or a DICOM folder;
    the result names the static file, and the last two steps taken are the
    writing of the static image and the correction of that file. *)
Theorem preproc_suvr_returns_only_after_com
        (rem_chars : string -> string) (p : pet_input) (frames : option (list Z))
        (outpath : string) (fname : option string) (com_correction force : bool)
        (tr tr' : list step) (r : suvr_files) :
  preproc_suvr rem_chars p frames outpath fname com_correction force tr = (tr', Ok r) ->
  com_correction = true
  /\ negb (fstat_is_file p) || force = true
  /\ path_exists p = true /\ kind p <> OtherPath
  /\ fsuvr r = static_path rem_chars p outpath fname
  /\ fcom r = com_fim p /\ com r = com_abs p
  /\ exists pre imstat,
      tr' = pre ++ [WriteStatic (fsuvr r) imstat; CentreOfMass (fsuvr r)].
Proof.
  unfold preproc_suvr. unfold mbind at 1.
  destruct (resolve_image p frames tr) as [tr1 [ff|e]] eqn:Hr; [|discriminate].
  destruct (resolve_image_reads _ _ _ _ _ Hr) as (Hp & Hk & _).
  unfold mbind.
  destruct (build_static p (snd ff) _ com_correction force tr1) as [tr2 [[c|]|e]] eqn:Hb;
    try discriminate.
  destruct (build_static_some _ _ _ _ _ _ _ _ Hb) as (Hc & Hrun & -> & Htr).
  unfold ret. intros H. injection H as <- <-. cbn [fsuvr fcom com fst snd].
  split; [exact Hc|]. split; [exact Hrun|]. split; [exact Hp|]. split; [exact Hk|].
  split; [reflexivity|]. split; [reflexivity|]. split; [reflexivity|]. exact Htr.
Qed.

Lemma preproc_suvr_returns_only_after_com_witness :
  true = true
  /\ negb (fstat_is_file Examples.three_frame_pet) || true = true
  /\ path_exists Examples.three_frame_pet = true
  /\ kind Examples.three_frame_pet <> OtherPath
  /\ "/out/pet_static.nii.gz"
     = static_path Examples.keep_chars Examples.three_frame_pet "/out" None
  /\ "/out/pet_static_com.nii.gz" = com_fim Examples.three_frame_pet
  /\ [0; 0; 0]%float = com_abs Examples.three_frame_pet
  /\ exists pre imstat,
      [ReadImage "/data/pet.nii.gz"; SumFrames [1; 2];
       WriteStatic "/out/pet_static.nii.gz" [8; 10]%float;
       CentreOfMass "/out/pet_static.nii.gz"]
      = pre ++ [WriteStatic "/out/pet_static.nii.gz" imstat;
                CentreOfMass "/out/pet_static.nii.gz"].
Proof.
  apply (preproc_suvr_returns_only_after_com Examples.keep_chars Examples.three_frame_pet
           (Some [1; 2]) "/out" None true true []
           [ReadImage "/data/pet.nii.gz"; SumFrames [1; 2];
            WriteStatic "/out/pet_static.nii.gz" [8; 10]%float;
            CentreOfMass "/out/pet_static.nii.gz"]
           {| fpet_nii := "/data/pet.nii.gz"; fsuvr := "/out/pet_static.nii.gz";
              fcom := "/out/pet_static_com.nii.gz"; com := [0; 0; 0]%float |}).
  reflexivity.
Defined.

(** ** The name of the static file *)










(** ** Frame selection *)

Lemma getitem_nth {A : Type} (l : list A) (i : nat) (x : A) :
  nth_error l i = Some x -> getitem l (Z.of_nat i) = Ok x.
Proof.
  intros H. assert (Hi : (i < List.length l)%nat) by (apply nth_error_Some; congruence).
  unfold getitem.
  destruct (Z.ltb_spec (Z.of_nat i) 0); [lia|].
  destruct (Z.ltb_spec (Z.of_nat i) 0); [lia|].
  destruct (Z.leb_spec (Z.of_nat (List.length l)) (Z.of_nat i)); [lia|]. cbn [orb].
  now rewrite Nat2Z.id, H.
Qed.

Lemma skipn_cons_nth {A : Type} (l : list A) : forall i x,
  nth_error l i = Some x -> skipn i l = x :: skipn (S i) l.
Proof.
  induction l as [|y l IH]; intros [|i] x H; try discriminate.
  - injection H as ->. reflexivity.
  - simpl in *. now apply IH.
Qed.

Lemma take_frames_seq (im : list (list float)) : forall k a,
  (a + k <= List.length im)%nat ->
  take_frames im (map Z.of_nat (seq a k)) = Ok (firstn k (skipn a im)).
Proof.
  induction k as [|k IH]; intros a H; [reflexivity|].
  cbn [seq map take_frames].
  destruct (nth_error im a) as [x|] eqn:E; [|apply nth_error_None in E; lia].
  rewrite (getitem_nth _ _ _ E). cbn [bind].
  rewrite IH by lia. cbn [bind].
  rewrite (skipn_cons_nth _ _ _ E). reflexivity.
Qed.

(** X16. With no frame list (or an empty one) every frame is used: for an
    existing NIfTI file of [nfrm > 1] frames, [preproc_suvr] with the
    defaults reads the image, sums all its frames voxel by voxel in the
    image's [float32] arithmetic, writes that sum as the static file and
    runs the centre-of-mass correction on it. *)
Theorem preproc_suvr_sums_all_frames_by_default
        (rem_chars : string -> string) (p : pet_input) (frames : option (list Z))
        (outpath : string) (fname : option string) (force : bool) (tr : list step) :
  path_exists p = true -> kind p = NiftiFile ->
  frames = None \/ frames = Some [] ->
  1 < nfrm p -> nfrm p = Z.of_nat (List.length (im p)) ->
  negb (fstat_is_file p) || force = true ->
  preproc_suvr rem_chars p frames outpath fname true force tr
  = (tr ++ [ReadImage (pet_path p); SumFrames (arange (nfrm p));
            WriteStatic (static_path rem_chars p outpath fname) (sum_axis0 (im p));
            CentreOfMass (static_path rem_chars p outpath fname)],
     Ok {| fpet_nii := pet_path p;
           fsuvr := static_path rem_chars p outpath fname;
           fcom := com_fim p; com := com_abs p |}).
Proof.
  intros Hp Hk Hfr Hn Hlen Hrun.
  assert (Hres : resolve_image p frames tr
                 = (tr ++ [ReadImage (pet_path p)], Ok (pet_path p, arange (nfrm p)))).
  { unfold resolve_image. rewrite Hp, Hk. cbn [negb].
    destruct Hfr as [->| ->]; reflexivity. }
  assert (Htake : take_frames (im p) (arange (nfrm p)) = Ok (im p)).
  { unfold arange. rewrite Hlen, Nat2Z.id, take_frames_seq by lia.
    cbn [skipn]. now rewrite firstn_all. }
  unfold preproc_suvr. rewrite (mbind_ok _ _ _ _ _ Hres). cbn [fst snd].
  unfold build_static. rewrite Hrun.
  destruct (Z.ltb_spec 1 (nfrm p)); [|lia].
  unfold mbind, lift, ret, record_step. rewrite Htake.
  rewrite <- !app_assoc. reflexivity.
Qed.

Lemma preproc_suvr_sums_all_frames_by_default_witness :
  sum_axis0 (im Examples.large_count_pet) = [16777216; 12]%float
  /\ preproc_suvr Examples.keep_chars Examples.large_count_pet None "/out" None true true []
     = ([ReadImage "/data/pet.nii.gz"; SumFrames [0; 1; 2];
         WriteStatic "/out/pet_static.nii.gz" (sum_axis0 (im Examples.large_count_pet));
         CentreOfMass "/out/pet_static.nii.gz"],
        Ok {| fpet_nii := "/data/pet.nii.gz"; fsuvr := "/out/pet_static.nii.gz";
              fcom := "/out/pet_static_com.nii.gz"; com := [0; 0; 0]%float |}).
Proof.
  split; [reflexivity|].
  apply (preproc_suvr_sums_all_frames_by_default Examples.keep_chars
           Examples.large_count_pet None "/out" None true []);
    (reflexivity || (left; reflexivity)).
Defined.

Lemma getitem_in_range {A : Type} (l : list A) (i : Z) :
  - Z.of_nat (List.length l) <= i < Z.of_nat (List.length l) ->
  exists a, getitem l i = Ok a
            /\ nth_error l (Z.to_nat (i mod Z.of_nat (List.length l))) = Some a.
Proof.
  intros Hi. set (n := Z.of_nat (List.length l)) in *.
  assert (Hj : exists j, (j < List.length l)%nat
                         /\ (if i <? 0 then i + n else i) = Z.of_nat j
                         /\ i mod n = Z.of_nat j).
  { destruct (Z.ltb_spec i 0).
    - exists (Z.to_nat (i + n)). split; [lia|]. split; [lia|].
      rewrite Z2Nat.id by lia.
      replace i with ((i + n) + (-1) * n) at 1 by lia.
      rewrite Z.mod_add by lia. apply Z.mod_small. lia.
    - exists (Z.to_nat i). split; [lia|]. split; [lia|].
      rewrite Z2Nat.id by lia. apply Z.mod_small. lia. }
  destruct Hj as (j & Hjl & Hij & Hmod).
  destruct (nth_error l j) as [a|] eqn:E; [|apply nth_error_None in E; lia].
  exists a. unfold getitem. fold n. rewrite Hij, Hmod, Nat2Z.id.
  destruct (Z.ltb_spec (Z.of_nat j) 0); [lia|].
  destruct (Z.leb_spec n (Z.of_nat j)); [lia|]. cbn [orb].
  rewrite E. auto.
Qed.

Lemma take_frames_in_range (im : list (list float)) (frames : list Z) :
  Forall (fun i => - Z.of_nat (List.length im) <= i < Z.of_nat (List.length im)) frames ->
  take_frames im frames
  = Ok (map (fun i => nth (Z.to_nat (i mod Z.of_nat (List.length im))) im []) frames).
Proof.
  induction 1 as [|i frames Hi _ IH]; [reflexivity|].
  cbn [take_frames map]. destruct (getitem_in_range im i Hi) as (a & -> & Hn).
  cbn [bind]. rewrite IH. cbn [bind].
  now rewrite (nth_error_nth _ _ _ Hn).
Qed.

Lemma take_frames_ok_range (im : list (list float)) (frames : list Z)
      (vs : list (list float)) :
  take_frames im frames = Ok vs ->
  Forall (fun i => - Z.of_nat (List.length im) <= i < Z.of_nat (List.length im)) frames.
Proof.
  revert vs. induction frames as [|i frames IH]; intros vs H; [constructor|].
  cbn [take_frames] in H.
  destruct (getitem_cases im i) as [Hr|(a & Ha & Hi)]; [rewrite Hr in H; discriminate|].
  rewrite Ha in H. cbn [bind] in H.
  destruct (take_frames im frames) as [vs'|e] eqn:E; [|discriminate].
  constructor; [exact Hi|]. now apply (IH vs').
Qed.

(** X17. For an existing multi-frame NIfTI file, [preproc_suvr] run with
    the centre-of-mass correction accepts a non-empty frame list exactly
    when every index lies in [-nfrm, nfrm): negative indices are not
    rejected but count from the last frame, and the static image written is
    the [float32] sum of the frames so selected, in the order of the list. *)
Theorem preproc_suvr_accepted_frame_lists
        (rem_chars : string -> string) (p : pet_input) (f : Z) (fs : list Z)
        (outpath : string) (fname : option string) (force : bool) (tr : list step) :
  path_exists p = true -> kind p = NiftiFile ->
  1 < nfrm p -> nfrm p = Z.of_nat (List.length (im p)) ->
  negb (fstat_is_file p) || force = true ->
  (Forall (fun i => - nfrm p <= i < nfrm p) (f :: fs) ->
   preproc_suvr rem_chars p (Some (f :: fs)) outpath fname true force tr
   = (tr ++ [ReadImage (pet_path p); SumFrames (f :: fs);
             WriteStatic (static_path rem_chars p outpath fname)
               (sum_axis0 (map (fun i => nth (Z.to_nat (i mod nfrm p)) (im p) [])
                               (f :: fs)));
             CentreOfMass (static_path rem_chars p outpath fname)],
      Ok {| fpet_nii := pet_path p;
            fsuvr := static_path rem_chars p outpath fname;
            fcom := com_fim p; com := com_abs p |}))
  /\ (forall tr' r,
         preproc_suvr rem_chars p (Some (f :: fs)) outpath fname true force tr
         = (tr', Ok r) ->
         Forall (fun i => - nfrm p <= i < nfrm p) (f :: fs)).
Proof.
  intros Hp Hk Hn Hlen Hrun. split.
  - intros Hall.
    assert (Hmax : list_max f fs <= nfrm p).
    { rewrite Forall_forall in Hall. specialize (Hall _ (list_max_in fs f)). lia. }
    unfold preproc_suvr.
    rewrite (mbind_ok _ _ _ _ _ (resolve_image_nifti p f fs tr Hp Hk Hmax)).
    cbn [fst snd]. unfold build_static. rewrite Hrun.
    destruct (Z.ltb_spec 1 (nfrm p)); [|lia].
    rewrite Hlen in Hall. unfold mbind, lift, ret, record_step.
    rewrite (take_frames_in_range _ _ Hall). rewrite <- Hlen.
    rewrite <- !app_assoc. reflexivity.
  - intros tr' r H. unfold preproc_suvr in H.
    destruct (Z.leb_spec (list_max f fs) (nfrm p)) as [Hmax|Hmax].
    + rewrite (mbind_ok _ _ _ _ _ (resolve_image_nifti p f fs tr Hp Hk Hmax)) in H.
      cbn [fst snd] in H. unfold build_static in H. rewrite Hrun in H.
      destruct (Z.ltb_spec 1 (nfrm p)); [|lia].
      unfold mbind, lift, ret, record_step in H.
      destruct (take_frames (im p) (f :: fs)) as [vs|e] eqn:E; [|discriminate].
      rewrite Hlen. exact (take_frames_ok_range _ _ _ E).
    + exfalso. unfold resolve_image in H. rewrite Hp, Hk in H. cbn [negb] in H.
      unfold mbind, ret, raise, record_step in H.
      destruct (Z.ltb_spec (nfrm p) (list_max f fs)); [discriminate|lia].
Qed.

Lemma preproc_suvr_accepted_frame_lists_witness :
  sum_axis0 [[1; 6]; [16777216; 2]]%float = [16777216; 8]%float
  /\ preproc_suvr Examples.keep_chars Examples.large_count_pet (Some [-1; 0]) "/out" None
                  true true []
     = ([ReadImage "/data/pet.nii.gz"; SumFrames [-1; 0];
         WriteStatic "/out/pet_static.nii.gz"
           (sum_axis0 (map (fun i => nth (Z.to_nat (i mod 3)) (im Examples.large_count_pet) [])
                           [-1; 0]));
         CentreOfMass "/out/pet_static.nii.gz"],
        Ok {| fpet_nii := "/data/pet.nii.gz"; fsuvr := "/out/pet_static.nii.gz";
              fcom := "/out/pet_static_com.nii.gz"; com := [0; 0; 0]%float |}).
Proof.
  split; [reflexivity|].
  apply (proj1 (preproc_suvr_accepted_frame_lists Examples.keep_chars
                  Examples.large_count_pet (-1) [0] "/out" None true []
                  eq_refl eq_refl eq_refl eq_refl eq_refl)).
  repeat constructor; vm_compute; congruence.
Defined.

End StaticImageCoverage.

(** * Further properties of the VOI sampling *)

Section SamplingCoverage.

Import SuvrTools Props.

(** ** The mask of a VOI *)

Lemma fold_mask_or_equal (lbls labels : list Z) : forall g : Z -> bool,
  fold_left (fun rmsk ri => mask_or_equal rmsk lbls ri) labels (map g lbls)
  = map (fun l => g l || existsb (Z.eqb l) labels) lbls.
Proof.
  induction labels as [|ri labels IH]; intros g.
  - simpl. apply map_ext. intros l. now rewrite orb_false_r.
  - cbn [fold_left]. unfold mask_or_equal at 2.
    replace (map (fun bl : bool * Z => fst bl || (snd bl =? ri)) (combine (map g lbls) lbls))
      with (map (fun l => g l || (l =? ri)) lbls).
    + rewrite IH. apply map_ext. intros l. cbn [existsb]. now rewrite orb_assoc.
    + clear IH. induction lbls as [|l lbls IHl]; [reflexivity|].
      simpl. now rewrite IHl.
Qed.

Lemma roi_mask_pointwise (lbls labels : list Z) :
  roi_mask lbls labels = map (fun l => existsb (Z.eqb l) labels) lbls.
Proof.
  unfold roi_mask. rewrite (fold_mask_or_equal lbls labels (fun _ => false)).
  reflexivity.
Qed.

Lemma count_true_map {A : Type} (f : A -> bool) (l : list A) :
  count_true (map f l) = Z.of_nat (List.length (filter f l)).
Proof.
  unfold count_true. f_equal. induction l as [|x l IH]; [reflexivity|].
  simpl. destruct (f x); simpl; now rewrite IH.
Qed.

Lemma roi_mask_scrubbed (atlas : list (option Z)) (labels : list Z) :
  roi_mask (scrub_nan atlas) labels = map (in_voi labels) atlas.
Proof.
  rewrite roi_mask_pointwise. unfold scrub_nan. rewrite map_map. reflexivity.
Qed.

(** X18. The sampling mask of a VOI is the union over its labels: a voxel
    is sampled exactly when its atlas label, with NaN read as 0, is one of
    the VOI's labels, whatever the order or repetition of the labels; the
    voxel count is the number of such voxels. *)
Theorem voi_mask_is_union_of_labels
        (frames : list (list float)) (atlas : list (option Z))
        (voi_dct : list (string * list Z)) (atlas_mask : atlas_mask_arg)
        (out : list (string * voi_result)) :
  extract_vois (Array4 frames) atlas voi_dct atlas_mask true = Ok out ->
  Forall2 (fun kv kr =>
             fst kr = fst kv
             /\ roimsk (snd kr) = Some (map (in_voi (snd kv)) atlas)
             /\ vox_no (snd kr)
                = Z.of_nat (List.length (filter (in_voi (snd kv)) atlas)))
          voi_dct out.
Proof.
  unfold extract_vois.
  destruct atlas_mask as [|a|]; cbn [bind]; try discriminate; intros H.
  - revert out H. induction voi_dct as [|[voi labels] rest IH]; intros out H.
    + injection H as <-. constructor.
    + cbn [extract_loop] in H. unfold extract_voi at 1 in H.
      destruct (mask_times _ _); [|discriminate]. cbn [bind] in H.
      destruct (masked_sums _ frames) as [xs|e]; [|discriminate]. cbn [bind] in H.
      destruct (extract_loop _ _ _ _ rest) as [out'|e]; [|discriminate].
      cbn [bind] in H. injection H as <-.
      constructor; [|now apply IH]. cbn [fst snd roimsk vox_no].
      rewrite roi_mask_scrubbed, count_true_map. auto.
  - revert out H. induction voi_dct as [|[voi labels] rest IH]; intros out H.
    + injection H as <-. constructor.
    + cbn [extract_loop] in H. unfold extract_voi at 1 in H.
      destruct (mask_times _ _); [|discriminate]. cbn [bind] in H.
      destruct (masked_sums _ frames) as [xs|e]; [|discriminate]. cbn [bind] in H.
      destruct (extract_loop _ _ _ _ rest) as [out'|e]; [|discriminate].
      cbn [bind] in H. injection H as <-.
      constructor; [|now apply IH]. cbn [fst snd roimsk vox_no].
      rewrite roi_mask_scrubbed, count_true_map. auto.
Qed.

Lemma voi_mask_is_union_of_labels_witness :
  Forall2 (fun kv kr =>
             fst kr = fst kv
             /\ roimsk (snd kr) = Some (map (in_voi (snd kv)) [Some 1; None; Some 4])
             /\ vox_no (snd kr)
                = Z.of_nat (List.length (filter (in_voi (snd kv)) [Some 1; None; Some 4])))
          [("cortex", [4; 0; 4])]
          [("cortex", {| vox_no := 2; sum := PerFrame [5%float];
                         avg := PerFrame [2.5%float]; fvoi := None;
                         roimsk := Some [false; true; true] |})].
Proof.
  apply (voi_mask_is_union_of_labels [[1; 2; 3]%float] [Some 1; None; Some 4]
           [("cortex", [4; 0; 4])] NoMask).
  reflexivity.
Defined.

(** ** Shapes of the results *)

Lemma masked_sums_ok (rmsk : list bool) (frames : list (list float)) :
  Forall (fun v => List.length v = List.length rmsk) frames ->
  exists xs, masked_sums rmsk frames = Ok xs /\ List.length xs = List.length frames.
Proof.
  induction 1 as [|v frames Hv _ (xs & IH & Hl)]; [exists []; auto|].
  cbn [masked_sums]. unfold masked_sum. rewrite Hv, Nat.eqb_refl. cbn [bind].
  rewrite IH. cbn [bind]. eexists. split; [reflexivity|]. simpl. now rewrite Hl.
Qed.

Lemma masked_sums_mismatch (rmsk : list bool) (frames : list (list float)) :
  Exists (fun v => List.length v <> List.length rmsk) frames ->
  masked_sums rmsk frames = Raise (IndexError "boolean index did not match indexed array").
Proof.
  induction frames as [|v frames IH]; intros H; [inversion H|].
  cbn [masked_sums]. unfold masked_sum.
  destruct (Nat.eqb_spec (List.length v) (List.length rmsk)) as [Heq|Hne]; [|reflexivity].
  cbn [bind]. rewrite IH; [reflexivity|].
  inversion H; subst; [contradiction|assumption].
Qed.

(** X19. On a 4D image whose frames all have the atlas's number of voxels,
    [extract_vois] returns one result per VOI, in the order of the VOI
    dictionary, each with one sum and one average per frame and a voxel
    count between 0 and the number of voxels; if some frame has another
    number of voxels and there is at least one VOI, it raises [IndexError]. *)
Theorem extract_vois_4d_shapes
        (frames : list (list float)) (atlas : list (option Z))
        (voi_dct : list (string * list Z)) (output_masks : bool) :
  (Forall (fun v => List.length v = List.length atlas) frames ->
   exists out,
     extract_vois (Array4 frames) atlas voi_dct NoMask output_masks = Ok out
     /\ map fst out = map fst voi_dct
     /\ Forall (fun kr => per_frame_result (List.length frames) (List.length atlas) (snd kr))
               out)
  /\ (Exists (fun v => List.length v <> List.length atlas) frames ->
      voi_dct <> [] ->
      extract_vois (Array4 frames) atlas voi_dct NoMask output_masks
      = Raise (IndexError "boolean index did not match indexed array")).
Proof.
  assert (Hs : List.length (scrub_nan atlas) = List.length atlas)
    by (unfold scrub_nan; apply length_map).
  unfold extract_vois. cbn [bind]. split.
  - intros Hall.
    assert (Hok : exists out, extract_loop (Array4 frames) (scrub_nan atlas) None
                                output_masks voi_dct = Ok out).
    { induction voi_dct as [|[voi labels] rest (out & IH)]; [exists []; reflexivity|].
      cbn [extract_loop]. unfold extract_voi. cbn [mask_times bind].
      destruct (masked_sums_ok (roi_mask (scrub_nan atlas) labels) frames) as (xs & -> & _).
      { eapply Forall_impl; [|exact Hall]. intros v Hv.
        now rewrite roi_mask_length, Hs. }
      cbn [bind]. rewrite IH. cbn [bind]. eauto. }
    destruct Hok as (out & Hout). exists out. split; [exact Hout|].
    destruct (extract_loop_shapes _ _ _ _ _ _ Hout) as [Hk Hf].
    rewrite Hs in Hf. auto.
  - intros Hbad Hne. destruct voi_dct as [|[voi labels] rest]; [congruence|].
    cbn [extract_loop]. unfold extract_voi. cbn [mask_times bind].
    rewrite masked_sums_mismatch; [reflexivity|].
    eapply Exists_impl; [|exact Hbad]. intros v Hv.
    now rewrite roi_mask_length, Hs.
Qed.

Lemma extract_vois_4d_shapes_witness :
  exists out,
    extract_vois (Array4 [[5; 7]; [1; 1]]%float) [Some 1; None]
                 [("a", [1]); ("b", [0; 1])] NoMask false = Ok out
    /\ map fst out = ["a"; "b"]
    /\ Forall (fun kr => per_frame_result 2 2 (snd kr)) out.
Proof.
  apply (proj1 (extract_vois_4d_shapes [[5; 7]; [1; 1]]%float [Some 1; None]
                  [("a", [1]); ("b", [0; 1])] false)).
  repeat constructor.
Defined.

End SamplingCoverage.

(** * Further properties of voi_process *)

Section VoiProcessCoverage.

Import SuvrTools Props.

(** X21. [voi_process] never returns.  It raises the [ValueError] of a
    wrong path or of a reference VOI missing from the dictionary before
    the PET image is read; otherwise it runs [preproc_suvr] with its defaults
    and either passes on that call's exception or, when the call returned,
    raises [KeyError] for the key ['fstat'], which the returned dictionary
    does not have. *)
Theorem voi_process_always_raises {A : Type}
        (rem_chars : string -> string) (p : pet_input) (paths_ok : bool)
        (voi_dct : list (string * list Z)) (ref_voi : option (list string))
        (frames : option (list Z)) (outpath : string) (fname : option string)
        (rest : suvr_files -> string -> Py.M (list step) A) (tr : list step) :
  let run := voi_process rem_chars p paths_ok voi_dct ref_voi frames outpath fname rest tr in
  let pre := preproc_suvr rem_chars p frames
               (outpath ++ "/" ++ before_dot (pet_name p) ++ "_suvr")%string
               fname true true tr in
  let listed r := existsb (fun kv => String.eqb (fst kv) r) voi_dct in
  if negb paths_ok then
    run = (tr, Raise (ValueError
                        "One of the three paths to PET, T1w or label image is incorrect."))
  else if match ref_voi with Some refs => negb (forallb listed refs) | None => false end
  then
    run = (tr, Raise (ValueError
             "Not all VOIs listed as reference are in the VOI definition dictionary."))
  else
    match snd pre with
    | Ok _ => run = (fst pre, Raise (KeyError "fstat"))
    | Raise e => run = (fst pre, Raise e)
    end.
Proof.
  cbv zeta. unfold voi_process. destruct paths_ok; cbn [negb]; [|reflexivity].
  destruct ref_voi as [refs|].
  - destruct (negb (forallb _ refs)); [reflexivity|].
    unfold mbind, ret, lift. cbv beta iota.
    destruct (preproc_suvr _ _ _ _ _ _ _ _) as [tr1 [d|e]]; reflexivity.
  - unfold mbind, ret, lift. cbv beta iota.
    destruct (preproc_suvr _ _ _ _ _ _ _ _) as [tr1 [d|e]]; reflexivity.
Qed.

(** ** The slice positions of the QC plot *)

Lemma first_above_found (t : Z) (prf : list Z) : forall a i,
  first_above prf t a = Ok i ->
  exists k, i = (a + k)%nat /\ (k < List.length prf)%nat /\ t < nth k prf 0
            /\ (forall j, (j < k)%nat -> nth j prf 0 <= t).
Proof.
  induction prf as [|v prf IH]; intros a i H; [discriminate|].
  cbn [first_above] in H. destruct (Z.ltb_spec t v) as [Hlt|Hge].
  - injection H as <-. exists 0%nat. simpl. repeat split; try lia.
  - destruct (IH _ _ H) as (k & -> & Hk & Hv & Hb).
    exists (S k). simpl. repeat split; try lia. intros [|j] Hj; [exact Hge|].
    apply Hb. lia.
Qed.

Lemma first_above_none (t : Z) (prf : list Z) : forall a e,
  first_above prf t a = Raise e -> e = StopIteration /\ Forall (fun v => v <= t) prf.
Proof.
  induction prf as [|v prf IH]; intros a e H.
  - injection H as <-. auto.
  - cbn [first_above] in H. destruct (Z.ltb_spec t v); [discriminate|].
    destruct (IH _ _ H). auto.
Qed.

(** X22. [axrange] raises [StopIteration] exactly when no value of the
    profile exceeds the threshold; otherwise it returns [parts - 1]
    positions, every one a valid index of the profile, from the first
    position whose value exceeds the threshold up to a later such
    position. *)
Theorem axrange_positions_in_bounds (prf : list Z) (thrshld : Z) (parts : positive) :
  (Forall (fun v => v <= thrshld) prf <-> axrange prf thrshld parts = Raise StopIteration)
  /\ (forall e, axrange prf thrshld parts = Raise e -> e = StopIteration)
  /\ (forall zn,
         axrange prf thrshld parts = Ok zn ->
         List.length zn = (Pos.to_nat parts - 1)%nat
         /\ exists zs ze,
             (zs < ze <= List.length prf)%nat
             /\ thrshld < nth zs prf 0 /\ thrshld < nth (ze - 1) prf 0
             /\ Forall (fun z => Z.of_nat zs <= z < Z.of_nat ze) zn).
Proof.
  unfold axrange.
  destruct (first_above prf thrshld 0) as [zs|e] eqn:Hzs.
  - destruct (first_above_found _ _ _ _ Hzs) as (k & -> & Hk & Hv & Hb). cbn [Nat.add] in *.
    destruct (first_above (rev prf) thrshld 0) as [back|e] eqn:Hback.
    + destruct (first_above_found _ _ _ _ Hback) as (b & -> & Hbl & Hbv & Hbb).
      cbn [Nat.add bind] in *. rewrite length_rev in Hbl.
      rewrite rev_nth in Hbv by lia.
      assert (Hle : (b <= List.length prf - 1 - k)%nat).
      { destruct (Nat.le_gt_cases b (List.length prf - 1 - k)) as [|Hgt]; [assumption|].
        specialize (Hbb _ Hgt). rewrite rev_nth in Hbb by lia.
        replace (List.length prf - S (List.length prf - 1 - k))%nat with k in Hbb by lia.
        lia. }
      split; [|split].
      * split; [|discriminate]. intros Hall. rewrite Forall_forall in Hall.
        specialize (Hall (nth k prf 0) (nth_In _ _ Hk)). lia.
      * discriminate.
      * intros zn H. injection H as <-. split; [now rewrite length_map, length_seq|].
        exists k, (List.length prf - b)%nat.
        split; [lia|]. split; [exact Hv|].
        split; [replace (List.length prf - b - 1)%nat with (List.length prf - S b)%nat by lia;
                exact Hbv|].
        apply Forall_forall. intros z Hz. apply in_map_iff in Hz.
        destruct Hz as (j & <- & Hj). apply in_seq in Hj.
        set (D := Z.of_nat (List.length prf) - Z.of_nat b - Z.of_nat k).
        assert (HD : 1 <= D) by (unfold D; lia).
        assert (Hq : 0 <= Z.quot D (Z.pos parts)) by (apply Z.quot_pos; lia).
        assert (Hm : Z.pos parts * Z.quot D (Z.pos parts) <= D)
          by (apply Z.mul_quot_le; lia).
        assert (Hjp : Z.of_nat j <= Z.pos parts - 1) by lia.
        assert (Hjq : Z.of_nat j * Z.quot D (Z.pos parts)
                      <= (Z.pos parts - 1) * Z.quot D (Z.pos parts))
          by (apply Z.mul_le_mono_nonneg_r; lia).
        assert (Hlt : Z.of_nat j * Z.quot D (Z.pos parts) < D) by nia.
        fold D. split; [nia|lia].
    + exfalso. destruct (first_above_none _ _ _ _ Hback) as [_ Hall].
      rewrite Forall_forall in Hall.
      specialize (Hall (nth k prf 0)).
      assert (In (nth k prf 0) (rev prf)) by (apply in_rev; rewrite rev_involutive;
                                               now apply nth_In).
      specialize (Hall H). lia.
  - destruct (first_above_none _ _ _ _ Hzs) as [-> Hall]. cbn [bind].
    split; [|split].
    + split; auto.
    + intros e H. now injection H as <-.
    + discriminate.
Qed.

Lemma axrange_positions_in_bounds_witness :
  List.length [3; 5] = (Pos.to_nat 3 - 1)%nat
  /\ exists zs ze,
      (zs < ze <= List.length [0; 150; 200; 300; 120; 400; 130; 250; 0])%nat
      /\ 100 < nth zs [0; 150; 200; 300; 120; 400; 130; 250; 0] 0
      /\ 100 < nth (ze - 1) [0; 150; 200; 300; 120; 400; 130; 250; 0] 0
      /\ Forall (fun z => Z.of_nat zs <= z < Z.of_nat ze) [3; 5].
Proof.
  apply (proj2 (proj2 (axrange_positions_in_bounds
                         [0; 150; 200; 300; 120; 400; 130; 250; 0] 100 3))).
  reflexivity.
Defined.

End VoiProcessCoverage.
